(** * PDF++ annotation targeting: shallow embedding and verified properties

    The TypeScript sources embedded here are the shift-hover manager
    (nearest-annotation resolver, destination decoding, wikilink
    resolution, highlight tracking) and the annotation write library
    (creation pipeline and post-processor registration).

    Conventions of the embedding:
    - a JavaScript [number] is an IEEE binary64 value, i.e. Rocq's
      primitive [float]; [NaN], [Infinity] and signed zeros are therefore
      the real ones;
    - a JavaScript string is a [string] (a list of 8-bit code units);
    - [undefined] / [null] results are [None];
    - a rejected promise or a thrown exception is the [Throw] outcome of
      the small error monad of [Module JS]. *)

From Stdlib Require Import ZArith Floats String Ascii List Lia Bool.
From stdpp Require Import base strings gmap list.
Import ListNotations.

Open Scope string_scope.

(* ===================================================================== *)
(** * JavaScript primitives *)
(* ===================================================================== *)

Module JS.

(** ** Numbers *)

Definition number := float.

(** [x >= y] in JavaScript is [y <= x] on doubles (false on NaN). *)
Definition geb (x y : number) : bool := (y <=? x)%float.

(** ** Array.prototype.sort

    ECMAScript's [SortCompare] calls the comparator and reads its result
    [v] as: negative, [x] goes first; positive, [y] goes first; zero or
    [NaN], the two are tied.  The sort is stable.  It is modelled by a
    stable insertion sort over that three-way reading; for a consistent
    comparator every stable sort returns the same array. *)

Definition SortCompare {A} (comparefn : A -> A -> number) (x y : A) : comparison :=
  let v := comparefn x y in
  if (v <? 0)%float then Lt
  else if (0 <? v)%float then Gt
  else Eq.

Fixpoint insert {A} (cmp : A -> A -> comparison) (x : A) (l : list A) : list A :=
  match l with
  | [] => [x]
  | y :: l' =>
      match cmp x y with
      | Gt => y :: insert cmp x l'
      | _ => x :: l
      end
  end.

Fixpoint stable_sort {A} (cmp : A -> A -> comparison) (l : list A) : list A :=
  match l with
  | [] => []
  | x :: l' => insert cmp x (stable_sort cmp l')
  end.

Definition Array_sort {A} (comparefn : A -> A -> number) (l : list A) : list A :=
  stable_sort (SortCompare comparefn) l.

(** [arr.includes(s)] on an array of strings. *)
Definition includes (l : list string) (s : string) : bool :=
  existsb (String.eqb s) l.

(** [isNaN(x)] *)
Definition isNaN (x : number) : bool := PrimFloat.is_nan x.

(** The Number value of an integer (round to nearest, ties to even). *)
Definition numberOfZ (n : Z) : number :=
  SF2Prim (SpecFloat.binary_normalize prec emax n 0 false).

(** The Number value of [(-1)^neg * m * 10^k], correctly rounded. *)
Definition numberOfDecimal (neg : bool) (m : N) (k : Z) : number :=
  match m with
  | N0 => if neg then PrimFloat.neg_zero else PrimFloat.zero
  | Npos p =>
      match k with
      | Zneg d =>
          let '(q, e, l) :=
            SpecFloat.SFdiv_core_binary prec emax (Zpos p) 0 (Z.pow_pos 10 d) 0 in
          SF2Prim (SpecFloat.binary_round_aux prec emax neg q e l)
      | _ =>
          SF2Prim (SpecFloat.binary_normalize prec emax
                     (SpecFloat.cond_Zopp neg (Zpos p * 10 ^ k)%Z) 0 false)
      end
  end.

(** ** Strings *)

Definition isDigit (c : ascii) : bool :=
  let n := nat_of_ascii c in (48 <=? n)%nat && (n <=? 57)%nat.

(** White space and line terminators among the 8-bit code units. *)
Definition isWhiteSpace (c : ascii) : bool :=
  let n := nat_of_ascii c in
  (9 <=? n)%nat && (n <=? 13)%nat || (n =? 32)%nat || (n =? 160)%nat.

Fixpoint takeWhile (p : ascii -> bool) (s : string) : string :=
  match s with
  | String c s' => if p c then String c (takeWhile p s') else ""
  | "" => ""
  end.

Fixpoint dropWhile (p : ascii -> bool) (s : string) : string :=
  match s with
  | String c s' => if p c then dropWhile p s' else s
  | "" => ""
  end.

Fixpoint drop (n : nat) (s : string) : string :=
  match n, s with
  | S n', String _ s' => drop n' s'
  | _, _ => s
  end.

Fixpoint take (n : nat) (s : string) : string :=
  match n, s with
  | S n', String c s' => String c (take n' s')
  | _, _ => ""
  end.

(** [s.startsWith(p)] *)
Definition startsWith (s p : string) : bool := String.prefix p s.

(** [s.slice(start, end)], negative indices counting from the end. *)
Definition slice (s : string) (start end_ : Z) : string :=
  let len := Z.of_nat (String.length s) in
  let from := if (start <? 0)%Z then Z.max (len + start) 0 else Z.min start len in
  let to := if (end_ <? 0)%Z then Z.max (len + end_) 0 else Z.min end_ len in
  take (Z.to_nat (Z.max (to - from) 0)) (drop (Z.to_nat from) s).

(** [s.slice(start)] *)
Definition sliceFrom (s : string) (start : Z) : string :=
  slice s start (Z.of_nat (String.length s)).

(** [s.indexOf(c)] for a one-character needle; [-1] when absent. *)
Fixpoint indexOf (s : string) (c : ascii) : Z :=
  match s with
  | "" => (-1)%Z
  | String a s' =>
      if Ascii.eqb a c then 0%Z
      else let i := indexOf s' c in if (i <? 0)%Z then (-1)%Z else (i + 1)%Z
  end.

(** [s.split(c)] for a one-character separator. *)
Fixpoint split (s : string) (sep : ascii) : list string :=
  match s with
  | "" => [""]
  | String c s' =>
      if Ascii.eqb c sep then "" :: split s' sep
      else
        match split s' sep with
        | h :: t => String c h :: t
        | [] => [String c ""]
        end
  end.

Definition trimStart (s : string) : string := dropWhile isWhiteSpace s.

Fixpoint trimEnd (s : string) : string :=
  match s with
  | "" => ""
  | String c s' =>
      match trimEnd s' with
      | "" => if isWhiteSpace c then "" else String c ""
      | r => String c r
      end
  end.

(** [s.trim()] *)
Definition trim (s : string) : string := trimEnd (trimStart s).

(** [s.match(/<prefix>(<class>+)/)] followed by [[1]]: the leftmost place
    where [prefix] is followed by at least one character of the class;
    the capture is the longest run of such characters (the quantifier is
    greedy and nothing follows it in the pattern). *)
Fixpoint matchAfter (prefix : string) (class : ascii -> bool) (s : string) : option string :=
  let here :=
    if String.prefix prefix s
    then match takeWhile class (drop (String.length prefix) s) with
         | "" => None
         | run => Some run
         end
    else None in
  match here with
  | Some run => Some run
  | None =>
      match s with
      | "" => None
      | String _ s' => matchAfter prefix class s'
      end
  end.

Fixpoint digitsValue (acc : N) (s : string) : N :=
  match s with
  | "" => acc
  | String c s' => digitsValue (acc * 10 + N.of_nat (nat_of_ascii c - 48))%N s'
  end.

(** [parseInt(s, 10)] on a non-empty string of decimal digits. *)
Definition parseIntDigits (s : string) : number :=
  numberOfZ (Z.of_N (digitsValue 0 s)).

(** [parseFloat(s)]: leading white space is skipped, the longest prefix
    that is a [StrDecimalLiteral] is read, and [NaN] is returned when
    there is none. *)
Definition parseFloat (input : string) : number :=
  let s := trimStart input in
  let '(neg, s1) :=
    match s with
    | String "-" r => (true, r)
    | String "+" r => (false, r)
    | _ => (false, s)
    end in
  if String.prefix "Infinity" s1 then (if neg then PrimFloat.neg_infinity else PrimFloat.infinity)
  else
    let ip := takeWhile isDigit s1 in
    let s2 := dropWhile isDigit s1 in
    let '(fp, s3) :=
      match s2 with
      | String "." r => (takeWhile isDigit r, dropWhile isDigit r)
      | _ => ("", s2)
      end in
    match ip, fp with
    | "", "" => PrimFloat.nan
    | _, _ =>
        let exponent :=
          match s3 with
          | String ("e" | "E") r =>
              let '(eneg, r') :=
                match r with
                | String "-" r' => (true, r')
                | String "+" r' => (false, r')
                | _ => (false, r)
                end in
              match takeWhile isDigit r' with
              | "" => 0%Z
              | ed => SpecFloat.cond_Zopp eneg (Z.of_N (digitsValue 0 ed))
              end
          | _ => 0%Z
          end in
        numberOfDecimal neg (digitsValue 0 (ip ++ fp))
          (exponent - Z.of_nat (String.length fp))
    end.

(** ** Completions

    What a call leaves behind: a value, or a thrown exception (a rejected
    promise, for an asynchronous call). *)
Inductive Error := mkError (message : string).

Inductive Completion (A : Type) :=
| Normal (value : A)
| Throw (e : Error).
Arguments Normal {A} value.
Arguments Throw {A} e.

Definition bind {A B} (c : Completion A) (k : A -> Completion B) : Completion B :=
  match c with
  | Normal a => k a
  | Throw e => Throw e
  end.

(** [try { body } catch (err) { handler }] *)
Definition tryCatch {A} (body : Completion A) (handler : Error -> Completion A)
  : Completion A :=
  match body with
  | Normal a => Normal a
  | Throw e => handler e
  end.

End JS.
(* ===================================================================== *)
(** * Nearest-annotation resolver (ShiftHoverManager.findClosestAnnotationToOffset) *)
(* ===================================================================== *)

Module Resolver.
Import JS.

(** The target [{ left?: number; top?: number }]. *)
Record Offset := mkOffset { o_left : option number; o_top : option number }.

(** What the resolver reads of a pdf.js annotation: [id], [subtype] and
    [rect].  [rect = None] stands for a rect that is missing or is not an
    array; otherwise the array's components are listed. *)
Record AnnotationData := mkAnnot {
  id : string;
  subtype : string;
  rect : option (list number)
}.

Record PageView := mkPageView { getAnnotations : list AnnotationData }.
Record PDFViewerChild := mkChild { getPage : number -> option PageView }.

(** Elements of the [candidates] array. *)
Record Candidate := mkCandidate {
  c_id : string;
  c_distance : number;
  c_isTextMarkup : bool;
  c_containsPoint : bool;
  c_subtype : string
}.

(** Elements of the [textAnnotationCandidates] array. *)
Record TextCandidate := mkTextCandidate {
  t_id : string;
  t_distance : number;
  t_containsPoint : bool
}.

Definition textMarkupSubtypes : list string :=
  ["Highlight"; "Underline"; "Squiggly"; "StrikeOut"].

Open Scope float_scope.

(** The body of the loop between the destructuring of [annot.rect] and
    the subtype test: it leaves [distance] and [containsPoint]. *)
Definition measure (left bottom right top : number) (offset : Offset)
  : number * bool :=
  let centerX := (left + right) / 2 in
  let centerY := (top + bottom) / 2 in
  let distance := infinity in
  let containsPoint := false in
  match o_left offset, o_top offset with
  | Some oleft, Some otop =>
      if geb oleft left && (oleft <=? right) && geb otop bottom && (otop <=? top)
      then (0, true)
      else
        let dx := oleft - centerX in
        let dy := otop - centerY in
        (sqrt (dx * dx + dy * dy), containsPoint)
  | _, Some otop => (abs (otop - centerY), containsPoint)
  | Some oleft, None => (abs (oleft - centerX), containsPoint)
  | None, None => (distance, containsPoint)
  end.

(** One iteration of [for (const annot of annotations)], on the pair of
    arrays [(candidates, textAnnotationCandidates)]. *)
Definition visit (offset : Offset)
    (acc : list Candidate * list TextCandidate) (annot : AnnotationData)
  : list Candidate * list TextCandidate :=
  match rect annot with
  | Some (left' :: bottom' :: right' :: top' :: _) =>
      let isTextMarkup := includes textMarkupSubtypes (subtype annot) in
      let '(distance, containsPoint) := measure left' bottom' right' top' offset in
      if String.eqb (subtype annot) "Text"
      then (fst acc,
            (snd acc ++ [mkTextCandidate (id annot) distance containsPoint])%list)
      else ((fst acc ++ [mkCandidate (id annot) distance isTextMarkup containsPoint
                                     (subtype annot)])%list,
            snd acc)
  | _ => acc
  end.

(** The [(distance, containsPoint)] pairs of the records held by the two
    arrays. *)
Definition metrics (acc : list Candidate * list TextCandidate) : list (number * bool) :=
  (map (fun c => (c_distance c, c_containsPoint c)) (fst acc)
   ++ map (fun c => (t_distance c, t_containsPoint c)) (snd acc))%list.

(** Comparator of [textAnnotationCandidates.sort]. *)
Definition compareText (a b : TextCandidate) : number :=
  if negb (Bool.eqb (t_containsPoint a) (t_containsPoint b))
  then (if t_containsPoint a then -1 else 1)
  else t_distance a - t_distance b.

(** Comparator of [candidates.sort]. *)
Definition compareCandidates (a b : Candidate) : number :=
  if negb (Bool.eqb (c_containsPoint a) (c_containsPoint b))
  then (if c_containsPoint a then -1 else 1)
  else if negb (Bool.eqb (c_isTextMarkup a) (c_isTextMarkup b))
  then (if c_isTextMarkup a then -1 else 1)
  else c_distance a - c_distance b.

Close Scope float_scope.

(** The function from [getAnnotations()] on. *)
Definition closestAmong (annotations : list AnnotationData) (offset : Offset)
  : option string :=
  if (length annotations =? 0)%nat then None
  else
    let '(candidates, textAnnotationCandidates) :=
      fold_left (visit offset) annotations ([], []) in
    if (length candidates =? 0)%nat then
      if (length textAnnotationCandidates =? 0)%nat then None
      else
        match Array_sort compareText textAnnotationCandidates with
        | closest :: _ => Some (t_id closest)
        | [] => None
        end
    else
      match Array_sort compareCandidates candidates with
      | closest :: _ => Some (c_id closest)
      | [] => None
      end.

Definition findClosestAnnotationToOffset
    (child : PDFViewerChild) (page : number) (offset : Offset) : option string :=
  match getPage child page with
  | None => None
  | Some pageView => closestAmong (getAnnotations pageView) offset
  end.

(** ** The resolution algorithm as the specification words it

    These definitions follow the specification's four steps and its edge
    case; they are compared with [closestAmong] in [ResolverFacts]. *)
Module Spec.

(** The four components [left, bottom, right, top] of a candidate's rect,
    when the rect is valid, i.e. when they can be read from it. *)
Definition validRect (a : AnnotationData) : option (number * number * number * number) :=
  match rect a with
  | Some (l :: b :: r :: t :: _) => Some (l, b, r, t)
  | _ => None
  end.

(** Note-like candidates are the sticky notes (pdf.js subtype [Text]);
    every other subtype is markup-like. *)
Definition isStickyNote (a : AnnotationData) : bool := String.eqb (subtype a) "Text".

Definition isTextMarkupSubtype (a : AnnotationData) : bool :=
  String.eqb (subtype a) "Highlight" || String.eqb (subtype a) "Underline"
  || String.eqb (subtype a) "Squiggly" || String.eqb (subtype a) "StrikeOut".

(** [x <= y] on doubles, as a proposition. *)
Definition le (x y : number) : Prop := (x <=? y)%float = true.

(** The point [(x, y)] lies within the rect, edges included. *)
Definition within (l b r t x y : number) : Prop :=
  le l x /\ le x r /\ le b y /\ le y t.

Definition withinb (l b r t x y : number) : bool :=
  ((l <=? x) && (x <=? r) && (b <=? y) && (y <=? t))%float.

Definition centerX (l r : number) : number := ((l + r) / 2)%float.
Definition centerY (b t : number) : number := ((t + b) / 2)%float.

(** Euclidean distance from [(x, y)] to [(cx, cy)]. *)
Definition euclidean (x y cx cy : number) : number :=
  sqrt ((x - cx) * (x - cx) + (y - cy) * (y - cy))%float.

Definition containsPoint (q : number * number * number * number) (target : Offset) : bool :=
  let '(l, b, r, t) := q in
  match o_left target, o_top target with
  | Some x, Some y => withinb l b r t x y
  | _, _ => false
  end.

Definition distance (q : number * number * number * number) (target : Offset) : number :=
  let '(l, b, r, t) := q in
  if containsPoint q target then 0%float
  else
    match o_left target, o_top target with
    | Some x, Some y => euclidean x y (centerX l r) (centerY b t)
    | Some x, None => abs (x - centerX l r)%float
    | None, Some y => abs (y - centerY b t)%float
    | None, None => infinity
    end.

(** The sort key, and its lexicographic order: [containsPoint]
    descending, [isTextMarkupSubtype] descending, [distance] ascending. *)
Record Key := mkKey { k_containsPoint : bool; k_isTextMarkup : bool; k_distance : number }.

Definition descending (x y : bool) : comparison :=
  match x, y with
  | true, false => Lt
  | false, true => Gt
  | _, _ => Eq
  end.

Definition ascending (x y : number) : comparison :=
  if (x <? y)%float then Lt else if (y <? x)%float then Gt else Eq.

Definition lexicographic (c1 c2 : comparison) : comparison :=
  match c1 with Eq => c2 | _ => c1 end.

Definition compareKeys (k1 k2 : Key) : comparison :=
  lexicographic (descending (k_containsPoint k1) (k_containsPoint k2))
    (lexicographic (descending (k_isTextMarkup k1) (k_isTextMarkup k2))
       (ascending (k_distance k1) (k_distance k2))).

(** A candidate with a valid rect, paired with that rect. *)
Definition Scored : Type := AnnotationData * (number * number * number * number).

Definition withValidRect (candidates : list AnnotationData) : list Scored :=
  omap (fun a => match validRect a with Some q => Some (a, q) | None => None end) candidates.

Definition key (target : Offset) (c : Scored) : Key :=
  mkKey (containsPoint (snd c) target) (isTextMarkupSubtype (fst c)) (distance (snd c) target).

Definition resolve (candidates : list AnnotationData) (target : Offset) : option string :=
  let valid := withValidRect candidates in
  let markupLike := List.filter (fun c => negb (isStickyNote (fst c))) valid in
  let noteLike := List.filter (fun c => isStickyNote (fst c)) valid in
  let chosen := match markupLike with [] => noteLike | _ :: _ => markupLike end in
  match stable_sort (fun c1 c2 => compareKeys (key target c1) (key target c2)) chosen with
  | [] => None
  | first :: _ => Some (id (fst first))
  end.

End Spec.

(** ** The testable property "containment beats distance", as stated

    A sticky note that contains the target point is returned even though
    a text-markup candidate, which does not contain the point, has its
    center closer to the target. *)
Definition centerDistance (q : number * number * number * number) (x y : number) : number :=
  let '(l, b, r, t) := q in
  Spec.euclidean x y (Spec.centerX l r) (Spec.centerY b t).

Definition containment_beats_distance : Prop :=
  forall (annotations : list AnnotationData) (x y : number)
         (note markup : AnnotationData) qn qm,
    In note annotations -> In markup annotations ->
    Spec.isStickyNote note = true -> Spec.validRect note = Some qn ->
    Spec.isTextMarkupSubtype markup = true -> Spec.validRect markup = Some qm ->
    Spec.containsPoint qn (mkOffset (Some x) (Some y)) = true ->
    Spec.containsPoint qm (mkOffset (Some x) (Some y)) = false ->
    (centerDistance qm x y <? centerDistance qn x y)%float = true ->
    closestAmong annotations (mkOffset (Some x) (Some y)) = Some (id note).

End Resolver.

(* ===================================================================== *)
(** * Destination decoding and link resolution
      (ShiftHoverManager.resolveInternalLink, resolveWikilink) *)
(* ===================================================================== *)

Module Links.
Import JS.

Record TFile := mkTFile { path : string }.

(** [{ left: number; bottom: number; right: number; top: number }] *)
Record Rect := mkRect {
  r_left : number;
  r_bottom : number;
  r_right : number;
  r_top : number
}.

(** The resolved target
    [{ file, page, annotationId?, offset?, rect? }]. *)
Record Target := mkTarget {
  file : TFile;
  page : number;
  annotationId : option string;
  offset : option Resolver.Offset;
  rect : option Rect
}.

Definition notAmpersand (c : ascii) : bool := negb (Ascii.eqb c "&").

(** [leftStr && leftStr !== '' ? parseFloat(leftStr) : undefined] *)
Definition parseComponent (str : option string) : option number :=
  match str with
  | Some s => if negb (String.eqb s "") then Some (parseFloat s) else None
  | None => None
  end.

(** [x !== undefined && !isNaN(x)] *)
Definition isNumber (x : option number) : bool :=
  match x with
  | Some n => negb (isNaN n)
  | None => false
  end.

(** The block "Parse offset: offset=left,top,zoom or offset=,top,", which
    [resolveInternalLink] and [resolveWikilink] both contain verbatim; its
    argument is [offsetMatch], already reduced to the capture
    [offsetMatch[1]]. *)
Definition parseOffset (offsetMatch : option string) : option Resolver.Offset :=
  match offsetMatch with
  | Some capture =>
      let offsetParts := split capture "," in
      let leftStr := option_map trim (nth_error offsetParts 0) in
      let topStr := option_map trim (nth_error offsetParts 1) in
      let left := parseComponent leftStr in
      let top := parseComponent topStr in
      if isNumber left || isNumber top then
        Some (Resolver.mkOffset (if isNumber left then left else None)
                                (if isNumber top then top else None))
      else None
  | None => None
  end.

(** The block "Parse rect: rect=left,bottom,right,top", likewise shared
    by the two functions. *)
Definition parseRect (rectMatch : option string) : option Rect :=
  match rectMatch with
  | Some capture =>
      let rectParts := map (fun s => parseFloat (trim s)) (split capture ",") in
      if (length rectParts =? 4)%nat && forallb (fun n => negb (isNaN n)) rectParts then
        match rectParts with
        | [p0; p1; p2; p3] => Some (mkRect p0 p1 p2 p3)
        | _ => None
        end
      else None
  | None => None
  end.

Section Collaborators.

(** The pdf.js destination and document handed to the library call
    [lib.pdfJsDestArrayToSubpath], which yields a subpath or [null]. *)
Context {Dest Doc : Type}.
Variable pdfJsDestArrayToSubpath : Dest -> Doc -> Completion (option string).

(** [app.metadataCache.getFirstLinkpathDest(linkpath, sourcePath)] *)
Variable getFirstLinkpathDest : string -> string -> Completion (option TFile).

(** The body of [resolveInternalLink] once the subpath is known, i.e. the
    decoding of a destination token. *)
Definition decodeSubpath (subpath : string) (sourceFile : TFile) : option Target :=
  let pageMatch := matchAfter "#page=" isDigit subpath in
  let annotMatch := matchAfter "annotation=" notAmpersand subpath in
  let offsetMatch := matchAfter "offset=" notAmpersand subpath in
  let rectMatch := matchAfter "rect=" notAmpersand subpath in
  match pageMatch with
  | None => None
  | Some digits =>
      let page := parseIntDigits digits in
      let annotationId := annotMatch in
      let offset := parseOffset offsetMatch in
      let rect := parseRect rectMatch in
      Some (mkTarget sourceFile page annotationId offset rect)
  end.

Definition resolveInternalLink (dest : Dest) (doc : Doc) (sourceFile : TFile)
  : Completion (option Target) :=
  tryCatch
    (bind (pdfJsDestArrayToSubpath dest doc) (fun subpath =>
       match subpath with
       | None => Normal None
       | Some "" => Normal None
       | Some subpath => Normal (decodeSubpath subpath sourceFile)
       end))
    (fun err => Normal None).

(** The text between the brackets. *)
Definition linktextOf (url : string) : string :=
  let isEmbed := startsWith url "![[" in
  let startSlice := if isEmbed then 3%Z else 2%Z in
  slice url startSlice (-2).

(** [filePath] and [subpath] of "Split into path and subpath". *)
Definition filePathOf (linktext : string) : string :=
  let hashIndex := indexOf linktext "#" in
  if (0 <? hashIndex)%Z then slice linktext 0 hashIndex else linktext.

Definition subpathOf (linktext : string) : string :=
  let hashIndex := indexOf linktext "#" in
  if (0 <? hashIndex)%Z then sliceFrom linktext hashIndex else "".

Definition resolveWikilink (url : string) (sourceFile : TFile)
  : Completion (option Target) :=
  tryCatch
    (let linktext := linktextOf url in
     let filePath := filePathOf linktext in
     let subpath := subpathOf linktext in
     bind (getFirstLinkpathDest filePath (path sourceFile)) (fun file =>
       match file with
       | None => Normal None
       | Some file =>
           let pageMatch := matchAfter "page=" isDigit subpath in
           let annotMatch := matchAfter "annotation=" notAmpersand subpath in
           let offsetMatch := matchAfter "offset=" notAmpersand subpath in
           let rectMatch := matchAfter "rect=" notAmpersand subpath in
           let page :=
             match pageMatch with
             | Some digits => parseIntDigits digits
             | None => 1%float
             end in
           let annotationId := annotMatch in
           let offset := parseOffset offsetMatch in
           let rect := parseRect rectMatch in
           Normal (Some (mkTarget file page annotationId offset rect))
       end))
    (fun err => Normal None).

End Collaborators.

(** ** The destination codec and the wikilink resolver as specified *)
Module Spec.

(** A token is [#] followed by [key=value] pairs joined by [&]. *)
Definition pairOf (kv : string) : string * string :=
  let i := indexOf kv "=" in
  if (i <? 0)%Z then (kv, "") else (slice kv 0 i, sliceFrom kv (i + 1)).

Definition pairsOf (token : string) : list (string * string) :=
  match token with
  | String "#" rest => map pairOf (split rest "&")
  | _ => []
  end.

(** The value of the first pair with the given key. *)
Definition valueOf (key : string) (token : string) : option string :=
  match List.filter (fun kv => String.eqb (fst kv) key) (pairsOf token) with
  | kv :: _ => Some (snd kv)
  | [] => None
  end.

Definition knownKeys : list string := ["page"; "annotation"; "offset"; "rect"].

Definition isNumeric (component : string) : bool :=
  negb (isNaN (parseFloat (trim component))).

(** A [rect] value is well formed when it has exactly four numeric
    components. *)
Definition wellFormedRect (value : string) : bool :=
  let parts := split value "," in
  (length parts =? 4)%nat && forallb isNumeric parts.

(** An [offset] value is well formed when it has exactly three
    components [left,top,zoom], each empty or numeric. *)
Definition wellFormedOffset (value : string) : bool :=
  let parts := split value "," in
  (length parts =? 3)%nat
  && forallb (fun c => String.eqb (trim c) "" || isNumeric c) parts.

Definition allDigits (s : string) : bool :=
  negb (String.eqb s "") && String.eqb (takeWhile isDigit s) s.

(** Decode tolerance, as stated: the decode fails only for want of a
    [page] key; a malformed [offset] or [rect] value makes that field
    absent; pairs with unknown keys are ignored. *)
Definition decode_tolerant : Prop :=
  forall (token : string) (sourceFile : TFile),
    (valueOf "page" token = None ->
     decodeSubpath token sourceFile = None) /\
    (forall digits, valueOf "page" token = Some digits -> allDigits digits = true ->
     decodeSubpath token sourceFile <> None) /\
    (forall target value,
       decodeSubpath token sourceFile = Some target ->
       valueOf "offset" token = Some value -> wellFormedOffset value = false ->
       offset target = None) /\
    (forall target value,
       decodeSubpath token sourceFile = Some target ->
       valueOf "rect" token = Some value -> wellFormedRect value = false ->
       rect target = None) /\
    (forall key value,
       existsb (String.eqb key) knownKeys = false ->
       indexOf key "=" = (-1)%Z -> indexOf key "&" = (-1)%Z ->
       indexOf value "&" = (-1)%Z ->
       decodeSubpath (token ++ "&" ++ key ++ "=" ++ value) sourceFile =
       decodeSubpath token sourceFile).

(** [pattern] occurs somewhere in [s]. *)
Fixpoint occurs (pattern s : string) : bool :=
  String.prefix pattern s
  || match s with
     | String _ s' => occurs pattern s'
     | "" => false
     end.

(** The [i]-th comma-separated component of an [offset] value, as a
    number: undefined when the component is missing, empty or not
    numeric. *)
Definition component (value : string) (i : nat) : option number :=
  match nth_error (split value ",") i with
  | Some c =>
      if negb (String.eqb (trim c) "") && isNumeric c
      then Some (parseFloat (trim c))
      else None
  | None => None
  end.

(** A wikilink [[[text]]], or [![[text]]] for an embed. *)
Definition wikilink (embed : bool) (text : string) : string :=
  (if embed then "![[" else "[[") ++ text ++ "]]".

(** Splitting at the first [#]: the path is what precedes it, the
    subpath starts with it; without a [#] the subpath is empty. *)
Definition splitAtFirstHash (text : string) : string * string :=
  let i := indexOf text "#" in
  if (i <? 0)%Z then (text, "") else (slice text 0 i, sliceFrom text i).

(** Decoding a wikilink's subpath: the fields of the destination codec,
    with the page defaulting to [defaultPage]. *)
Definition decodeWithDefault (defaultPage : number) (subpath : string) (file : TFile)
  : Target :=
  mkTarget file
    (match matchAfter "page=" isDigit subpath with
     | Some digits => parseIntDigits digits
     | None => defaultPage
     end)
    (matchAfter "annotation=" notAmpersand subpath)
    (parseOffset (matchAfter "offset=" notAmpersand subpath))
    (parseRect (matchAfter "rect=" notAmpersand subpath)).

(** What resolving the link text amounts to once it is split. *)
Definition resolveSplit (getFirstLinkpathDest : string -> string -> Completion (option TFile))
    (split : string * string) (sourceFile : TFile) : Completion (option Target) :=
  match getFirstLinkpathDest (fst split) (path sourceFile) with
  | Normal (Some file) => Normal (Some (decodeWithDefault 1%float (snd split) file))
  | _ => Normal None
  end.

(** Wikilink resolution, as stated: for every wikilink the bracketed text
    is split at its first [#]. *)
Definition wikilink_resolution : Prop :=
  forall (getFirstLinkpathDest : string -> string -> Completion (option TFile))
         (embed : bool) (text : string) (sourceFile : TFile),
    resolveWikilink getFirstLinkpathDest (wikilink embed text) sourceFile =
    resolveSplit getFirstLinkpathDest (splitAtFirstHash text) sourceFile.

End Spec.

End Links.

(* ===================================================================== *)
(** * Annotation creation pipeline (AnnotationWriteFileLib) and
      post-processor registration (PDFExternalLinkPostProcessor) *)
(* ===================================================================== *)

Module Pipeline.
Import JS.

(** A reference to a DOM element; its [dataset] lives in the world. *)
Definition ElementRef := nat.

(** What the pipeline leaves behind that a caller can observe. *)
Inductive Event (Rect : Type) :=
| AnnotatorCalled (file : Links.TFile) (page : number) (rects : list Rect)
| NoticeShown (message : string)
| RegisterEventsCalled (annotationId : string)
| ProcessorAdded (annotationId : string).
Arguments AnnotatorCalled {Rect} file page rects.
Arguments NoticeShown {Rect} message.
Arguments RegisterEventsCalled {Rect} annotationId.
Arguments ProcessorAdded {Rect} annotationId.

(** [annot.data.url], [annot.data.unsafeUrl], [action.URI]: undefined, a
    string, or an object. *)
Inductive JsValue :=
| Undefined
| Str (s : string)
| Obj (str : option string).

Definition truthy (v : JsValue) : bool :=
  match v with
  | Undefined => false
  | Str s => negb (String.eqb s "")
  | Obj _ => true
  end.

(** [a || b] *)
Definition or_else (a b : JsValue) : JsValue := if truthy a then a else b.

Record AnnotationData := mkData {
  d_id : string;
  d_subtype : string;
  d_url : JsValue;
  d_unsafeUrl : JsValue;
  (** [annot.data.A]: absent, or an action object with its [URI]. *)
  d_A : option JsValue
}.

Record AnnotationElement := mkAnnotationElement {
  container : ElementRef;
  data : AnnotationData
}.

Record AnnotationLayer := mkLayer {
  layer_div : option ElementRef;
  (** [annotationLayer.getAnnotation(id)] *)
  getAnnotation : gmap string AnnotationElement
}.

(** [DestArray | string] *)
Inductive Destination (DestArray : Type) :=
| DestExplicit (dest : DestArray)
| DestString (dest : string).
Arguments DestExplicit {DestArray} dest.
Arguments DestString {DestArray} dest.

Section Host.

(** Host objects the pipeline only passes around. *)
Context {Host TextLayer TextLayerInfo MergedRect Rect DestArray Selection : Type}.

Record PageView := mkPageView {
  div : ElementRef;
  textLayer : option TextLayer;
  annotationLayer : option AnnotationLayer
}.

Record PDFViewerChild := mkChild {
  file : option Links.TFile;
  pagesCount : number;
  getPage : number -> option PageView;
  (** whether [child.component] exists *)
  component : bool
}.

(** The world: the host's own state (the document on disk, the viewer),
    the datasets of the DOM elements, and the trace of observable
    events. *)
Record World := mkWorld {
  host : Host;
  datasets : gmap ElementRef (gmap string string);
  trace : list (Event Rect)
}.

(** Computations: they read and change the world and may throw. *)
Definition M (A : Type) : Type := World -> Completion A * World.

Definition ret {A} (a : A) : M A := fun w => (Normal a, w).

Definition mbind {A B} (m : M A) (k : A -> M B) : M B :=
  fun w =>
    match m w with
    | (Normal a, w') => k a w'
    | (Throw e, w') => (Throw e, w')
    end.

(** [try { body } catch (e) { handler }] *)
Definition try_catch {A} (body : M A) (handler : Error -> M A) : M A :=
  fun w =>
    match body w with
    | (Normal a, w') => (Normal a, w')
    | (Throw e, w') => handler e w'
    end.

Definition emit (ev : Event Rect) : M unit :=
  fun w => (Normal tt, mkWorld (host w) (datasets w) (trace w ++ [ev])).

(** A call into the host (an asynchronous collaborator): it works on the
    host's state only. *)
Definition call {A} (f : Host -> Completion A * Host) : M A :=
  fun w =>
    let '(r, h) := f (host w) in
    (r, mkWorld h (datasets w) (trace w)).

(** [el.dataset[key]] *)
Definition readDataset (el : ElementRef) (key : string) : M (option string) :=
  fun w => (Normal (datasets w !! el ≫= fun d => d !! key), w).

(** [el.dataset[key] = value] *)
Definition writeDataset (el : ElementRef) (key value : string) : M unit :=
  fun w =>
    let d := default ∅ (datasets w !! el) in
    (Normal tt, mkWorld (host w) (<[el := <[key := value]> d]> (datasets w)) (trace w)).

Notation "'let*' x ':=' m 'in' k" := (mbind m (fun x => k))
  (at level 10, x binder, k at level 200).

(** [type Annotator = (file, page, rects) => Promise<string>] *)
Definition Annotator : Type :=
  Links.TFile -> number -> list Rect -> Host -> Completion string * Host.

(** The collaborators. *)
Variable manifestName : string.
Variable getTextLayerInfo : TextLayer -> option TextLayerInfo.
Variable computeMergedHighlightRects :
  TextLayerInfo -> number -> number -> number -> number -> list MergedRect.
Variable rectOf : MergedRect -> Rect.
(** [io.addLinkAnnotation(file, page, rects, dest, colorName, contents)] *)
Variable io_addLinkAnnotation :
  Links.TFile -> number -> list Rect -> Destination DestArray ->
  option string -> option string -> Host -> Completion string * Host.
(** [lib.copyLink.getPageAndTextRangeFromSelection(selection)]: the page
    and, when there is one, the text range
    [(beginIndex, beginOffset, endIndex, endOffset)]. *)
Variable getPageAndTextRangeFromSelection :
  Selection -> option (number * option (number * number * number * number)).
Variable getPDFViewerChildFromSelection : Selection -> option PDFViewerChild.

(** The value [{ annotationID, rects }] of [addAnnotationToTextRange]. *)
Record TextRangeResult := mkTextRangeResult {
  annotationID : option string;
  rects : list Rect
}.

(** [addAnnotationToTextRange]; [None] is [undefined]. *)
Definition addAnnotationToTextRange (annotator : Annotator) (child : PDFViewerChild)
    (pageNumber beginIndex beginOffset endIndex endOffset : number)
  : M (option TextRangeResult) :=
  match file child with
  | None => ret None
  | Some childFile =>
      if ((1 <=? pageNumber) && (pageNumber <=? pagesCount child))%float then
        match getPage child pageNumber with
        | Some pageView =>
            let* loaded := readDataset (div pageView) "loaded" in
            match textLayer pageView, loaded with
            | Some layer, Some (String _ _) =>
                match getTextLayerInfo layer with
                | Some textLayerInfo =>
                    let results :=
                      computeMergedHighlightRects textLayerInfo
                        beginIndex beginOffset endIndex endOffset in
                    let rects := map rectOf results in
                    let* annotationID :=
                      try_catch
                        (let* _ := emit (AnnotatorCalled childFile pageNumber rects) in
                         let* id := call (annotator childFile pageNumber rects) in
                         ret (Some id))
                        (fun e =>
                           let* _ :=
                             emit (NoticeShown
                                     (manifestName ++
                                      ": An error occurred while attemping to add an annotation.")) in
                           ret None) in
                    ret (Some (mkTextRangeResult annotationID rects))
                | None => ret None
                end
            | _, _ => ret None
            end
        | None => ret None
        end
      else ret None
  end.

(** The value of [addAnnotationToSelection]:
    [{ child, file: child.file, page, ...textRangeResult }]. *)
Record SelectionResult := mkSelectionResult {
  res_child : PDFViewerChild;
  res_file : option Links.TFile;
  res_page : number;
  res_annotationID : option string;
  res_rects : option (list Rect)
}.

(** [addAnnotationToSelection]; the argument is
    [activeWindow.getSelection()]. *)
Definition addAnnotationToSelection (annotator : Annotator)
    (windowSelection : option Selection) : M (option SelectionResult) :=
  match windowSelection with
  | None => ret None
  | Some windowSelection =>
      match getPageAndTextRangeFromSelection windowSelection with
      | Some (page, Some (beginIndex, beginOffset, endIndex, endOffset)) =>
          match getPDFViewerChildFromSelection windowSelection with
          | None => ret None
          | Some child =>
              let* textRangeResult :=
                addAnnotationToTextRange annotator child page
                  beginIndex beginOffset endIndex endOffset in
              ret (Some (mkSelectionResult child (file child) page
                           (textRangeResult ≫= annotationID)
                           (rects <$> textRangeResult)))
          end
      | _ => ret None
      end
  end.

(** [PDFExternalLinkPostProcessor.registerEvents(plugin, child, annot)];
    the result tells whether a processor was created. *)
Definition registerEvents (child : PDFViewerChild) (annot : AnnotationElement) : M bool :=
  let* _ := emit (RegisterEventsCalled (d_id (data annot))) in
  let url := or_else (d_url (data annot)) (d_unsafeUrl (data annot)) in
  let url :=
    match d_A (data annot) with
    | Some uri =>
        if negb (truthy url) && truthy uri then
          match uri with
          | Str s => Str s
          | Obj (Some s) => if negb (String.eqb s "") then Str s else uri
          | _ => uri
          end
        else url
    | None => url
    end in
  if String.eqb (d_subtype (data annot)) "Link" && truthy url then
    if component child then
      let* _ := emit (ProcessorAdded (d_id (data annot))) in ret true
    else ret false
  else ret false.

(** [registerPostProcessorForNewAnnotation] *)
Definition registerPostProcessorForNewAnnotation (child : PDFViewerChild)
    (pageNumber : number) (annotationID : option string) (dest : Destination DestArray)
  : M unit :=
  match annotationID, dest with
  | Some (String _ _ as annotationID), DestString dest =>
      if negb (startsWith dest "[[") then ret tt
      else
        match getPage child pageNumber with
        | Some {| annotationLayer := Some {| layer_div := Some _; getAnnotation := annotations |} |} =>
            match annotations !! annotationID with
            | Some annot =>
                let* marker := readDataset (container annot) "pdfPlusIsAnnotationPostProcessed" in
                if negb (bool_decide (marker = Some "true")) then
                  let* _ := registerEvents child annot in ret tt
                else ret tt
            | None => ret tt
            end
        | _ => ret tt
        end
  | _, _ => ret tt
  end.

(** [addLinkAnnotationToSelection] *)
Definition addLinkAnnotationToSelection (dest : Destination DestArray)
    (contents : option string) (windowSelection : option Selection)
  : M (option SelectionResult) :=
  let* result :=
    addAnnotationToSelection
      (fun file page rects => io_addLinkAnnotation file page rects dest None contents)
      windowSelection in
  match result with
  | Some r =>
      match res_annotationID r with
      | Some (String _ _) =>
          let* _ :=
            registerPostProcessorForNewAnnotation (res_child r) (res_page r)
              (res_annotationID r) dest in
          ret result
      | _ => ret result
      end
  | None => ret result
  end.

(** Modelled from the spec: the deferred registration, run when the
    render surface reports that the annotation layer is ready (the
    [annotationlayerrendered] handler, which is not among the sources
    embedded here).  It looks the annotation up in the live layer,
    observes the per-element marker and skips when it is set; otherwise it
    registers and sets the marker. *)
Definition deferredRegistration (child : PDFViewerChild) (pageNumber : number)
    (annotationID : string) : M unit :=
  match getPage child pageNumber with
  | Some {| annotationLayer := Some {| getAnnotation := annotations |} |} =>
      match annotations !! annotationID with
      | Some annot =>
          let* marker := readDataset (container annot) "pdfPlusIsAnnotationPostProcessed" in
          if bool_decide (marker = Some "true") then ret tt
          else
            let* _ := registerEvents child annot in
            writeDataset (container annot) "pdfPlusIsAnnotationPostProcessed" "true"
      | None => ret tt
      end
  | _ => ret tt
  end.

(** The registrations in a trace. *)
Definition registrations (annotationId : string) (t : list (Event Rect)) : nat :=
  length (List.filter
            (fun ev => match ev with
                       | RegisterEventsCalled i => String.eqb i annotationId
                       | _ => false
                       end) t).

Definition annotatorCalls (t : list (Event Rect))
  : list (Links.TFile * number * list Rect) :=
  omap (fun ev => match ev with
                  | AnnotatorCalled f p r => Some (f, p, r)
                  | _ => None
                  end) t.

(** ** Failure of the rectangle computation *)

Definition pageOutOfBounds (child : PDFViewerChild) (pageNumber : number) : Prop :=
  ((1 <=? pageNumber) && (pageNumber <=? pagesCount child))%float = false.

(** The page has no view, or its view has no text layer, or the view is
    not marked as loaded. *)
Definition textLayerNotLoaded (child : PDFViewerChild) (pageNumber : number) (w : World)
  : Prop :=
  forall pageView, getPage child pageNumber = Some pageView ->
    textLayer pageView = None \/
    (datasets w !! div pageView ≫= fun d => d !! "loaded") = None \/
    (datasets w !! div pageView ≫= fun d => d !! "loaded") = Some "".

Definition noTextLayerInfo (child : PDFViewerChild) (pageNumber : number) : Prop :=
  forall pageView layer, getPage child pageNumber = Some pageView ->
    textLayer pageView = Some layer -> getTextLayerInfo layer = None.

(** ** Surfacing a persistence error, as stated

    When the mutation interface's creation call fails, the pipeline's
    caller receives that error, and nothing is registered. *)
Definition creation_error_surfaces : Prop :=
  forall (dest : Destination DestArray) (contents : option string)
         (windowSelection : option Selection) (w : World) (e : Error),
    (forall file page rects h,
        io_addLinkAnnotation file page rects dest None contents h = (Throw e, h)) ->
    annotatorCalls (trace (snd (addLinkAnnotationToSelection dest contents windowSelection w)))
    <> annotatorCalls (trace w) ->
    fst (addLinkAnnotationToSelection dest contents windowSelection w) = Throw e.

End Host.

End Pipeline.

(* ===================================================================== *)
(** * Highlight tracking (ShiftHoverManager) *)
(* ===================================================================== *)

Module Hover.
Import JS.

Definition ElementRef := nat.

(** A value assigned to a style property: a length [`${n}px`] or a
    literal. *)
Inductive StyleValue :=
| Px (n : number)
| Literal (s : string).

(** A DOM element: the element it is attached to, its class list, its
    [data-annotation-id] attribute and its inline style. *)
Record Element := mkElement {
  parent : option ElementRef;
  classes : gset string;
  annotationIdAttr : option string;
  style : gmap string StyleValue
}.

Section Viewer.

(** The page's viewport, with [viewport.convertToViewportPoint(x, y)],
    and the computed style of an element. *)
Context {Viewport : Type}.
Variable convertToViewportPoint : Viewport -> number -> number -> number * number.
Variable getComputedStyle : ElementRef -> gmap string string.

Record PageView := mkPageView {
  div : ElementRef;
  (** [annotationLayer?.div] *)
  annotationLayerDiv : option ElementRef;
  viewport : Viewport
}.

Record PDFViewerChild := mkChild { getPage : number -> option PageView }.

(** The manager's fields together with the document it acts on. *)
Record State := mkState {
  document : gmap ElementRef Element;
  isShiftPressed : bool;
  currentHighlight : option (ElementRef * PDFViewerChild)
}.

Definition update (el : ElementRef) (f : Element -> Element) (d : gmap ElementRef Element)
  : gmap ElementRef Element :=
  match d !! el with
  | Some e => <[el := f e]> d
  | None => d
  end.

(** [el.addClass(cls)], [el.removeClass(cls)], [el.remove()] *)
Definition addClass (cls : string) (e : Element) : Element :=
  mkElement (parent e) (classes e ∪ {[ cls ]}) (annotationIdAttr e) (style e).

Definition removeClass (cls : string) (e : Element) : Element :=
  mkElement (parent e) (classes e ∖ {[ cls ]}) (annotationIdAttr e) (style e).

Definition remove (e : Element) : Element :=
  mkElement None (classes e) (annotationIdAttr e) (style e).

(** [el.style[prop] = value] *)
Definition setStyle (prop : string) (value : StyleValue) (e : Element) : Element :=
  mkElement (parent e) (classes e) (annotationIdAttr e) (<[prop := value]> (style e)).

(** [layer.querySelector('[data-annotation-id="<id>"]')]: an element
    attached to the layer that carries the attribute. *)
Definition querySelector (d : gmap ElementRef Element) (layer : ElementRef)
    (annotationId : string) : option ElementRef :=
  (fun found => fst (snd found)) <$>
    list_find
      (fun entry => bool_decide (parent (snd entry) = Some layer /\
                                 annotationIdAttr (snd entry) = Some annotationId))
      (map_to_list d).

(** [pageDiv.createDiv(cls)]: a new element of class [cls], attached to
    [pageDiv]. *)
Definition createDiv (d : gmap ElementRef Element) (pageDiv : ElementRef) (cls : string)
  : ElementRef * gmap ElementRef Element :=
  let el := fresh (dom d) in
  (el, <[el := mkElement (Some pageDiv) {[ cls ]} None ∅]> d).

(** [parseFloat(s) || 0] *)
Definition parseFloatOrZero (s : option string) : number :=
  match s with
  | Some s =>
      let v := parseFloat s in
      if isNaN v || (v =? 0)%float then 0%float else v
  | None => 0%float
  end.

Definition clearHighlight (st : State) : State :=
  match currentHighlight st with
  | Some (element, _) =>
      let d := update element (removeClass "shift-hover-target-highlight") (document st) in
      let d := update element remove d in
      mkState d (isShiftPressed st) None
  | None => st
  end.

Definition highlightAnnotation (child : PDFViewerChild) (page : number)
    (annotationId : string) (st : State) : State :=
  let st := clearHighlight st in
  match getPage child page with
  | Some {| annotationLayerDiv := Some annotLayerDiv |} =>
      match querySelector (document st) annotLayerDiv annotationId with
      | Some element =>
          mkState (update element (addClass "shift-hover-target-highlight") (document st))
            (isShiftPressed st) (Some (element, child))
      | None => st
      end
  | _ => st
  end.

Definition setStyles (el : ElementRef) (props : list (string * StyleValue))
    (d : gmap ElementRef Element) : gmap ElementRef Element :=
  fold_left (fun d p => update el (setStyle (fst p) (snd p)) d) props d.

Definition highlightLocation (child : PDFViewerChild) (page : number)
    (offset : option Resolver.Offset) (rect : option Links.Rect) (st : State) : State :=
  let st := clearHighlight st in
  match getPage child page with
  | None => st
  | Some pageView =>
      let pageDiv := div pageView in
      let '(highlightEl, d) := createDiv (document st) pageDiv "shift-hover-location-highlight" in
      let computed := getComputedStyle pageDiv in
      let borderLeft := parseFloatOrZero (computed !! "borderLeftWidth") in
      let paddingLeft := parseFloatOrZero (computed !! "paddingLeft") in
      let borderTop := parseFloatOrZero (computed !! "borderTopWidth") in
      let paddingTop := parseFloatOrZero (computed !! "paddingTop") in
      let d :=
        match rect, offset with
        | Some rect, _ =>
            let topLeft := convertToViewportPoint (viewport pageView)
                             (Links.r_left rect) (Links.r_top rect) in
            let bottomRight := convertToViewportPoint (viewport pageView)
                                 (Links.r_right rect) (Links.r_bottom rect) in
            let viewportLeft := fst topLeft in
            let viewportTop := snd topLeft in
            let viewportRight := fst bottomRight in
            let viewportBottom := snd bottomRight in
            let adjustedLeft := (viewportLeft + borderLeft + paddingLeft)%float in
            let adjustedTop := (viewportTop + borderTop + paddingTop)%float in
            let width := (viewportRight - viewportLeft)%float in
            let height := (viewportBottom - viewportTop)%float in
            setStyles highlightEl
              [("position", Literal "absolute"); ("left", Px adjustedLeft);
               ("top", Px adjustedTop); ("width", Px width); ("height", Px height);
               ("pointerEvents", Literal "none")] d
        | None, Some {| Resolver.o_left := Some oleft; Resolver.o_top := Some otop |} =>
            let viewportPoint := convertToViewportPoint (viewport pageView) oleft otop in
            let adjustedX := (fst viewportPoint + borderLeft + paddingLeft)%float in
            let adjustedY := (snd viewportPoint + borderTop + paddingTop)%float in
            let size := 40%float in
            setStyles highlightEl
              [("position", Literal "absolute"); ("left", Px adjustedX);
               ("top", Px adjustedY); ("width", Px size); ("height", Px size);
               ("transform", Literal "translate(-50%, -50%)");
               ("borderRadius", Literal "50%"); ("pointerEvents", Literal "none")] d
        | None, Some {| Resolver.o_top := Some otop |} =>
            let viewportPoint := convertToViewportPoint (viewport pageView) 0%float otop in
            let adjustedY := (snd viewportPoint + borderTop + paddingTop)%float in
            setStyles highlightEl
              [("position", Literal "absolute"); ("left", Literal "0");
               ("top", Px adjustedY); ("width", Literal "100%");
               ("height", Literal "3px"); ("pointerEvents", Literal "none")] d
        | None, _ => d
        end in
      mkState d (isShiftPressed st) (Some (highlightEl, child))
  end.

(** The [keydown] and [keyup] listeners installed by [onload]. *)
Definition onKeyDown (key : string) (st : State) : State :=
  if String.eqb key "Shift" && negb (isShiftPressed st)
  then mkState (document st) true (currentHighlight st)
  else st.

Definition onKeyUp (key : string) (st : State) : State :=
  if String.eqb key "Shift"
  then clearHighlight (mkState (document st) false (currentHighlight st))
  else st.

(** The operations a client of the manager can sequence. *)
Inductive Operation :=
| HighlightAnnotation (child : PDFViewerChild) (page : number) (annotationId : string)
| HighlightLocation (child : PDFViewerChild) (page : number)
    (offset : option Resolver.Offset) (rect : option Links.Rect)
| ClearHighlight
| KeyDown (key : string)
| KeyUp (key : string).

Definition perform (st : State) (op : Operation) : State :=
  match op with
  | HighlightAnnotation child page annotationId =>
      highlightAnnotation child page annotationId st
  | HighlightLocation child page offset rect =>
      highlightLocation child page offset rect st
  | ClearHighlight => clearHighlight st
  | KeyDown key => onKeyDown key st
  | KeyUp key => onKeyUp key st
  end.

Definition performAll (st : State) (ops : list Operation) : State :=
  fold_left perform ops st.

(** An element shows a highlight when it is attached and carries one of
    the two highlight classes. *)
Definition showsHighlight (e : Element) : Prop :=
  parent e <> None /\
  ("shift-hover-target-highlight" ∈ classes e \/
   "shift-hover-location-highlight" ∈ classes e).

(** The elements that show a highlight. *)
Definition activeHighlights (st : State) : list ElementRef :=
  fst <$> filter (fun entry => showsHighlight (snd entry)) (map_to_list (document st)).

(** Every highlight on display is the one the manager tracks. *)
Definition tracked (st : State) : Prop :=
  forall el e, document st !! el = Some e -> showsHighlight e ->
    exists child, currentHighlight st = Some (el, child).

End Viewer.

End Hover.

(* ===================================================================== *)
(** * More JavaScript string and array primitives *)
(* ===================================================================== *)

Module Text.
Import JS.

(** [s.endsWith(p)] *)
Definition endsWith (s p : string) : bool :=
  let n := String.length s in
  let m := String.length p in
  (m <=? n)%nat && String.eqb (drop (n - m) s) p.

(** [s.includes(p)]: [p] occurs somewhere in [s]. *)
Fixpoint includes (s p : string) : bool :=
  String.prefix p s
  || match s with
     | String _ s' => includes s' p
     | "" => false
     end.

(** [s.match(/<opening>(<class>+)<closing>/)] followed by [[1]], for a
    class that excludes the first character of [closing]: at a given
    place the run of class characters after [opening] can then only be
    the longest one, and the match is the leftmost place where that run is
    not empty and is followed by [closing]. *)
Fixpoint matchBetween (opening : string) (class : ascii -> bool) (closing : string)
    (s : string) : option string :=
  let here :=
    if String.prefix opening s
    then
      let rest := drop (String.length opening) s in
      match takeWhile class rest with
      | "" => None
      | run =>
          if String.prefix closing (drop (String.length run) rest)
          then Some run else None
      end
    else None in
  match here with
  | Some run => Some run
  | None =>
      match s with
      | "" => None
      | String _ s' => matchBetween opening class closing s'
      end
  end.

(** The array index a number stands for when it is used as a property
    key, [arr[n]]: the number has to be a non-negative integer ([-0]
    counts as [0]). *)
Definition arrayIndex (n : number) : option nat :=
  match Prim2SF n with
  | SpecFloat.S754_zero _ => Some 0%nat
  | SpecFloat.S754_finite false m e =>
      if (0 <=? e)%Z then Some (Z.to_nat (Zpos m * 2 ^ e))
      else if (Zpos m mod 2 ^ (- e) =? 0)%Z then Some (Z.to_nat (Zpos m / 2 ^ (- e)))
      else None
  | _ => None
  end.

(** [arr[n]] *)
Definition at_ {A} (arr : list A) (n : number) : option A :=
  match arrayIndex n with
  | Some i => nth_error arr i
  | None => None
  end.

End Text.

(* ===================================================================== *)
(** * The other entry points of the annotation write library
      (AnnotationWriteFileLib) *)
(* ===================================================================== *)

Module Write.
Import JS Pipeline.

(** [type TextMarkupAnnotationSubtype] *)
Inductive TextMarkupAnnotationSubtype := Highlight | Underline | Squiggly | StrikeOut.

(** What is read of [pageEl.getBoundingClientRect()]. *)
Record DOMRect := mkDOMRect { dr_left : number; dr_top : number }.

(** [{ beginIndex, beginOffset, endIndex, endOffset }] *)
Record SelectionInfo := mkSelectionInfo {
  beginIndex : number;
  beginOffset : number;
  endIndex : number;
  endOffset : number
}.

(** [DestArray | string | { path: string, subpath: string }] *)
Inductive TextRangeDestination (DestArray : Type) :=
| ToDestination (dest : Destination DestArray)
| ToPathSubpath (path subpath : string).
Arguments ToDestination {DestArray} dest.
Arguments ToPathSubpath {DestArray} path subpath.

Section Host.

Context {Host TextLayer TextLayerInfo MergedRect Rect DestArray Selection : Type}.

#[local] Abbreviation PageView := (@PageView TextLayer).
#[local] Abbreviation PDFViewerChild := (@PDFViewerChild TextLayer).
#[local] Abbreviation M := (@M Host Rect).
#[local] Notation "'let*' x ':=' m 'in' k" := (mbind m (fun x => k))
  (at level 10, x binder, k at level 200).

(** The collaborators. *)
Variable manifestName : string.
Variable getTextLayerInfo : TextLayer -> option TextLayerInfo.
Variable computeMergedHighlightRects :
  TextLayerInfo -> number -> number -> number -> number -> list MergedRect.
Variable rectOf : MergedRect -> Rect.
Variable getPageAndTextRangeFromSelection :
  Selection -> option (number * option (number * number * number * number)).
Variable getPDFViewerChildFromSelection : Selection -> option PDFViewerChild.
(** The mutation interface [IPdfIo]. *)
Variable io_addLinkAnnotation :
  Links.TFile -> number -> list Rect -> Destination DestArray ->
  option string -> option string -> Host -> Completion string * Host.
Variable io_addTextMarkupAnnotation :
  Links.TFile -> number -> list Rect -> TextMarkupAnnotationSubtype ->
  option string -> Host -> Completion string * Host.
Variable io_addTextAnnotation :
  Links.TFile -> number -> number -> number -> string -> option string ->
  Host -> Completion string * Host.
(** The page element's box and computed style, and
    [pageView.getPagePoint(x, y)]. *)
Variable getBoundingClientRect : ElementRef -> DOMRect.
Variable getComputedStyle : ElementRef -> gmap string string.
Variable getPagePoint : PageView -> number -> number -> number * number.
(** The viewer children that [lib.workspace.iteratePDFViewerChild]
    visits, in the order of the visit. *)
Variable viewerChildren : list PDFViewerChild.

(** [addTextMarkupAnnotationToSelection] *)
Definition addTextMarkupAnnotationToSelection (subtype : TextMarkupAnnotationSubtype)
    (colorName : option string) (windowSelection : option Selection)
  : M (option SelectionResult) :=
  addAnnotationToSelection manifestName getTextLayerInfo computeMergedHighlightRects rectOf
    getPageAndTextRangeFromSelection getPDFViewerChildFromSelection
    (fun file page rects => io_addTextMarkupAnnotation file page rects subtype colorName)
    windowSelection.

(** [c.file?.path === file.path] *)
Definition showsFile (c : PDFViewerChild) (file : Links.TFile) : bool :=
  match Pipeline.file c with
  | Some childFile => String.eqb (Links.path childFile) (Links.path file)
  | None => false
  end.

(** [addLinkAnnotation] *)
Definition addLinkAnnotation (file : Links.TFile) (pageNumber : number) (rects : list Rect)
    (dest : Destination DestArray) (colorName contents : option string) : M string :=
  let* annotationID :=
    call (io_addLinkAnnotation file pageNumber rects dest colorName contents) in
  let child :=
    fold_left
      (fun (child : option PDFViewerChild) c =>
         match child with
         | None => if showsFile c file then Some c else None
         | Some _ => child
         end)
      viewerChildren None in
  match child, annotationID with
  | Some child, String _ _ =>
      let* _ :=
        registerPostProcessorForNewAnnotation child pageNumber (Some annotationID) dest in
      ret annotationID
  | _, _ => ret annotationID
  end.

(** [addStickyNoteAtPosition]; [None] is [undefined]. *)
Definition addStickyNoteAtPosition (child : PDFViewerChild) (pageNumber : number)
    (screenX screenY : number) (contents : string) (colorName : option string)
  : M (option string) :=
  match Pipeline.file child with
  | None => ret None
  | Some childFile =>
      match getPage child pageNumber with
      | None => ret None
      | Some pageView =>
          let pageEl := div pageView in
          let pageRect := getBoundingClientRect pageEl in
          let style := getComputedStyle pageEl in
          let borderLeft := Hover.parseFloatOrZero (style !! "borderLeftWidth") in
          let borderTop := Hover.parseFloatOrZero (style !! "borderTopWidth") in
          let paddingLeft := Hover.parseFloatOrZero (style !! "paddingLeft") in
          let paddingTop := Hover.parseFloatOrZero (style !! "paddingTop") in
          let relativeX := (screenX - (dr_left pageRect + borderLeft + paddingLeft))%float in
          let relativeY := (screenY - (dr_top pageRect + borderTop + paddingTop))%float in
          let '(pdfX, pdfY) := getPagePoint pageView relativeX relativeY in
          try_catch
            (let* annotationID :=
               call (io_addTextAnnotation childFile pageNumber pdfX pdfY contents colorName) in
             ret (Some annotationID))
            (fun e =>
               let* _ := emit (NoticeShown (manifestName ++ ": Failed to add sticky note.")) in
               ret None)
      end
  end.

(** The block "Convert path/subpath object to wikilink string if needed"
    of [addLinkAnnotationToTextRange]. *)
Definition destStringOf (dest : TextRangeDestination DestArray) : Destination DestArray :=
  match dest with
  | ToPathSubpath path subpath => DestString ("[[" ++ path ++ subpath ++ "]]")
  | ToDestination dest => dest
  end.

(** [addLinkAnnotationToTextRange]; [None] is [null] or [undefined]. *)
Definition addLinkAnnotationToTextRange (child : PDFViewerChild) (pageNumber : number)
    (selectionInfo : SelectionInfo) (dest : TextRangeDestination DestArray)
    (contents : option string) : M (option (@TextRangeResult Rect)) :=
  match Pipeline.file child with
  | None => ret None
  | Some _ =>
      let destString := destStringOf dest in
      let* result :=
        addAnnotationToTextRange manifestName getTextLayerInfo computeMergedHighlightRects
          rectOf
          (fun file page rects =>
             io_addLinkAnnotation file page rects destString None contents)
          child pageNumber
          (beginIndex selectionInfo) (beginOffset selectionInfo)
          (endIndex selectionInfo) (endOffset selectionInfo) in
      match result with
      | Some r =>
          match annotationID r with
          | Some (String _ _) =>
              let* _ :=
                registerPostProcessorForNewAnnotation child pageNumber
                  (annotationID r) destString in
              ret result
          | _ => ret result
          end
      | None => ret result
      end
  end.

End Host.

End Write.

(* ===================================================================== *)
(** * Shift-hover over a wikilink annotation
      (ShiftHoverManager.findViewerForFile, isActive;
       PDFExternalLinkPostProcessor's handlers) *)
(* ===================================================================== *)

Module PostProcess.
Import JS Hover.

(** [PaneType | boolean]: the value of [Keymap.isModEvent(evt)], and the
    [newLeaf] argument of [openLinkText]. *)
Inductive NewLeaf :=
| Flag (b : bool)
| Pane (paneType : string).

(** What a handler does to the event and to the workspace. *)
Inductive Action :=
| PreventDefault
| StopPropagation
| StopImmediatePropagation
| OpenLinkText (linktext sourcePath : string) (newLeaf : NewLeaf).

Section Workspace.

Context {Viewport : Type}.

(** A viewer child as the workspace lists it: its [file], and what the
    highlight tracking uses of it. *)
Record ViewerChild := mkViewerChild {
  file : option Links.TFile;
  view : @PDFViewerChild Viewport
}.

(** [app.metadataCache.getFirstLinkpathDest(linkpath, sourcePath)] *)
Variable getFirstLinkpathDest : string -> string -> Completion (option Links.TFile).
(** [app.workspace.openLinkText(linktext, sourcePath, newLeaf)] *)
Variable openLinkText : string -> string -> NewLeaf -> Completion unit.
(** The viewer children that [lib.workspace.iteratePDFViewerChild]
    visits, in the order of the visit. *)
Variable viewerChildren : list ViewerChild.

(** [ShiftHoverManager.isActive] *)
Definition isActive (st : @State Viewport) : bool := isShiftPressed st.

(** [ShiftHoverManager.findViewerForFile] *)
Definition findViewerForFile (targetFile : Links.TFile) : option ViewerChild :=
  fold_left
    (fun (targetChild : option ViewerChild) child =>
       match targetChild, file child with
       | None, Some childFile =>
           if String.eqb (Links.path childFile) (Links.path targetFile)
           then Some child else None
       | _, _ => targetChild
       end)
    viewerChildren None.

(** [PDFExternalLinkPostProcessor.handleShiftHoverForWikilink]; [child]
    is [this.child]. *)
Definition handleShiftHoverForWikilink (child : ViewerChild) (url : string)
    (st : @State Viewport) : Completion (@State Viewport) :=
  match file child with
  | None => Normal st
  | Some childFile =>
      bind (Links.resolveWikilink getFirstLinkpathDest url childFile) (fun resolved =>
        match resolved with
        | Some {| Links.file := resolvedFile; Links.page := page;
                  Links.annotationId := Some (String _ _ as annotationId) |} =>
            match findViewerForFile resolvedFile with
            | None => Normal st
            | Some targetChild =>
                Normal (highlightAnnotation (view targetChild) page annotationId st)
            end
        | _ => Normal st
        end)
  end.

(** The [mouseover] and [mouseleave] listeners that [onload] installs on
    the container of a wikilink annotation. *)
Definition onMouseOver (child : ViewerChild) (url : string) (st : @State Viewport)
  : Completion (@State Viewport) :=
  if isActive st then handleShiftHoverForWikilink child url st else Normal st.

Definition onMouseLeave (st : @State Viewport) : @State Viewport :=
  if isActive st then clearHighlight st else st.

(** The events the manager's and the post-processor's listeners react
    to. *)
Inductive HoverEvent :=
| ShiftDown
| ShiftUp
| MouseOver (child : ViewerChild) (url : string)
| MouseLeave.

Definition dispatch (st : @State Viewport) (ev : HoverEvent) : Completion (@State Viewport) :=
  match ev with
  | ShiftDown => Normal (onKeyDown "Shift" st)
  | ShiftUp => Normal (onKeyUp "Shift" st)
  | MouseOver child url => onMouseOver child url st
  | MouseLeave => Normal (onMouseLeave st)
  end.

Fixpoint dispatchAll (st : @State Viewport) (evs : list HoverEvent)
  : Completion (@State Viewport) :=
  match evs with
  | [] => Normal st
  | ev :: evs => bind (dispatch st ev) (fun st' => dispatchAll st' evs)
  end.

(** The block "Remove [[ and ]] and handle alias" of the click and
    double-click listeners. *)
Definition linktextOf (url : string) : string :=
  let linktext := slice url 2 (-2) in
  if Text.includes linktext "|"
  then match split linktext "|" with
       | first :: _ => first
       | [] => linktext
       end
  else linktext.

(** [this.child.file?.path || ''] *)
Definition sourcePathOf (child : ViewerChild) : string :=
  match file child with
  | Some childFile => Links.path childFile
  | None => ""
  end.

(** [clickHandler]: what is done, and how the handler completes;
    [isModEvent] is [Keymap.isModEvent(evt)]. *)
Definition clickHandler (child : ViewerChild) (url : string) (isModEvent : NewLeaf)
  : list Action * Completion unit :=
  let linktext := linktextOf url in
  ([PreventDefault; StopPropagation; StopImmediatePropagation;
    OpenLinkText linktext (sourcePathOf child) isModEvent],
   tryCatch (openLinkText linktext (sourcePathOf child) isModEvent)
     (fun e => Normal tt)).

(** The [dblclick] listener. *)
Definition dblclickHandler (child : ViewerChild) (url : string)
  : list Action * Completion unit :=
  let linktext := linktextOf url in
  ([PreventDefault; StopPropagation; StopImmediatePropagation;
    OpenLinkText linktext (sourcePathOf child) (Flag false)],
   openLinkText linktext (sourcePathOf child) (Flag false)).

End Workspace.

End PostProcess.

(* ===================================================================== *)
(** * The link annotation modal (PDFLinkAnnotationModal) and the
      connections modal's [getLineText] *)
(* ===================================================================== *)

Module Modal.
Import JS.

(** [destType: 'internal' | 'external'] *)
Inductive DestType := Internal | External.

(** An entry of a [DestArray]: a number, a name, or [null]. *)
Inductive DestEntry :=
| DestNumber (n : number)
| DestName (name : string)
| DestNull.

Definition DestArray := list DestEntry.

(** The fields of the modal that its methods read and write. *)
Record Fields := mkFields {
  destType : DestType;
  targetPage : number;
  destArray : option DestArray;
  description : string;
  externalUrl : string
}.

(** What a method leaves behind besides the fields: notices, calls of
    [updateUI], of [onSubmit] and of [close]. *)
Inductive Event (SelectionInfo : Type) :=
| NoticeShown (message : string)
| UpdateUI
| Submitted (dest : Pipeline.Destination DestArray) (description : option string)
    (selectionInfo : option SelectionInfo)
| Closed.
Arguments NoticeShown {SelectionInfo} message.
Arguments UpdateUI {SelectionInfo}.
Arguments Submitted {SelectionInfo} dest description selectionInfo.
Arguments Closed {SelectionInfo}.

(** [isUrl], [isWikilink], [isMarkdownLink] *)
Definition isUrl (text : string) : bool :=
  startsWith text "http://" || startsWith text "https://"
  || startsWith text "file://" || startsWith text "mailto:".

Definition isWikilink (text : string) : bool :=
  startsWith text "[[" && Text.endsWith text "]]".

Definition isMarkdownLink (text : string) : bool :=
  startsWith text "[" && Text.includes text "](" && Text.endsWith text ")".

Definition notClosingParen (c : ascii) : bool := negb (Ascii.eqb c ")").

Section Vault.

Context {SelectionInfo : Type}.

(** The collaborators: [decodeURI], Obsidian's [parseLinktext] (which
    yields [{ path, subpath }]), [metadataCache.getFirstLinkpathDest] and
    [metadataCache.fileToLinktext]; the modal's own file, plugin name and
    preserved selection. *)
Variable decodeURI : string -> Completion string.
Variable parseLinktext : string -> string * string.
Variable getFirstLinkpathDest : string -> string -> Completion (option Links.TFile).
Variable fileToLinktext : Links.TFile -> string -> string.
Variable file : Links.TFile.
Variable manifestName : string.
Variable selectionInfo : option SelectionInfo.

(** [markdownLinkToWikilink] *)
Definition markdownLinkToWikilink (text : string) : Completion (option string) :=
  match Text.matchBetween "](" notClosingParen ")" text with
  | Some url =>
      if isUrl url then Normal (Some url)
      else
        bind (decodeURI url) (fun decoded =>
          let '(path, subpath) := parseLinktext decoded in
          bind (getFirstLinkpathDest path (Links.path file)) (fun target =>
            match target with
            | Some target =>
                let linktext := fileToLinktext target (Links.path file) in
                Normal (Some ("[[" ++ linktext
                              ++ (if String.eqb subpath "" then "" else subpath) ++ "]]"))
            | None => Normal None
            end))
  | None => Normal None
  end.

(** [checkClipboard]; [readText] is what
    [navigator.clipboard.readText()] settles to. *)
Definition checkClipboard (readText : Completion string) (fields : Fields)
  : Completion (Fields * list (Event SelectionInfo)) :=
  tryCatch
    (bind readText (fun text =>
       if String.eqb text "" then Normal (fields, [])
       else
         let trimmed := trim text in
         bind
           (if isWikilink trimmed then
              Normal (Some trimmed,
                      [NoticeShown (manifestName
                                    ++ ": Detected Obsidian wikilink from clipboard")])
            else if isMarkdownLink trimmed then
              bind (markdownLinkToWikilink trimmed) (fun linkText =>
                Normal (linkText,
                        match linkText with
                        | Some (String _ _) =>
                            [NoticeShown (manifestName
                                          ++ ": Detected Markdown link from clipboard")]
                        | _ => []
                        end))
            else if isUrl trimmed then
              Normal (Some trimmed,
                      [NoticeShown (manifestName ++ ": Detected URL from clipboard")])
            else Normal (None, []))
           (fun '(linkText, notices) =>
              match linkText with
              | Some (String _ _ as linkText) =>
                  Normal (mkFields External (targetPage fields) (destArray fields)
                            (description fields) linkText,
                          (notices ++ [UpdateUI])%list)
              | _ => Normal (fields, notices)
              end)))
    (fun e => Normal (fields, [])).

(** [this.description || undefined] *)
Definition descriptionOrUndefined (fields : Fields) : option string :=
  if String.eqb (description fields) "" then None else Some (description fields).

(** [submit] *)
Definition submit (fields : Fields) : Fields * list (Event SelectionInfo) :=
  match destType fields with
  | Internal =>
      let dest :=
        match destArray fields with
        | Some dest => dest
        | None => [DestNumber (targetPage fields - 1)%float; DestName "XYZ";
                   DestNull; DestNull; DestNull]
        end in
      (mkFields (destType fields) (targetPage fields) (Some dest)
         (description fields) (externalUrl fields),
       [Submitted (Pipeline.DestExplicit dest) (descriptionOrUndefined fields) selectionInfo;
        Closed])
  | External =>
      if negb (String.eqb (externalUrl fields) "") then
        let urlToSave := trim (externalUrl fields) in
        (fields,
         [Submitted (Pipeline.DestString urlToSave) (descriptionOrUndefined fields)
            selectionInfo;
          Closed])
      else (fields, [NoticeShown (manifestName ++ ": Please enter a URL")])
  end.

End Vault.

(** [PDFAnnotationConnectionsModal.getLineText]; [read] is what
    [app.vault.read(file)] settles to. *)
Definition getLineText (read : Completion string) (line : number)
  : Completion (option string) :=
  tryCatch
    (bind read (fun content =>
       let lines := split content "010" in
       match Text.at_ lines line with
       | Some (String _ _ as lineText) => Normal (Some lineText)
       | _ => Normal None
       end))
    (fun error => Normal None).

End Modal.

(* ===================================================================== *)
(** * The JavaScript primitives on examples *)
(* ===================================================================== *)

Module JSExamples.
Import JS.

Example parseFloat_integer : parseFloat "100" = 100%float.
Proof. vm_compute. reflexivity. Qed.

Example parseFloat_fraction : parseFloat "1.5" = 1.5%float.
Proof. vm_compute. reflexivity. Qed.

Example parseFloat_prefix : parseFloat "-4.35e2abc" = (-435)%float.
Proof. vm_compute. reflexivity. Qed.

Example parseFloat_leading_dot : parseFloat "  .5e1" = 5%float.
Proof. vm_compute. reflexivity. Qed.

Example parseFloat_smallest : parseFloat "5e-324" = PrimFloat.next_up 0%float.
Proof. vm_compute. reflexivity. Qed.

Example parseFloat_round_to_even : parseFloat "9007199254740993" = 9007199254740992%float.
Proof. vm_compute. reflexivity. Qed.

Example parseFloat_overflow : parseFloat "1e400" = PrimFloat.infinity.
Proof. vm_compute. reflexivity. Qed.

Example parseFloat_underflow : parseFloat "1e-400" = 0%float.
Proof. vm_compute. reflexivity. Qed.

Example parseFloat_negative_zero : parseFloat "-0" = PrimFloat.neg_zero.
Proof. vm_compute. reflexivity. Qed.

Example parseFloat_not_a_number : isNaN (parseFloat "a") = true.
Proof. vm_compute. reflexivity. Qed.

Example parseInt_leading_zeros : parseIntDigits "0012" = 12%float.
Proof. vm_compute. reflexivity. Qed.

Example split_keeps_empty_parts : split "a,,b," "," = ["a"; ""; "b"; ""].
Proof. vm_compute. reflexivity. Qed.

Example trim_both_ends : trim "  a b  " = "a b".
Proof. vm_compute. reflexivity. Qed.

Example slice_negative_end : slice "[[abc]]" 2 (-2) = "abc".
Proof. vm_compute. reflexivity. Qed.

Example indexOf_first_occurrence : indexOf "ab#c#" "#" = 2%Z.
Proof. vm_compute. reflexivity. Qed.

Example matchAfter_leftmost_with_digit :
  matchAfter "#page=" isDigit "x#page=&#page=12&y" = Some "12".
Proof. vm_compute. reflexivity. Qed.

Example sort_is_stable :
  Array_sort (fun a b : number * string => (fst a - fst b)%float)
    [(2%float, "a"); (1%float, "b"); (2%float, "c"); (1%float, "d")]
  = [(1%float, "b"); (1%float, "d"); (2%float, "a"); (2%float, "c")].
Proof. vm_compute. reflexivity. Qed.

End JSExamples.
(* ===================================================================== *)
(** * The order of doubles and the sign of a difference

    Comparators of the form [(a, b) => a.distance - b.distance] sort in
    ascending order because, on IEEE doubles, [a - b] is negative exactly
    when [a < b] and positive exactly when [b < a] (gradual underflow: a
    difference of distinct finite doubles is never zero).  This is proved
    here from the specification of binary64 arithmetic. *)
(* ===================================================================== *)

Module FloatOrder.
Import SpecFloat.
Local Open Scope Z_scope.

#[local] Abbreviation emin64 := (SpecFloat.emin prec emax).

Definition flat (c : option comparison) : comparison :=
  match c with Some c => c | None => Eq end.

Definition SFsign (x : spec_float) : comparison :=
  flat (SFcompare x (S754_zero false)).

Lemma digits2_pos_lower (p : positive) :
  2 ^ (Zpos (digits2_pos p) - 1) <= Zpos p.
Proof.
  induction p as [p IH | p IH |]; simpl digits2_pos.
  - rewrite Pos2Z.inj_succ.
    replace (Z.succ (Zpos (digits2_pos p)) - 1) with (Z.succ (Zpos (digits2_pos p) - 1)) by lia.
    rewrite Z.pow_succ_r by lia. lia.
  - rewrite Pos2Z.inj_succ.
    replace (Z.succ (Zpos (digits2_pos p)) - 1) with (Z.succ (Zpos (digits2_pos p) - 1)) by lia.
    rewrite Z.pow_succ_r by lia. lia.
  - simpl. lia.
Qed.

Lemma digits2_pos_upper (p : positive) :
  Zpos p < 2 ^ Zpos (digits2_pos p).
Proof.
  induction p as [p IH | p IH |]; simpl digits2_pos.
  - rewrite Pos2Z.inj_succ, Z.pow_succ_r by lia. lia.
  - rewrite Pos2Z.inj_succ, Z.pow_succ_r by lia. lia.
  - simpl. lia.
Qed.

Lemma shr_1_m (mrs : shr_record) :
  0 <= shr_m mrs -> shr_m (shr_1 mrs) = shr_m mrs / 2.
Proof.
  destruct mrs as [m r s]; simpl. intros Hm.
  destruct m as [|p|p]; [reflexivity| |lia].
  destruct p as [p|p|]; simpl shr_m.
  - rewrite Pos2Z.inj_xI. apply Z.div_unique with 1; lia.
  - rewrite Pos2Z.inj_xO. apply Z.div_unique with 0; lia.
  - reflexivity.
Qed.

Lemma iter_shr_1_m (p : positive) : forall mrs,
  0 <= shr_m mrs ->
  shr_m (iter_pos shr_1 p mrs) = shr_m mrs / 2 ^ Zpos p.
Proof.
  induction p as [p IH | p IH |]; intros mrs Hm; simpl iter_pos.
  - assert (H1 : 0 <= shr_m (shr_1 mrs)).
    { rewrite shr_1_m by assumption. apply Z.div_pos; lia. }
    assert (H2 : 0 <= shr_m (iter_pos shr_1 p (shr_1 mrs))).
    { rewrite IH by assumption. apply Z.div_pos; [assumption|]. apply Z.pow_pos_nonneg; lia. }
    rewrite IH, IH, shr_1_m by assumption.
    rewrite !Z.div_div by (try apply Z.pow_pos_nonneg; lia).
    f_equal.
    replace (Zpos p~1) with (1 + Zpos p + Zpos p) by lia.
    rewrite !Z.pow_add_r by lia. lia.
  - assert (H2 : 0 <= shr_m (iter_pos shr_1 p mrs)).
    { rewrite IH by assumption. apply Z.div_pos; [assumption|]. apply Z.pow_pos_nonneg; lia. }
    rewrite IH, IH by assumption.
    rewrite !Z.div_div by (try apply Z.pow_pos_nonneg; lia).
    f_equal.
    replace (Zpos p~0) with (Zpos p + Zpos p) by lia.
    rewrite !Z.pow_add_r by lia. lia.
  - rewrite shr_1_m by assumption. reflexivity.
Qed.

Lemma shr_record_of_loc_m m l : shr_m (shr_record_of_loc m l) = m.
Proof. destruct l as [|[]]; reflexivity. Qed.

(** Shifting a positive mantissa to its canonical exponent never loses
    all of its digits, provided the exponent is not below [emin]. *)
Lemma shr_fexp_pos (m : positive) (e : Z) (l : location) :
  emin64 <= e ->
  0 < shr_m (fst (shr_fexp prec emax (Zpos m) e l)) /\
  emin64 <= snd (shr_fexp prec emax (Zpos m) e l).
Proof.
  intros He. unfold shr_fexp, shr.
  pose proof (digits2_pos_lower m) as Hlow.
  set (d := Zpos (digits2_pos m)) in *.
  simpl Zdigits2. fold d.
  destruct (fexp prec emax (d + e) - e) as [|n|n] eqn:Hn; simpl fst; simpl snd.
  - rewrite shr_record_of_loc_m. lia.
  - rewrite iter_shr_1_m by (rewrite shr_record_of_loc_m; lia).
    rewrite shr_record_of_loc_m. split; [|lia].
    unfold fexp, SpecFloat.emin, prec, emax in Hn, He.
    assert (Hnd : Zpos n <= d - 1) by lia.
    apply Z.div_str_pos. split; [apply Z.pow_pos_nonneg; lia|].
    etransitivity; [|exact Hlow]. apply Z.pow_le_mono_r; lia.
  - rewrite shr_record_of_loc_m. lia.
Qed.

Lemma round_nearest_even_pos m l : 0 < m -> 0 < round_nearest_even m l.
Proof.
  intros Hm. destruct l as [|[]]; simpl; try lia.
  destruct (Z.even m); lia.
Qed.

Lemma binary_round_aux_sign (s : bool) (m : positive) (e : Z) (l : location) :
  emin64 <= e ->
  SFsign (binary_round_aux prec emax s (Zpos m) e l) = if s then Lt else Gt.
Proof.
  intros He. unfold binary_round_aux.
  destruct (shr_fexp_pos m e l He) as [H1 H1e].
  destruct (shr_fexp prec emax (Zpos m) e l) as [mrs' e'] eqn:E1.
  simpl fst in H1; simpl snd in H1e.
  pose proof (round_nearest_even_pos _ (loc_of_shr_record mrs') H1) as H2.
  destruct (round_nearest_even (shr_m mrs') (loc_of_shr_record mrs')) as [|m2|m2] eqn:E2;
    try lia.
  destruct (shr_fexp_pos m2 e' loc_Exact H1e) as [H3 _].
  destruct (shr_fexp prec emax (Zpos m2) e' loc_Exact) as [mrs'' e''] eqn:E3.
  simpl fst in H3.
  destruct (shr_m mrs'') as [|m3|m3]; try lia.
  destruct (e'' <=? emax - prec); destruct s; reflexivity.
Qed.

Lemma shl_align_exp (m : positive) (e e' : Z) :
  emin64 <= e -> emin64 <= e' -> emin64 <= snd (shl_align m e e').
Proof. intros. unfold shl_align. destruct (e' - e); simpl; lia. Qed.

Lemma fexp_ge_emin k : emin64 <= fexp prec emax k.
Proof. unfold fexp, SpecFloat.emin. lia. Qed.

Lemma binary_round_sign (s : bool) (m : positive) (e : Z) :
  emin64 <= e ->
  SFsign (binary_round prec emax s m e) = if s then Lt else Gt.
Proof.
  intros He. unfold binary_round.
  pose proof (shl_align_exp m e (fexp prec emax (Zpos (digits2_pos m) + e)) He
                (fexp_ge_emin _)) as H.
  destruct (shl_align m e (fexp prec emax (Zpos (digits2_pos m) + e))) as [mz ez].
  apply binary_round_aux_sign. exact H.
Qed.

Lemma binary_normalize_sign (m e : Z) :
  emin64 <= e ->
  SFsign (binary_normalize prec emax m e false) = (m ?= 0).
Proof.
  intros He. destruct m as [|p|p]; simpl binary_normalize.
  - reflexivity.
  - apply (binary_round_sign false); assumption.
  - apply (binary_round_sign true); assumption.
Qed.

Lemma shl_align_value (m : positive) (e ez : Z) :
  ez <= e -> Zpos (fst (shl_align m e ez)) = Zpos m * 2 ^ (e - ez).
Proof.
  intros H. unfold shl_align.
  destruct (ez - e) as [|d|d] eqn:Hd; simpl fst.
  - replace (e - ez) with 0 by lia. simpl. lia.
  - lia.
  - replace (e - ez) with (Zpos d) by lia.
    change (Pos.iter xO m d) with (shift_pos d m).
    rewrite shift_pos_correct. change (Z.pow_pos 2 d) with (2 ^ Zpos d). lia.
Qed.

(** What validity says of a finite binary64 value. *)
Lemma bounded_canonical (m : positive) (e : Z) :
  bounded prec emax m e = true ->
  emin64 <= e /\ Zpos (digits2_pos m) <= prec /\
  (emin64 < e -> Zpos (digits2_pos m) = prec).
Proof.
  unfold bounded, canonical_mantissa, fexp, SpecFloat.emin, prec, emax.
  intros H. apply andb_prop in H as [H _]. apply Z.eqb_eq in H. lia.
Qed.

(** With a larger exponent, a canonical mantissa denotes a larger value. *)
Lemma canonical_exp_lt (mx my : positive) (ex ey : Z) :
  bounded prec emax mx ex = true ->
  bounded prec emax my ey = true ->
  ex < ey ->
  Zpos mx < Zpos my * 2 ^ (ey - ex).
Proof.
  intros Hx Hy Hlt.
  destruct (bounded_canonical _ _ Hx) as (Hex & Hdx & _).
  destruct (bounded_canonical _ _ Hy) as (Hey & _ & Hdy).
  specialize (Hdy ltac:(lia)).
  pose proof (digits2_pos_upper mx) as Hux.
  pose proof (digits2_pos_lower my) as Hly. rewrite Hdy in Hly.
  assert (H1 : 2 ^ Zpos (digits2_pos mx) <= 2 ^ prec)
    by (apply Z.pow_le_mono_r; lia).
  assert (H2 : 2 ^ 1 <= 2 ^ (ey - ex)) by (apply Z.pow_le_mono_r; lia).
  assert (H3 : 2 ^ prec = 2 ^ (prec - 1) * 2 ^ 1)
    by (rewrite <- Z.pow_add_r by (unfold prec; lia); f_equal; lia).
  assert (H4 : 0 < 2 ^ (prec - 1)) by (apply Z.pow_pos_nonneg; unfold prec; lia).
  nia.
Qed.

Lemma Zcompare_sub (a b : Z) : (a - b ?= 0) = (a ?= b).
Proof.
  destruct (Z.compare_spec a b) as [H|H|H];
    [apply Z.compare_eq_iff | apply Z.compare_lt_iff | apply Z.compare_gt_iff]; lia.
Qed.

(** The sign of a difference is the outcome of the comparison. *)
Lemma SFsub_sign (x y : spec_float) :
  valid_binary prec emax x = true -> valid_binary prec emax y = true ->
  SFsign (SFsub prec emax x y) = flat (SFcompare x y).
Proof.
  intros Vx Vy.
  destruct x as [sx|sx| |sx mx ex], y as [sy|sy| |sy my ey];
    try reflexivity;
    try (destruct sx; reflexivity);
    try (destruct sy; reflexivity);
    try (destruct sx, sy; reflexivity).
  simpl in Vx, Vy. unfold SFsub.
  destruct (bounded_canonical _ _ Vx) as (Hex & _).
  destruct (bounded_canonical _ _ Vy) as (Hey & _).
  rewrite binary_normalize_sign by lia.
  rewrite Zcompare_sub.
  rewrite !shl_align_value by lia.
  unfold SFcompare, flat.
  assert (Px : 0 < 2 ^ (ex - Z.min ex ey)) by (apply Z.pow_pos_nonneg; lia).
  assert (Py : 0 < 2 ^ (ey - Z.min ex ey)) by (apply Z.pow_pos_nonneg; lia).
  destruct (Z.compare_spec ex ey) as [He|He|He].
  - subst ey. rewrite Z.min_id, Z.sub_diag, !Z.mul_1_r.
    change (Pos.compare_cont Eq mx my) with (Pos.compare mx my).
    destruct sx, sy; cbn [cond_Zopp].
    + reflexivity.
    + apply Z.compare_lt_iff. lia.
    + apply Z.compare_gt_iff. lia.
    + reflexivity.
  - pose proof (canonical_exp_lt _ _ _ _ Vx Vy He) as Hlt.
    rewrite (Z.min_l ex ey) in * by lia. rewrite Z.sub_diag, Z.mul_1_r.
 destruct sx, sy; cbn [cond_Zopp];
      [apply Z.compare_gt_iff | apply Z.compare_lt_iff
      | apply Z.compare_gt_iff | apply Z.compare_lt_iff]; lia.
  - pose proof (canonical_exp_lt _ _ _ _ Vy Vx He) as Hlt.
    rewrite (Z.min_r ex ey) in * by lia. rewrite Z.sub_diag, Z.mul_1_r.
    destruct sx, sy; cbn [cond_Zopp];
      [apply Z.compare_lt_iff | apply Z.compare_lt_iff
      | apply Z.compare_gt_iff | apply Z.compare_gt_iff]; lia.
Qed.

Lemma SFcompare_swap (x y : spec_float) :
  SFcompare y x = option_map CompOpp (SFcompare x y).
Proof.
  destruct x as [sx|sx| |sx mx ex], y as [sy|sy| |sy my ey];
    try reflexivity;
    try (destruct sx; reflexivity);
    try (destruct sy; reflexivity);
    try (destruct sx, sy; reflexivity).
  unfold SFcompare, option_map. f_equal.
  rewrite (Z.compare_antisym ex ey), (ZC4 my mx).
  destruct sx, sy; try reflexivity;
    destruct (ex ?= ey); simpl; try reflexivity;
    rewrite CompOpp_involutive; reflexivity.
Qed.

Lemma SFltb_sign (r : spec_float) :
  SFltb r (S754_zero false) = match SFsign r with Lt => true | _ => false end.
Proof. unfold SFltb, SFsign, flat. destruct (SFcompare r _) as [[]|]; reflexivity. Qed.

Lemma SFltb_zero_sign (r : spec_float) :
  SFltb (S754_zero false) r = match SFsign r with Gt => true | _ => false end.
Proof.
  unfold SFltb, SFsign. rewrite (SFcompare_swap r).
  destruct (SFcompare r _) as [[]|]; reflexivity.
Qed.

Open Scope float_scope.

(** [a - b] is negative exactly when [a < b] ... *)
Theorem sub_neg_iff_lt (a b : float) : (a - b <? 0) = (a <? b).
Proof.
  rewrite !FloatAxioms.ltb_spec, FloatAxioms.sub_spec.
  change (Prim2SF 0) with (S754_zero false).
  rewrite SFltb_sign. unfold SF64sub.
  rewrite SFsub_sign by apply Prim2SF_valid.
  unfold SFltb, flat. destruct (SFcompare _ _) as [[]|]; reflexivity.
Qed.

(** ... and positive exactly when [b < a]. *)
Theorem sub_pos_iff_gt (a b : float) : (0 <? a - b) = (b <? a).
Proof.
  rewrite !FloatAxioms.ltb_spec, FloatAxioms.sub_spec.
  change (Prim2SF 0) with (S754_zero false).
  rewrite SFltb_zero_sign. unfold SF64sub.
  rewrite SFsub_sign by apply Prim2SF_valid.
  unfold SFltb. rewrite (SFcompare_swap (Prim2SF a)).
  destruct (SFcompare _ _) as [[]|]; reflexivity.
Qed.
(** ** The order of doubles is that of the integers [ord] *)

#[local] Close Scope float_scope.

(** An order embedding of the doubles that are not NaN into [Z]: a finite
    value is scaled by [2^-emin], the infinities lie beyond. *)
Definition ord (x : spec_float) : Z :=
  match x with
  | S754_zero _ => 0
  | S754_nan => 0
  | S754_infinity s => cond_Zopp s (2 ^ (emax - emin64))
  | S754_finite s m e => cond_Zopp s (Zpos m * 2 ^ (e - emin64))
  end.

Lemma ord_finite_bounds (m : positive) (e : Z) :
  bounded prec emax m e = true ->
  0 < Zpos m * 2 ^ (e - emin64) < 2 ^ (emax - emin64).
Proof.
  intros Hb. destruct (bounded_canonical _ _ Hb) as (He & Hd & _).
  assert (He' : e <= emax - prec).
  { unfold bounded in Hb. apply andb_prop in Hb as [_ Hb]. apply Z.leb_le in Hb. exact Hb. }
  pose proof (digits2_pos_upper m) as Hu.
  unfold SpecFloat.emin, prec, emax in *.
  assert (H1 : 2 ^ Zpos (digits2_pos m) <= 2 ^ 53) by (apply Z.pow_le_mono_r; lia).
  assert (H2 : 0 < 2 ^ (e - (3 - 1024 - 53))) by (apply Z.pow_pos_nonneg; lia).
  assert (H3 : 2 ^ 53 * 2 ^ (e - (3 - 1024 - 53)) <= 2 ^ (1024 - (3 - 1024 - 53))).
  { rewrite <- Z.pow_add_r by lia. apply Z.pow_le_mono_r; lia. }
  split; [lia|]. nia.
Qed.

Lemma ord_finite_compare (mx my : positive) (ex ey : Z) :
  bounded prec emax mx ex = true -> bounded prec emax my ey = true ->
  (Zpos mx * 2 ^ (ex - emin64) ?= Zpos my * 2 ^ (ey - emin64)) =
  match ex ?= ey with
  | Lt => Lt
  | Gt => Gt
  | Eq => Pos.compare_cont Eq mx my
  end.
Proof.
  intros Vx Vy.
  destruct (bounded_canonical _ _ Vx) as (Hex & _).
  destruct (bounded_canonical _ _ Vy) as (Hey & _).
  destruct (Z.compare_spec ex ey) as [He|He|He].
  - subst ey. change (Pos.compare_cont Eq mx my) with (Zpos mx ?= Zpos my).
    assert (H : 0 < 2 ^ (ex - emin64)) by (apply Z.pow_pos_nonneg; lia).
    destruct (Z.compare_spec (Zpos mx) (Zpos my)) as [E|E|E];
      [apply Z.compare_eq_iff | apply Z.compare_lt_iff | apply Z.compare_gt_iff]; nia.
  - pose proof (canonical_exp_lt _ _ _ _ Vx Vy He) as Hlt.
    apply Z.compare_lt_iff.
    replace (ey - emin64) with ((ey - ex) + (ex - emin64)) by lia.
    rewrite Z.pow_add_r by lia.
    assert (H : 0 < 2 ^ (ex - emin64)) by (apply Z.pow_pos_nonneg; lia). nia.
  - pose proof (canonical_exp_lt _ _ _ _ Vy Vx He) as Hlt.
    apply Z.compare_gt_iff.
    replace (ex - emin64) with ((ex - ey) + (ey - emin64)) by lia.
    rewrite Z.pow_add_r by lia.
    assert (H : 0 < 2 ^ (ey - emin64)) by (apply Z.pow_pos_nonneg; lia). nia.
Qed.

Lemma SFcompare_ord (x y : spec_float) :
  valid_binary prec emax x = true -> valid_binary prec emax y = true ->
  x <> S754_nan -> y <> S754_nan ->
  SFcompare x y = Some (ord x ?= ord y).
Proof.
  intros Vx Vy Nx Ny.
  assert (Hinf : 0 < 2 ^ (emax - emin64))
    by (apply Z.pow_pos_nonneg; unfold SpecFloat.emin, prec, emax; lia).
  assert (Hcmp : forall (c : comparison) (a b : Z),
            match c with Eq => a = b | Lt => a < b | Gt => a > b end ->
            c = (a ?= b)).
  { intros c a b H. symmetry.
    destruct c; [apply Z.compare_eq_iff | apply Z.compare_lt_iff | apply Z.compare_gt_iff];
      lia. }
  destruct x as [sx|sx| |sx mx ex], y as [sy|sy| |sy my ey]; try congruence;
    simpl in Vx, Vy; unfold SFcompare, ord; f_equal.
  - destruct sy; apply Hcmp; cbn [cond_Zopp]; lia.
  - pose proof (ord_finite_bounds _ _ Vy).
    destruct sy; apply Hcmp; cbn [cond_Zopp]; lia.
  - destruct sx; apply Hcmp; cbn [cond_Zopp]; lia.
  - destruct sx, sy; apply Hcmp; cbn [cond_Zopp]; lia.
  - pose proof (ord_finite_bounds _ _ Vy).
    destruct sx; apply Hcmp; cbn [cond_Zopp]; destruct sy; cbn [cond_Zopp]; lia.
  - pose proof (ord_finite_bounds _ _ Vx).
    destruct sx; apply Hcmp; cbn [cond_Zopp]; lia.
  - pose proof (ord_finite_bounds _ _ Vx).
    destruct sy; apply Hcmp; cbn [cond_Zopp]; destruct sx; cbn [cond_Zopp]; lia.
  - pose proof (ord_finite_bounds _ _ Vx). pose proof (ord_finite_bounds _ _ Vy).
    pose proof (ord_finite_compare _ _ _ _ Vx Vy) as Hc.
    destruct sx, sy; cbn [cond_Zopp].
    + rewrite Z.compare_opp.
      rewrite (Z.compare_antisym (Zpos mx * 2 ^ (ex - emin64)) (Zpos my * 2 ^ (ey - emin64))).
      rewrite Hc. destruct (ex ?= ey); reflexivity.
    + apply Hcmp. lia.
    + apply Hcmp. lia.
    + rewrite Hc. reflexivity.
Qed.

#[local] Open Scope float_scope.

Lemma is_nan_spec (a : float) : PrimFloat.is_nan a = false <-> Prim2SF a <> S754_nan.
Proof.
  unfold PrimFloat.is_nan. rewrite FloatAxioms.eqb_spec. unfold SFeqb.
  pose proof (Prim2SF_valid a) as V.
  destruct (Prim2SF a) as [s|s| |s m e] eqn:E.
  - split; [discriminate | reflexivity].
  - split; [discriminate | destruct s; reflexivity].
  - split; [discriminate | congruence].
  - split; [discriminate|]. intros _.
    rewrite (SFcompare_ord _ _ V V) by discriminate.
    rewrite Z.compare_refl. reflexivity.
Qed.

(** On doubles that are not NaN, [<] is the order of [ord]. *)
Theorem ltb_ord (a b : float) :
  PrimFloat.is_nan a = false -> PrimFloat.is_nan b = false ->
  (a <? b) = (ord (Prim2SF a) <? ord (Prim2SF b))%Z.
Proof.
  intros Na Nb. apply is_nan_spec in Na, Nb.
  rewrite FloatAxioms.ltb_spec. unfold SFltb.
  rewrite (SFcompare_ord _ _ (Prim2SF_valid a) (Prim2SF_valid b) Na Nb).
  unfold Z.ltb. destruct (_ ?= _)%Z; reflexivity.
Qed.

End FloatOrder.

(* ===================================================================== *)
(** * Facts about the stable sort *)
(* ===================================================================== *)

Module SortFacts.
Import JS.

Section Sorting.
Context {A : Type}.
Variable cmp : A -> A -> comparison.

Lemma In_insert (x y : A) (l : list A) :
  In y (insert cmp x l) <-> y = x \/ In y l.
Proof.
  induction l as [|z l IH]; simpl.
  - intuition auto.
  - destruct (cmp x z); simpl; try rewrite IH; intuition auto.
Qed.

Lemma In_stable_sort (y : A) (l : list A) :
  In y (stable_sort cmp l) <-> In y l.
Proof.
  induction l as [|x l IH]; simpl; [tauto|].
  rewrite In_insert, IH. intuition auto.
Qed.

Lemma length_insert_sorted (x : A) (l : list A) :
  length (insert cmp x l) = S (length l).
Proof.
  induction l as [|z l IH]; simpl; [reflexivity|].
  destruct (cmp x z); simpl; auto.
Qed.

Lemma length_stable_sort (l : list A) :
  length (stable_sort cmp l) = length l.
Proof.
  induction l as [|x l IH]; simpl; [reflexivity|].
  rewrite length_insert_sorted. auto.
Qed.

(** The first element of the sorted array is found by one pass from the
    right: the running winner is replaced by an earlier element unless
    that element sorts strictly after it. *)
Lemma head_insert (x : A) (l : list A) :
  hd_error (insert cmp x l) =
  match hd_error l with
  | None => Some x
  | Some h => match cmp x h with Gt => Some h | _ => Some x end
  end.
Proof.
  destruct l as [|h l]; simpl; [reflexivity|].
  destruct (cmp x h); reflexivity.
Qed.

Lemma head_stable_sort_cons (x : A) (l : list A) :
  hd_error (stable_sort cmp (x :: l)) =
  match hd_error (stable_sort cmp l) with
  | None => Some x
  | Some h => match cmp x h with Gt => Some h | _ => Some x end
  end.
Proof. simpl. apply head_insert. Qed.

(** The model is a sort: it permutes its argument ... *)
Lemma insert_Permutation (x : A) (l : list A) :
  Permutation (x :: l) (insert cmp x l).
Proof.
  induction l as [|y l IH]; simpl; [reflexivity|].
  destruct (cmp x y); try reflexivity.
  rewrite perm_swap. apply perm_skip. exact IH.
Qed.

Lemma stable_sort_Permutation (l : list A) : Permutation l (stable_sort cmp l).
Proof.
  induction l as [|x l IH]; simpl; [reflexivity|].
  rewrite <- insert_Permutation. apply perm_skip. exact IH.
Qed.

(** ... and, when the comparator is a consistent one on the elements of
    the array, nothing sorts before the first element of the result. *)
Lemma head_minimal (P : A -> Prop) (l : list A) (h : A) :
  (forall a b, P a -> P b -> (cmp a b = Gt <-> cmp b a = Lt)) ->
  (forall a b c, P a -> P b -> P c -> cmp a b <> Gt -> cmp b c <> Gt -> cmp a c <> Gt) ->
  (forall a, In a l -> P a) ->
  hd_error (stable_sort cmp l) = Some h ->
  forall y, In y l -> cmp y h <> Lt.
Proof.
  intros Hanti Htrans. revert h.
  assert (Hle : forall a b, P a -> P b -> cmp a b <> Lt <-> cmp b a <> Gt).
  { intros a b Pa Pb. rewrite (Hanti b a Pb Pa). tauto. }
  assert (Hrefl : forall a, P a -> cmp a a <> Gt).
  { intros a Pa Haa. pose proof (proj1 (Hanti a a Pa Pa) Haa). congruence. }
  induction l as [|x l IH]; intros h HP Hh y Hy; [destruct Hy|].
  assert (Px : P x) by (apply HP; left; reflexivity).
  assert (HPl : forall a, In a l -> P a) by (intros a Ha; apply HP; right; exact Ha).
  rewrite head_stable_sort_cons in Hh.
  destruct (hd_error (stable_sort cmp l)) as [h'|] eqn:Eh.
  - assert (Hh' : In h' l).
    { apply In_stable_sort. destruct (stable_sort cmp l); inversion Eh. left; reflexivity. }
    assert (Ph' : P h') by (apply HPl; exact Hh').
    assert (Hx : forall z, In z l -> cmp h' z <> Gt)
      by (intros z Hz; apply Hle; auto; apply (IH h' HPl eq_refl z Hz)).
    assert (Py : P y) by (apply HP; exact Hy).
    destruct (cmp x h') eqn:Exh; inversion Hh; subst h; apply Hle; auto.
    + destruct Hy as [<-|Hy]; [apply Hrefl; exact Px|].
      apply (Htrans x h' y Px Ph' Py); [congruence | apply Hx; exact Hy].
    + destruct Hy as [<-|Hy]; [apply Hrefl; exact Px|].
      apply (Htrans x h' y Px Ph' Py); [congruence | apply Hx; exact Hy].
    + destruct Hy as [<-|Hy]; [|apply Hx; exact Hy].
      apply Hanti in Exh; auto. congruence.
  - inversion Hh; subst h.
    destruct l as [|z l]; [|simpl in Eh; destruct (stable_sort cmp l) as [|w ws];
      simpl in Eh; [discriminate Eh | destruct (cmp z w); discriminate Eh]].
    destruct Hy as [<-|[]]. intros Hxx.
    pose proof (proj2 (Hanti x x Px Px) Hxx). congruence.
Qed.

End Sorting.

Section Transport.
Context {A B : Type}.
Variable f : A -> B.
Variable cmpA : A -> A -> comparison.
Variable cmpB : B -> B -> comparison.

Lemma insert_map (x : A) (l : list A) :
  (forall y, In y l -> cmpB (f x) (f y) = cmpA x y) ->
  insert cmpB (f x) (map f l) = map f (insert cmpA x l).
Proof.
  induction l as [|z l IH]; intros H; simpl; [reflexivity|].
  rewrite (H z) by (left; reflexivity).
  destruct (cmpA x z); simpl; try reflexivity.
  rewrite IH; [reflexivity|]. intros y Hy. apply H. right. exact Hy.
Qed.

(** Sorting commutes with a projection that preserves the comparison. *)
Lemma stable_sort_map (l : list A) :
  (forall x y, In x l -> In y l -> cmpB (f x) (f y) = cmpA x y) ->
  stable_sort cmpB (map f l) = map f (stable_sort cmpA l).
Proof.
  induction l as [|x l IH]; intros H; simpl; [reflexivity|].
  rewrite IH by (intros; apply H; right; assumption).
  apply insert_map. intros y Hy.
  apply H; [left; reflexivity|].
  right. apply In_stable_sort in Hy. exact Hy.
Qed.

End Transport.

End SortFacts.

(* ===================================================================== *)
(** * The nearest-annotation resolver meets its specification *)
(* ===================================================================== *)

Module ResolverFacts.
Import JS Resolver.

#[local] Open Scope float_scope.

(** ** Per-candidate metrics *)

Lemma measure_spec (l b r t : number) (offset : Offset) :
  measure l b r t offset =
  (Spec.distance (l, b, r, t) offset, Spec.containsPoint (l, b, r, t) offset).
Proof.
  unfold measure, Spec.distance, Spec.containsPoint, Spec.withinb, Spec.euclidean,
    Spec.centerX, Spec.centerY, geb.
  destruct (o_left offset) as [x|], (o_top offset) as [y|]; try reflexivity.
  destruct ((l <=? x) && (x <=? r) && (b <=? y) && (y <=? t)); reflexivity.
Qed.

Lemma withinb_within (l b r t x y : number) :
  Spec.withinb l b r t x y = true <-> Spec.within l b r t x y.
Proof.
  unfold Spec.withinb, Spec.within, Spec.le.
  rewrite !andb_true_iff. tauto.
Qed.

(** C3. For a candidate with a valid rect [left, bottom, right, top], the
    loop pushes exactly one record, and its metrics are: [containsPoint]
    holds iff both [offset.left] and [offset.top] are defined and the
    point lies within the rect, edges included; [distance] is [0] when
    [containsPoint] holds; otherwise it is the Euclidean distance to the
    rect's center when both coordinates are defined, and the absolute
    difference to the center's matching coordinate when exactly one is. *)
Theorem candidate_metrics (annot : AnnotationData) (offset : Offset)
    (l b r t : number) (rest : list number) :
  rect annot = Some (l :: b :: r :: t :: rest) ->
  exists (distance : number) (containsPoint : bool),
    metrics (visit offset ([], []) annot) = [(distance, containsPoint)] /\
    (containsPoint = true <->
       exists x y, o_left offset = Some x /\ o_top offset = Some y /\
                   Spec.within l b r t x y) /\
    (containsPoint = true -> distance = 0) /\
    (containsPoint = false ->
       forall x y, o_left offset = Some x -> o_top offset = Some y ->
       distance = Spec.euclidean x y (Spec.centerX l r) (Spec.centerY b t)) /\
    (forall x, o_left offset = Some x -> o_top offset = None ->
       distance = abs (x - Spec.centerX l r)) /\
    (forall y, o_left offset = None -> o_top offset = Some y ->
       distance = abs (y - Spec.centerY b t)).
Proof.
  intros Hrect.
  exists (Spec.distance (l, b, r, t) offset), (Spec.containsPoint (l, b, r, t) offset).
  split.
  - unfold visit. rewrite Hrect, measure_spec.
    destruct (String.eqb (subtype annot) "Text"); reflexivity.
  - unfold Spec.distance, Spec.containsPoint.
    destruct (o_left offset) as [x|] eqn:Ex, (o_top offset) as [y|] eqn:Ey;
      [destruct (Spec.withinb l b r t x y) eqn:W| | |];
      (split; [|split; [|split; [|split]]]); try congruence.
    + split; [|reflexivity].
      intros _. exists x, y. split; [reflexivity|]. split; [reflexivity|].
      apply withinb_within. exact W.
    + split; [discriminate|].
      intros (x' & y' & Hx & Hy & Hw). inversion Hx; inversion Hy; subst.
      apply withinb_within in Hw. congruence.
    + split; [discriminate|]. intros (x' & y' & _ & Hy & _). discriminate.
    + split; [discriminate|]. intros (x' & y' & Hx & _). discriminate.
    + split; [discriminate|]. intros (x' & y' & Hx & _). discriminate.
Qed.

Lemma candidate_metrics_witness :
  exists (distance : number) (containsPoint : bool),
    metrics (visit (mkOffset (Some 3) (Some 4)) ([], [])
               (mkAnnot "12R" "Highlight" (Some [0; 0; 10; 10])))
    = [(distance, containsPoint)] /\ containsPoint = true /\ distance = 0.
Proof.
  destruct (candidate_metrics (mkAnnot "12R" "Highlight" (Some [0; 0; 10; 10]))
              (mkOffset (Some 3) (Some 4)) 0 0 10 10 [] eq_refl)
    as (d & c & Hm & Hc & Hd & _).
  exists d, c. split; [exact Hm|].
  assert (Hin : c = true).
  { apply Hc. exists 3, 4. split; [reflexivity|]. split; [reflexivity|].
    unfold Spec.within, Spec.le. repeat split; reflexivity. }
  split; [exact Hin|]. apply Hd. exact Hin.
Defined.

(** ** The loop as a filter and a partition *)

Definition toCandidate (offset : Offset) (c : Spec.Scored) : Candidate :=
  mkCandidate (id (fst c)) (Spec.distance (snd c) offset)
    (includes textMarkupSubtypes (subtype (fst c)))
    (Spec.containsPoint (snd c) offset) (subtype (fst c)).

Definition toTextCandidate (offset : Offset) (c : Spec.Scored) : TextCandidate :=
  mkTextCandidate (id (fst c)) (Spec.distance (snd c) offset)
    (Spec.containsPoint (snd c) offset).

Definition markupLike (l : list Spec.Scored) : list Spec.Scored :=
  List.filter (fun c => negb (Spec.isStickyNote (fst c))) l.

Definition noteLike (l : list Spec.Scored) : list Spec.Scored :=
  List.filter (fun c => Spec.isStickyNote (fst c)) l.

Lemma visit_skip (offset : Offset) acc (annot : AnnotationData) :
  Spec.validRect annot = None -> visit offset acc annot = acc.
Proof.
  unfold Spec.validRect, visit.
  destruct (rect annot) as [[|l [|b [|r [|t rest]]]]|]; intros H;
    try reflexivity; discriminate.
Qed.

Lemma visit_push (offset : Offset) acc (annot : AnnotationData) q :
  Spec.validRect annot = Some q ->
  visit offset acc annot =
  if Spec.isStickyNote annot
  then (fst acc, (snd acc ++ [toTextCandidate offset (annot, q)])%list)
  else ((fst acc ++ [toCandidate offset (annot, q)])%list, snd acc).
Proof.
  unfold Spec.validRect, visit, Spec.isStickyNote.
  destruct (rect annot) as [[|l [|b [|r [|t rest]]]]|]; intros H;
    try discriminate.
  inversion H; subst q. rewrite measure_spec.
  destruct (String.eqb (subtype annot) "Text"); reflexivity.
Qed.

Lemma fold_visit (offset : Offset) (annotations : list AnnotationData) :
  forall cs ts,
    fold_left (visit offset) annotations (cs, ts) =
    ((cs ++ map (toCandidate offset) (markupLike (Spec.withValidRect annotations)))%list,
     (ts ++ map (toTextCandidate offset) (noteLike (Spec.withValidRect annotations)))%list).
Proof.
  induction annotations as [|a annotations IH]; intros cs ts; simpl.
  - rewrite !app_nil_r. reflexivity.
  - unfold Spec.withValidRect in *. simpl omap.
    destruct (Spec.validRect a) as [q|] eqn:V.
    + rewrite (visit_push _ _ _ _ V). simpl fst; simpl snd.
      unfold markupLike, noteLike in *. simpl List.filter.
      destruct (Spec.isStickyNote a) eqn:S; simpl negb; cbv iota;
        rewrite IH; simpl map; rewrite <- app_assoc; reflexivity.
    + rewrite (visit_skip _ _ _ V). apply IH.
Qed.

(** ** The comparators order by the lexicographic key *)

Lemma SortCompare_difference (a b : number) :
  (if (a - b <? 0) then Lt else if (0 <? a - b) then Gt else Eq) = Spec.ascending a b.
Proof.
  unfold Spec.ascending.
  rewrite FloatOrder.sub_neg_iff_lt, FloatOrder.sub_pos_iff_gt. reflexivity.
Qed.

Lemma includes_textMarkupSubtypes (a : AnnotationData) :
  includes textMarkupSubtypes (subtype a) = Spec.isTextMarkupSubtype a.
Proof.
  unfold includes, textMarkupSubtypes, Spec.isTextMarkupSubtype. simpl existsb.
  destruct (String.eqb (subtype a) "Highlight"), (String.eqb (subtype a) "Underline"),
    (String.eqb (subtype a) "Squiggly"), (String.eqb (subtype a) "StrikeOut"); reflexivity.
Qed.

Lemma stickyNote_not_textMarkup (a : AnnotationData) :
  Spec.isStickyNote a = true -> Spec.isTextMarkupSubtype a = false.
Proof.
  unfold Spec.isStickyNote, Spec.isTextMarkupSubtype. intros H.
  apply String.eqb_eq in H. rewrite H. reflexivity.
Qed.

Lemma compareCandidates_key (offset : Offset) (x y : Spec.Scored) :
  SortCompare compareCandidates (toCandidate offset x) (toCandidate offset y) =
  Spec.compareKeys (Spec.key offset x) (Spec.key offset y).
Proof.
  unfold SortCompare, compareCandidates, Spec.compareKeys, Spec.key, toCandidate.
  cbn [c_containsPoint c_isTextMarkup c_distance
       Spec.k_containsPoint Spec.k_isTextMarkup Spec.k_distance].
  rewrite !includes_textMarkupSubtypes.
  destruct (Spec.containsPoint (snd x) offset), (Spec.containsPoint (snd y) offset);
    try reflexivity;
    destruct (Spec.isTextMarkupSubtype (fst x)), (Spec.isTextMarkupSubtype (fst y));
    try reflexivity; apply SortCompare_difference.
Qed.

Lemma compareText_key (offset : Offset) (x y : Spec.Scored) :
  Spec.isStickyNote (fst x) = true -> Spec.isStickyNote (fst y) = true ->
  SortCompare compareText (toTextCandidate offset x) (toTextCandidate offset y) =
  Spec.compareKeys (Spec.key offset x) (Spec.key offset y).
Proof.
  intros Sx Sy.
  unfold SortCompare, compareText, Spec.compareKeys, Spec.key, toTextCandidate.
  cbn [t_containsPoint t_distance
       Spec.k_containsPoint Spec.k_isTextMarkup Spec.k_distance].
  rewrite (stickyNote_not_textMarkup _ Sx), (stickyNote_not_textMarkup _ Sy).
  destruct (Spec.containsPoint (snd x) offset), (Spec.containsPoint (snd y) offset);
    try reflexivity; apply SortCompare_difference.
Qed.

Lemma map_eq_nil_length {A B} (f : A -> B) (l : list A) :
  (length (map f l) =? 0)%nat = match l with [] => true | _ :: _ => false end.
Proof. destruct l; reflexivity. Qed.

(** The function from [getAnnotations()] on computes [Spec.resolve]. *)
Lemma closestAmong_resolve (annotations : list AnnotationData) (offset : Offset) :
  closestAmong annotations offset = Spec.resolve annotations offset.
Proof.
  unfold closestAmong, Spec.resolve.
  destruct annotations as [|a0 rest]; [reflexivity|].
  cbn [length Nat.eqb].
  generalize (a0 :: rest) as annotations. clear a0 rest. intros annotations.
  rewrite fold_visit. simpl app.
  fold (markupLike (Spec.withValidRect annotations)).
  fold (noteLike (Spec.withValidRect annotations)).
  set (valid := Spec.withValidRect annotations).
  rewrite !map_eq_nil_length.
  destruct (markupLike valid) as [|m ms] eqn:Em.
  - destruct (noteLike valid) as [|n ns] eqn:En; [reflexivity|].
    unfold Array_sort.
    rewrite (SortFacts.stable_sort_map (toTextCandidate offset)
               (fun c1 c2 => Spec.compareKeys (Spec.key offset c1) (Spec.key offset c2))).
    + destruct (stable_sort _ (n :: ns)); reflexivity.
    + intros x y Hx Hy. rewrite <- En in Hx, Hy.
      apply filter_In in Hx as [_ Hx]. apply filter_In in Hy as [_ Hy].
      apply compareText_key; assumption.
  - unfold Array_sort.
    rewrite (SortFacts.stable_sort_map (toCandidate offset)
               (fun c1 c2 => Spec.compareKeys (Spec.key offset c1) (Spec.key offset c2))).
    + destruct (stable_sort _ (m :: ms)); reflexivity.
    + intros x y _ _. apply compareCandidates_key.
Qed.


(** ** Sticky notes are a fallback *)

Lemma In_withValidRect (a : AnnotationData) q (l : list AnnotationData) :
  In (a, q) (Spec.withValidRect l) <-> In a l /\ Spec.validRect a = Some q.
Proof.
  unfold Spec.withValidRect.
  induction l as [|b l IH]; simpl.
  - tauto.
  - destruct (Spec.validRect b) as [qb|] eqn:V; simpl; rewrite IH.
    + split.
      * intros [H|H]; [inversion H; subst; auto | tauto].
      * intros [[H|H] Hq]; [subst; left; congruence | tauto].
    + split; [tauto|]. intros [[H|H] Hq]; [subst; congruence | tauto].
Qed.

Lemma withValidRect_app (l1 l2 : list AnnotationData) :
  Spec.withValidRect (l1 ++ l2) = (Spec.withValidRect l1 ++ Spec.withValidRect l2)%list.
Proof.
  unfold Spec.withValidRect. apply omap_app.
Qed.

Lemma compareKeys_contains_first (k1 k2 : Spec.Key) :
  Spec.k_containsPoint k1 = true -> Spec.k_containsPoint k2 = false ->
  Spec.compareKeys k1 k2 = Lt /\ Spec.compareKeys k2 k1 = Gt.
Proof.
  unfold Spec.compareKeys. intros -> ->. split; reflexivity.
Qed.

(** When exactly one element of a list contains the point, sorting by
    the key brings it to the front. *)
Lemma sole_container_first (offset : Offset) (pre post : list Spec.Scored) (c : Spec.Scored) :
  Spec.containsPoint (snd c) offset = true ->
  (forall d, In d (pre ++ post) -> Spec.containsPoint (snd d) offset = false) ->
  hd_error (stable_sort (fun c1 c2 => Spec.compareKeys (Spec.key offset c1) (Spec.key offset c2))
              (pre ++ c :: post)) = Some c.
Proof.
  intros Hc Hothers.
  set (cmp := fun c1 c2 => Spec.compareKeys (Spec.key offset c1) (Spec.key offset c2)).
  induction pre as [|p pre IH]; simpl app.
  - rewrite SortFacts.head_stable_sort_cons.
    destruct (hd_error (stable_sort cmp post)) as [h|] eqn:Eh; [|reflexivity].
    assert (Hh : In h post).
    { apply (SortFacts.In_stable_sort cmp).
      destruct (stable_sort cmp post); inversion Eh; subst. left; reflexivity. }
    unfold cmp.
    destruct (compareKeys_contains_first (Spec.key offset c) (Spec.key offset h)) as [-> _];
      [exact Hc | apply Hothers; exact Hh | reflexivity].
  - rewrite SortFacts.head_stable_sort_cons.
    rewrite IH by (intros d Hd; apply Hothers; right; exact Hd).
    unfold cmp.
    destruct (compareKeys_contains_first (Spec.key offset c) (Spec.key offset p)) as [_ ->];
      [exact Hc | apply Hothers; left; reflexivity | reflexivity].
Qed.

Lemma filter_all {A} (f : A -> bool) (l : list A) :
  (forall x, In x l -> f x = true) -> List.filter f l = l.
Proof.
  induction l as [|x l IH]; intros H; simpl; [reflexivity|].
  rewrite (H x) by (left; reflexivity). f_equal. apply IH. intros; apply H; right; assumption.
Qed.

Lemma filter_none {A} (f : A -> bool) (l : list A) :
  (forall x, In x l -> f x = false) -> List.filter f l = [].
Proof.
  induction l as [|x l IH]; intros H; simpl; [reflexivity|].
  rewrite (H x) by (left; reflexivity). apply IH. intros; apply H; right; assumption.
Qed.

(** A page with a sticky note over [0,100]x[0,100] and a highlight over
    [101,111]x[95,105], and the target point (99, 99): the note contains
    the point, the highlight does not, and the highlight's center is the
    closer one. *)
Definition noteOverPoint : AnnotationData :=
  mkAnnot "7R" "Text" (Some [0; 0; 100; 100]).
Definition highlightNearby : AnnotationData :=
  mkAnnot "9R" "Highlight" (Some [101; 95; 111; 105]).

Example noteOverPoint_highlightNearby :
  closestAmong [noteOverPoint; highlightNearby] (mkOffset (Some 99) (Some 99)) = Some "9R".
Proof. vm_compute. reflexivity. Qed.

(** C2, as stated, fails: with a markup-like candidate present the
    resolver returns it, not the sticky note that contains the point. *)
Lemma containment_beats_distance_fails : ~ containment_beats_distance.
Proof.
  intros claim.
  specialize (claim [noteOverPoint; highlightNearby] 99 99 noteOverPoint highlightNearby
                (0, 0, 100, 100) (101, 95, 111, 105)).
  assert (H : closestAmong [noteOverPoint; highlightNearby] (mkOffset (Some 99) (Some 99))
              = Some (id noteOverPoint)).
  { apply claim; try reflexivity.
    - left; reflexivity.
    - right; left; reflexivity. }
  rewrite noteOverPoint_highlightNearby in H. discriminate H.
Qed.

(** C2, amended. (a) As soon as one markup-like candidate with a valid
    rect exists, the id returned is that of a markup-like candidate with a
    valid rect: a sticky note is not returned, whether or not it contains
    the target point.  (b) When no markup-like candidate exists at all and
    the only candidate containing the point is a sticky note, that sticky
    note's id is returned. *)
Theorem sticky_note_only_as_fallback :
  (forall (annotations : list AnnotationData) (offset : Offset)
          (markup : AnnotationData) qm,
      In markup annotations ->
      Spec.isStickyNote markup = false -> Spec.validRect markup = Some qm ->
      exists winner qw,
        In winner annotations /\ Spec.isStickyNote winner = false /\
        Spec.validRect winner = Some qw /\
        closestAmong annotations offset = Some (id winner)) /\
  (forall (pre post : list AnnotationData) (note : AnnotationData) q (offset : Offset),
      Spec.isStickyNote note = true -> Spec.validRect note = Some q ->
      Spec.containsPoint q offset = true ->
      (forall a, In a (pre ++ post)%list ->
         Spec.isStickyNote a = true /\
         forall qa, Spec.validRect a = Some qa -> Spec.containsPoint qa offset = false) ->
      closestAmong (pre ++ note :: post)%list offset = Some (id note)).
Proof.
  split.
  - intros annotations offset markup qm Hin Hsticky Hvalid.
    rewrite closestAmong_resolve. unfold Spec.resolve.
    fold (markupLike (Spec.withValidRect annotations)).
    assert (Hm : In (markup, qm) (markupLike (Spec.withValidRect annotations))).
    { apply filter_In. split; [apply In_withValidRect; auto|].
      simpl. rewrite Hsticky. reflexivity. }
    destruct (markupLike (Spec.withValidRect annotations)) as [|m ms] eqn:Em;
      [destruct Hm|].
    set (cmp := fun c1 c2 => Spec.compareKeys (Spec.key offset c1) (Spec.key offset c2)).
    destruct (stable_sort cmp (m :: ms)) as [|w ws] eqn:Es.
    + pose proof (SortFacts.length_stable_sort cmp (m :: ms)) as Hl.
      rewrite Es in Hl. discriminate Hl.
    + assert (Hw : In w (m :: ms)).
      { apply (SortFacts.In_stable_sort cmp). rewrite Es. left; reflexivity. }
      rewrite <- Em in Hw. apply filter_In in Hw as [Hw Hns].
      destruct w as [winner qw]. apply In_withValidRect in Hw as [Hw1 Hw2].
      exists winner, qw. simpl in Hns.
      repeat split; try assumption.
      destruct (Spec.isStickyNote winner); [discriminate Hns | reflexivity].
  - intros pre post note q offset Hsticky Hvalid Hcontains Hothers.
    rewrite closestAmong_resolve. unfold Spec.resolve.
    set (valid := Spec.withValidRect (pre ++ note :: post)).
    assert (Hall : forall c, In c valid -> Spec.isStickyNote (fst c) = true).
    { intros [a qa] Hc. apply In_withValidRect in Hc as [Hc _]. simpl.
      apply in_app_or in Hc as [Hc|[Hc|Hc]];
        [apply Hothers, in_or_app; left; exact Hc
        | subst; exact Hsticky
        | apply Hothers, in_or_app; right; exact Hc]. }
    rewrite (filter_none (fun c => negb (Spec.isStickyNote (fst c))) valid)
      by (intros c Hc; rewrite (Hall c Hc); reflexivity).
    rewrite (filter_all (fun c => Spec.isStickyNote (fst c)) valid) by exact Hall.
    assert (Hv : valid = (Spec.withValidRect pre ++ (note, q) :: Spec.withValidRect post)%list).
    { unfold valid. rewrite withValidRect_app. f_equal.
      unfold Spec.withValidRect at 1. simpl omap. rewrite Hvalid. reflexivity. }
    rewrite Hv.
    pose proof (sole_container_first offset (Spec.withValidRect pre)
                  (Spec.withValidRect post) (note, q) Hcontains) as Hhd.
    destruct (stable_sort _ _) as [|first rest].
    + discriminate Hhd.
      intros [a qa] Hd. apply in_app_or in Hd.
      simpl. destruct Hd as [Hd|Hd]; apply In_withValidRect in Hd as [Hd1 Hd2];
        refine (proj2 (Hothers a _) qa Hd2); apply in_or_app; auto.
    + simpl in Hhd. specialize (Hhd ltac:(
        intros [a qa] Hd; apply in_app_or in Hd; simpl;
        destruct Hd as [Hd|Hd]; apply In_withValidRect in Hd as [Hd1 Hd2];
        refine (proj2 (Hothers a _) qa Hd2); apply in_or_app; auto)).
      inversion Hhd. reflexivity.
Qed.

Lemma sticky_note_only_as_fallback_witness :
  (exists winner qw,
      In winner [noteOverPoint; highlightNearby] /\ Spec.isStickyNote winner = false /\
      Spec.validRect winner = Some qw /\
      closestAmong [noteOverPoint; highlightNearby] (mkOffset (Some 99) (Some 99))
      = Some (id winner)) /\
  closestAmong [mkAnnot "3R" "Text" (Some [200; 200; 210; 210]); noteOverPoint]
    (mkOffset (Some 99) (Some 99)) = Some "7R".
Proof.
  split.
  - apply (proj1 sticky_note_only_as_fallback [noteOverPoint; highlightNearby]
             (mkOffset (Some 99) (Some 99)) highlightNearby (101, 95, 111, 105)).
    + right; left; reflexivity.
    + reflexivity.
    + reflexivity.
  - apply (proj2 sticky_note_only_as_fallback
             [mkAnnot "3R" "Text" (Some [200; 200; 210; 210])] [] noteOverPoint
             (0, 0, 100, 100) (mkOffset (Some 99) (Some 99))).
    + reflexivity.
    + reflexivity.
    + reflexivity.
    + intros a [Ha|[]]. subst a. split; [reflexivity|].
      intros qa Hq. inversion Hq. reflexivity.
Defined.

(** ** The resolver on examples *)

(** Three candidates at the same distance, a link, a sticky note and a
    highlight: the highlight is returned. *)
Example text_markup_outranks_link :
  closestAmong
    [mkAnnot "1R" "Link" (Some [0; 0; 10; 10]);
     mkAnnot "2R" "Text" (Some [0; 0; 10; 10]);
     mkAnnot "3R" "Highlight" (Some [0; 0; 10; 10])]
    (mkOffset (Some 50) (Some 50))
  = Some "3R".
Proof. vm_compute. reflexivity. Qed.

(** Among candidates of one kind that do not contain the point, the
    nearest center wins; with [left] undefined only the vertical distance
    counts. *)
Example nearest_center_wins :
  closestAmong
    [mkAnnot "1R" "Highlight" (Some [0; 0; 10; 10]);
     mkAnnot "2R" "Highlight" (Some [0; 40; 10; 50]);
     mkAnnot "3R" "Highlight" (Some [300; 90; 310; 100])]
    (mkOffset None (Some 80))
  = Some "3R".
Proof. vm_compute. reflexivity. Qed.

(** A candidate whose rect has fewer than four components is left out,
    and with nothing else on the page the result is [null]. *)
Example short_rect_is_left_out :
  closestAmong [mkAnnot "1R" "Highlight" (Some [0; 0; 10]); mkAnnot "2R" "Link" None]
    (mkOffset (Some 5) (Some 5))
  = None.
Proof. vm_compute. reflexivity. Qed.

(** ** The first element has a least key

    As long as no distance is [NaN] (the coordinates are ordinary
    numbers), the comparison of keys is a consistent one, so the candidate
    returned is one that no candidate of the chosen partition precedes. *)

Definition ordinary (target : Offset) (c : Spec.Scored) : Prop :=
  isNaN (Spec.distance (snd c) target) = false.

Lemma ascending_ord (x y : number) :
  isNaN x = false -> isNaN y = false ->
  Spec.ascending x y = (FloatOrder.ord (Prim2SF x) ?= FloatOrder.ord (Prim2SF y))%Z.
Proof.
  intros Nx Ny. unfold Spec.ascending, isNaN in *.
  rewrite (FloatOrder.ltb_ord x y Nx Ny), (FloatOrder.ltb_ord y x Ny Nx).
  unfold Z.ltb. rewrite (Z.compare_antisym (FloatOrder.ord (Prim2SF x))).
  destruct (_ ?= _)%Z; reflexivity.
Qed.

Lemma compareKeys_consistent (target : Offset) :
  let cmp := fun c1 c2 => Spec.compareKeys (Spec.key target c1) (Spec.key target c2) in
  (forall a b, ordinary target a -> ordinary target b -> (cmp a b = Gt <-> cmp b a = Lt)) /\
  (forall a b c, ordinary target a -> ordinary target b -> ordinary target c ->
     cmp a b <> Gt -> cmp b c <> Gt -> cmp a c <> Gt).
Proof.
  unfold ordinary, Spec.compareKeys, Spec.key. cbv zeta.
  cbn [Spec.k_containsPoint Spec.k_isTextMarkup Spec.k_distance].
  split.
  - intros a b Na Nb. rewrite !(ascending_ord _ _ Na Nb), !(ascending_ord _ _ Nb Na).
    rewrite (Z.compare_antisym (FloatOrder.ord (Prim2SF (Spec.distance (snd a) target)))).
    destruct (Spec.containsPoint (snd a) target), (Spec.containsPoint (snd b) target),
      (Spec.isTextMarkupSubtype (fst a)), (Spec.isTextMarkupSubtype (fst b));
      simpl; try (split; congruence);
      destruct (_ ?= _)%Z; simpl; split; congruence.
  - intros a b c Na Nb Nc.
    rewrite !(ascending_ord _ _ Na Nb), !(ascending_ord _ _ Nb Nc), !(ascending_ord _ _ Na Nc).
    destruct (Spec.containsPoint (snd a) target), (Spec.containsPoint (snd b) target),
      (Spec.containsPoint (snd c) target),
      (Spec.isTextMarkupSubtype (fst a)), (Spec.isTextMarkupSubtype (fst b)),
      (Spec.isTextMarkupSubtype (fst c));
      simpl; try congruence;
      rewrite !Z.compare_gt_iff; lia.
Qed.

Lemma first_has_least_key (target : Offset) (chosen : list Spec.Scored) (first : Spec.Scored) :
  (forall c, In c chosen -> ordinary target c) ->
  hd_error (stable_sort (fun c1 c2 => Spec.compareKeys (Spec.key target c1) (Spec.key target c2))
              chosen) = Some first ->
  forall c, In c chosen ->
    Spec.compareKeys (Spec.key target c) (Spec.key target first) <> Lt.
Proof.
  intros Hord Hhd c Hc.
  destruct (compareKeys_consistent target) as [Hanti Htrans].
  exact (SortFacts.head_minimal _ (ordinary target) chosen first Hanti Htrans Hord Hhd c Hc).
Qed.

End ResolverFacts.

(* ===================================================================== *)
(** * Facts about the string primitives *)
(* ===================================================================== *)

Module StringFacts.
Import JS.

Lemma append_cons (c : ascii) (s t : string) : String c s ++ t = String c (s ++ t).
Proof. reflexivity. Qed.

Lemma length_append (s t : string) :
  String.length (s ++ t) = (String.length s + String.length t)%nat.
Proof.
  induction s as [|c s IH]; [reflexivity|].
  rewrite append_cons. simpl String.length. rewrite IH. reflexivity.
Qed.

Lemma append_assoc (s t u : string) : (s ++ t) ++ u = s ++ (t ++ u).
Proof.
  induction s as [|c s IH]; [reflexivity|].
  rewrite !append_cons. rewrite IH. reflexivity.
Qed.

Lemma append_empty_r (s : string) : s ++ "" = s.
Proof.
  induction s as [|c s IH]; [reflexivity|].
  rewrite append_cons, IH. reflexivity.
Qed.

Lemma drop_append (s t : string) : drop (String.length s) (s ++ t) = t.
Proof.
  induction s as [|c s IH]; [destruct t; reflexivity|].
  rewrite append_cons. exact IH.
Qed.

Lemma take_append (s t : string) : take (String.length s) (s ++ t) = s.
Proof.
  induction s as [|c s IH]; [destruct t; reflexivity|].
  rewrite append_cons. simpl. rewrite IH. reflexivity.
Qed.

Lemma take_all (s : string) : take (String.length s) s = s.
Proof. rewrite <- (append_empty_r s) at 2. apply take_append. Qed.

Lemma drop_0 (s : string) : drop 0 s = s.
Proof. destruct s; reflexivity. Qed.

Ltac slice_bounds n m :=
  match goal with
  | |- take ?x (drop ?y _) = _ =>
      replace x with n by lia; replace y with m by lia
  end.

(** Cutting [b] out of [a ++ b ++ c] by [slice(|a|, -|c|)]. *)
Lemma slice_middle (a b c : string) :
  (0 < String.length c)%nat ->
  slice (a ++ b ++ c) (Z.of_nat (String.length a)) (- Z.of_nat (String.length c)) = b.
Proof.
  intros Hc. unfold slice. cbv zeta. rewrite !length_append.
  destruct (Z.ltb_spec (Z.of_nat (String.length a)) 0) as [H|_]; [lia|].
  destruct (Z.ltb_spec (- Z.of_nat (String.length c)) 0) as [H|H]; [|lia].
  slice_bounds (String.length b) (String.length a).
  rewrite drop_append. apply take_append.
Qed.

(** [slice(0, |a|)] and [slice(|a|)] split [a ++ b] back into [a], [b]. *)
Lemma slice_prefix (a b : string) :
  slice (a ++ b) 0 (Z.of_nat (String.length a)) = a.
Proof.
  unfold slice. cbv zeta. rewrite length_append.
  change (0 <? 0)%Z with false. cbv iota.
  destruct (Z.ltb_spec (Z.of_nat (String.length a)) 0) as [H|_]; [lia|].
  slice_bounds (String.length a) 0%nat.
  rewrite drop_0. apply take_append.
Qed.

Lemma sliceFrom_suffix (a b : string) :
  sliceFrom (a ++ b) (Z.of_nat (String.length a)) = b.
Proof.
  unfold sliceFrom, slice. cbv zeta. rewrite length_append.
  destruct (Z.ltb_spec (Z.of_nat (String.length a)) 0) as [H|_]; [lia|].
  destruct (Z.ltb_spec (Z.of_nat (String.length a + String.length b)) 0) as [H|_]; [lia|].
  slice_bounds (String.length b) (String.length a).
  rewrite drop_append. apply take_all.
Qed.

Lemma indexOf_bounds (s : string) (c : ascii) : (-1 <= indexOf s c)%Z.
Proof.
  induction s as [|a s IH]; simpl; [lia|].
  destruct (Ascii.eqb a c); [lia|].
  destruct (Z.ltb_spec (indexOf s c) 0); lia.
Qed.

(** The first occurrence of [c] in [a ++ c :: b], when [a] has none. *)
Lemma indexOf_first (a b : string) (c : ascii) :
  indexOf a c = (-1)%Z ->
  indexOf (a ++ String c b) c = Z.of_nat (String.length a).
Proof.
  induction a as [|x a IH]; intros H.
  - simpl. rewrite Ascii.eqb_refl. reflexivity.
  - rewrite append_cons. simpl in *.
    destruct (Ascii.eqb x c); [discriminate H|].
    destruct (Z.ltb_spec (indexOf a c) 0) as [Hneg|Hpos]; [|lia].
    pose proof (indexOf_bounds a c).
    rewrite IH by lia.
    destruct (Z.ltb_spec (Z.of_nat (String.length a)) 0); lia.
Qed.

Lemma indexOf_absent_append (a : string) (c : ascii) :
  indexOf a c = (-1)%Z -> forall x b, indexOf (a ++ String x b) c = (-1)%Z ->
  Ascii.eqb x c = false.
Proof.
  intros Ha x b. induction a as [|y a IH]; simpl in *.
  - destruct (Ascii.eqb x c); [discriminate|reflexivity].
  - destruct (Ascii.eqb y c); [discriminate Ha|].
    destruct (Z.ltb_spec (indexOf a c) 0) as [Hneg|Hpos]; [|lia].
    pose proof (indexOf_bounds a c).
    destruct (Z.ltb_spec (indexOf (a ++ String x b) c) 0) as [Hn|Hp]; [|lia].
    pose proof (indexOf_bounds (a ++ String x b) c).
    intros _. apply IH; lia.
Qed.

End StringFacts.

(* ===================================================================== *)
(** * Facts about pattern matching on tokens *)
(* ===================================================================== *)

Module MatchFacts.
Import JS StringFacts.

Lemma prefix_empty (s : string) : String.prefix "" s = true.
Proof. destruct s; reflexivity. Qed.

Lemma prefix_cons (a b : ascii) (p s : string) :
  String.prefix (String a p) (String b s) = Ascii.eqb a b && String.prefix p s.
Proof.
  simpl. destruct (ascii_dec a b) as [->|Hne].
  - rewrite Ascii.eqb_refl. reflexivity.
  - apply Ascii.eqb_neq in Hne. rewrite Hne. reflexivity.
Qed.

Lemma prefix_append (p s t : string) :
  String.prefix p s = true -> String.prefix p (s ++ t) = true.
Proof.
  revert s. induction p as [|a p IH]; intros s H; [apply prefix_empty|].
  destruct s as [|b s]; [discriminate H|].
  rewrite append_cons, prefix_cons in *.
  apply andb_prop in H as [-> H]. simpl. apply IH. exact H.
Qed.

Lemma prefix_drop_append (p s t : string) :
  String.prefix p s = true ->
  drop (String.length p) (s ++ t) = drop (String.length p) s ++ t.
Proof.
  revert s. induction p as [|a p IH]; intros s H.
  - simpl String.length. rewrite !drop_0. reflexivity.
  - destruct s as [|b s]; [discriminate H|].
    rewrite prefix_cons in H. apply andb_prop in H as [_ H].
    rewrite append_cons. simpl. apply IH. exact H.
Qed.

(** A pattern without [&] cannot straddle an [&]. *)
Lemma prefix_before_ampersand (p s t : string) :
  indexOf p "&" = (-1)%Z ->
  String.prefix p (s ++ String "&" t) = true -> String.prefix p s = true.
Proof.
  revert s. induction p as [|a p IH]; intros s Hp H; [apply prefix_empty|].
  simpl in Hp. destruct (Ascii.eqb a "&") eqn:Ea; [discriminate Hp|].
  destruct (Z.ltb_spec (indexOf p "&") 0) as [Hneg|Hpos]; [|lia].
  pose proof (indexOf_bounds p "&").
  destruct s as [|b s].
  - change ("" ++ String "&" t) with (String "&" t) in H.
    rewrite prefix_cons, Ea in H. discriminate H.
  - rewrite append_cons in H. rewrite prefix_cons in *.
    apply andb_prop in H as [-> H]. simpl. apply (IH s); [lia | exact H].
Qed.

Lemma takeWhile_stop (class : ascii -> bool) (s t : string) (c : ascii) :
  class c = false -> takeWhile class (s ++ String c t) = takeWhile class s.
Proof.
  intros Hc. induction s as [|a s IH].
  - simpl. rewrite Hc. reflexivity.
  - rewrite append_cons. simpl. destruct (class a); [rewrite IH|]; reflexivity.
Qed.

Lemma matchAfter_unfold (p : string) (class : ascii -> bool) (s : string) :
  matchAfter p class s =
  match (if String.prefix p s
         then match takeWhile class (drop (String.length p) s) with
              | "" => None
              | run => Some run
              end
         else None) with
  | Some run => Some run
  | None => match s with
            | "" => None
            | String _ s' => matchAfter p class s'
            end
  end.
Proof. destruct s; reflexivity. Qed.

Lemma occurs_unfold (p s : string) :
  Links.Spec.occurs p s =
  String.prefix p s
  || match s with
     | String _ s' => Links.Spec.occurs p s'
     | "" => false
     end.
Proof. destruct s; reflexivity. Qed.

Lemma matchAfter_absent (p : string) (class : ascii -> bool) (s : string) :
  Links.Spec.occurs p s = false -> matchAfter p class s = None.
Proof.
  induction s as [|a s IH]; intros H; rewrite matchAfter_unfold;
    rewrite occurs_unfold in H; apply orb_false_elim in H as [Hpre H];
    rewrite Hpre.
  - reflexivity.
  - apply IH. exact H.
Qed.

(** Text appended after an [&] changes no match, as long as the pattern
    does not occur in it. *)
Lemma matchAfter_append (p : string) (class : ascii -> bool) (s extra : string) :
  p <> "" -> indexOf p "&" = (-1)%Z -> class "&"%char = false ->
  Links.Spec.occurs p extra = false ->
  matchAfter p class (s ++ String "&" extra) = matchAfter p class s.
Proof.
  intros Hne Hp Hclass Hocc.
  induction s as [|a s IH].
  - change ("" ++ String "&" extra) with (String "&" extra).
    rewrite (matchAfter_unfold p class (String "&" extra)).
    rewrite (matchAfter_unfold p class "").
    destruct p as [|b p]; [congruence|].
    rewrite prefix_cons. simpl in Hp.
    destruct (Ascii.eqb b "&"); [discriminate Hp|]. simpl.
    apply matchAfter_absent. exact Hocc.
  - rewrite append_cons.
    rewrite (matchAfter_unfold p class (String a (s ++ String "&" extra))).
    rewrite (matchAfter_unfold p class (String a s)).
    rewrite IH. rewrite <- !append_cons.
    destruct (String.prefix p (String a s)) eqn:Epre.
    + rewrite (prefix_append _ _ _ Epre).
      rewrite (prefix_drop_append _ _ _ Epre), takeWhile_stop by exact Hclass.
      reflexivity.
    + destruct (String.prefix p (String a s ++ String "&" extra)) eqn:Epre'; [|reflexivity].
      apply prefix_before_ampersand in Epre'; [congruence | exact Hp].
Qed.

End MatchFacts.

(* ===================================================================== *)
(** * Decoding and link resolution *)
(* ===================================================================== *)

Module LinksFacts.
Import JS Links StringFacts MatchFacts.

(** ** Field parsers *)

Lemma forallb_map_compose {A B} (f : B -> bool) (g : A -> B) (l : list A) :
  forallb f (map g l) = forallb (fun x => f (g x)) l.
Proof. induction l as [|x l IH]; simpl; [reflexivity|]. rewrite IH. reflexivity. Qed.

Lemma wellFormedRect_parts (value : string) :
  Spec.wellFormedRect value =
  let rectParts := map (fun s => parseFloat (trim s)) (split value ",") in
  (length rectParts =? 4)%nat && forallb (fun n => negb (isNaN n)) rectParts.
Proof.
  unfold Spec.wellFormedRect, Spec.isNumeric. cbv zeta.
  rewrite length_map, forallb_map_compose. reflexivity.
Qed.

Lemma parseRect_wellFormed (m : option string) :
  parseRect m <> None <->
  exists value, m = Some value /\ Spec.wellFormedRect value = true.
Proof.
  destruct m as [value|]; simpl.
  - pose proof (wellFormedRect_parts value) as Hw. cbv zeta in Hw. rewrite <- Hw.
    destruct (Spec.wellFormedRect value) eqn:E.
    + split; [intros _; exists value; split; [reflexivity | exact E]|].
      intros _. symmetry in Hw. apply andb_prop in Hw as [Hl _].
      apply Nat.eqb_eq in Hl.
      destruct (map _ (split value ",")) as [|p0 [|p1 [|p2 [|p3 [|p4 rest]]]]];
        try discriminate Hl.
      discriminate.
    + split; [congruence|]. intros (v & Hv & Hw'). inversion Hv; subst v. congruence.
  - split; [congruence|]. intros (v & Hv & _). discriminate Hv.
Qed.

Lemma parseOffset_components (m : option string) :
  parseOffset m =
  match m with
  | Some value =>
      match Spec.component value 0, Spec.component value 1 with
      | None, None => None
      | l, t => Some (Resolver.mkOffset l t)
      end
  | None => None
  end.
Proof.
  destruct m as [value|]; [|reflexivity].
  unfold parseOffset, Spec.component, Spec.isNumeric, parseComponent, isNumber.
  destruct (nth_error (split value ",") 0) as [c0|];
    destruct (nth_error (split value ",") 1) as [c1|]; simpl option_map; cbv iota beta.
  all: repeat match goal with
         | |- context [String.eqb (trim ?c) ""] => destruct (String.eqb (trim c) ""); simpl
         | |- context [isNaN (parseFloat (trim ?c))] =>
             destruct (isNaN (parseFloat (trim c))); simpl
         end; reflexivity.
Qed.

(** ** Decoding a destination token *)

Example decode_offset_one_component :
  decodeSubpath "#page=3&offset=100" (mkTFile "A.pdf") =
  Some (mkTarget (mkTFile "A.pdf") 3%float None
          (Some (Resolver.mkOffset (Some 100%float) None)) None).
Proof. vm_compute. reflexivity. Qed.

Example decode_page_not_first :
  Spec.valueOf "page" "#annotation=5R&page=3" = Some "3" /\
  decodeSubpath "#annotation=5R&page=3" (mkTFile "A.pdf") = None.
Proof. split; vm_compute; reflexivity. Qed.

Example decode_key_with_known_suffix :
  decodeSubpath "#page=3&xrect=1,2,3,4" (mkTFile "A.pdf") =
  Some (mkTarget (mkTFile "A.pdf") 3%float None None (Some (mkRect 1%float 2%float 3%float 4%float))).
Proof. vm_compute. reflexivity. Qed.



(** ** Resolving a wikilink *)

Lemma linktextOf_wikilink (embed : bool) (text : string) :
  linktextOf (Spec.wikilink embed text) = text.
Proof.
  unfold linktextOf, Spec.wikilink.
  destruct embed.
  - replace (startsWith ("![[" ++ text ++ "]]") "![[") with true.
    + apply (slice_middle "![[" text "]]"). simpl. lia.
    + unfold startsWith. rewrite !append_cons, !prefix_cons, prefix_empty. reflexivity.
  - replace (startsWith ("[[" ++ text ++ "]]") "![[") with false.
    + apply (slice_middle "[[" text "]]"). simpl. lia.
    + unfold startsWith. rewrite !append_cons, prefix_cons. reflexivity.
Qed.

Lemma resolveWikilink_split
    (getFirstLinkpathDest : string -> string -> Completion (option TFile))
    (url : string) (sourceFile : TFile) :
  resolveWikilink getFirstLinkpathDest url sourceFile =
  Spec.resolveSplit getFirstLinkpathDest
    (filePathOf (linktextOf url), subpathOf (linktextOf url)) sourceFile.
Proof.
  unfold resolveWikilink, Spec.resolveSplit, tryCatch, bind. cbv zeta. simpl fst. simpl snd.
  destruct (getFirstLinkpathDest _ _) as [[file|]|e]; reflexivity.
Qed.

Lemma splitAtFirstHash_found (path rest : string) :
  indexOf path "#" = (-1)%Z ->
  Spec.splitAtFirstHash (path ++ "#" ++ rest) = (path, "#" ++ rest).
Proof.
  intros H. unfold Spec.splitAtFirstHash.
  change ("#" ++ rest) with (String "#" rest).
  rewrite (indexOf_first path rest "#" H).
  destruct (Z.ltb_spec (Z.of_nat (String.length path)) 0) as [Hn|_]; [lia|].
  rewrite slice_prefix, sliceFrom_suffix. reflexivity.
Qed.

Example wikilink_starting_with_hash :
  resolveWikilink (fun p _ => Normal (Some (mkTFile p))) "[[#page=5]]" (mkTFile "A.pdf")
  = Normal (Some (mkTarget (mkTFile "#page=5") 1%float None None None)).
Proof. vm_compute. reflexivity. Qed.

(** C5, as stated, fails: when the text starts with [#] it is not split
    there; the whole text is taken as the path and the page defaults
    to 1. *)
Lemma wikilink_resolution_fails : ~ Spec.wikilink_resolution.
Proof.
  intros claim.
  specialize (claim (fun p _ => Normal (Some (mkTFile p))) false "#page=5" (mkTFile "A.pdf")).
  change (Spec.wikilink false "#page=5") with "[[#page=5]]" in claim.
  rewrite wikilink_starting_with_hash in claim.
  vm_compute in claim. discriminate claim.
Qed.

(** C5, amended. For every wikilink, [resolveWikilink] splits the
    bracketed text at its first [#] unless that [#] is its first
    character, in which case (as when there is no [#]) the whole text is
    the path and the subpath is empty; it resolves the path relative to
    the context file and decodes the subpath with the page defaulting to
    1.  For [[[Notes.pdf#page=5&offset=100,200,1.5]]] it returns the
    resolved file with page 5, offset (100, 200), and neither annotation
    id nor rect. *)
Theorem wikilink_resolution_amended
    (getFirstLinkpathDest : string -> string -> Completion (option TFile))
    (sourceFile : TFile) :
  (forall (embed : bool) (text : string),
     resolveWikilink getFirstLinkpathDest (Spec.wikilink embed text) sourceFile =
     Spec.resolveSplit getFirstLinkpathDest
       (if (indexOf text "#" =? 0)%Z then (text, "") else Spec.splitAtFirstHash text)
       sourceFile) /\
  (forall path rest, indexOf path "#" = (-1)%Z ->
     Spec.splitAtFirstHash (path ++ "#" ++ rest) = (path, "#" ++ rest)) /\
  (forall notes,
     getFirstLinkpathDest "Notes.pdf" (path sourceFile) = Normal (Some notes) ->
     resolveWikilink getFirstLinkpathDest "[[Notes.pdf#page=5&offset=100,200,1.5]]" sourceFile
     = Normal (Some (mkTarget notes 5%float None
                       (Some (Resolver.mkOffset (Some 100%float) (Some 200%float))) None))).
Proof.
  split; [|split].
  - intros embed text.
    rewrite resolveWikilink_split, linktextOf_wikilink.
    f_equal. unfold filePathOf, subpathOf, Spec.splitAtFirstHash.
    pose proof (indexOf_bounds text "#").
    destruct (Z.eqb_spec (indexOf text "#") 0) as [E|E].
    + rewrite E. reflexivity.
    + destruct (Z.ltb_spec 0 (indexOf text "#")), (Z.ltb_spec (indexOf text "#") 0);
        try reflexivity; lia.
  - apply splitAtFirstHash_found.
  - intros notes H. rewrite resolveWikilink_split.
    change (filePathOf (linktextOf "[[Notes.pdf#page=5&offset=100,200,1.5]]"))
      with "Notes.pdf".
    unfold Spec.resolveSplit. simpl fst. rewrite H.
    vm_compute. reflexivity.
Qed.

Lemma wikilink_resolution_amended_witness :
  resolveWikilink (fun p _ => Normal (Some (mkTFile p)))
    "[[Notes.pdf#page=5&offset=100,200,1.5]]" (mkTFile "A.pdf")
  = Normal (Some (mkTarget (mkTFile "Notes.pdf") 5%float None
                    (Some (Resolver.mkOffset (Some 100%float) (Some 200%float))) None)).
Proof.
  apply (proj2 (proj2 (wikilink_resolution_amended
                         (fun p _ => Normal (Some (mkTFile p))) (mkTFile "A.pdf")))).
  reflexivity.
Defined.

(** ** Dangling links *)

(** C6. When the path-resolution collaborator does not resolve the
    wikilink's path to a file (it yields [null], or throws),
    [resolveWikilink] returns [null]; it does not raise an error. *)
Theorem dangling_wikilink_is_null
    (getFirstLinkpathDest : string -> string -> Completion (option TFile))
    (url : string) (sourceFile : TFile) :
  (forall file,
     getFirstLinkpathDest (filePathOf (linktextOf url)) (path sourceFile)
     <> Normal (Some file)) ->
  resolveWikilink getFirstLinkpathDest url sourceFile = Normal None.
Proof.
  intros H. rewrite resolveWikilink_split. unfold Spec.resolveSplit. simpl fst.
  destruct (getFirstLinkpathDest _ _) as [[file|]|e]; try reflexivity.
  exfalso. apply (H file). reflexivity.
Qed.

Lemma dangling_wikilink_is_null_witness :
  resolveWikilink (fun _ _ => Normal None) "[[Missing.pdf#page=2]]" (mkTFile "A.pdf")
  = Normal None.
Proof.
  apply (dangling_wikilink_is_null (fun _ _ => Normal None)
           "[[Missing.pdf#page=2]]" (mkTFile "A.pdf")).
  intros file. discriminate.
Defined.

End LinksFacts.

(* ===================================================================== *)
(** * The creation pipeline *)
(* ===================================================================== *)

Module PipelineFacts.
Import JS Pipeline.

Section Host.

Context {Host TextLayer TextLayerInfo MergedRect Rect DestArray Selection : Type}.
Variable manifestName : string.
Variable getTextLayerInfo : TextLayer -> option TextLayerInfo.
Variable computeMergedHighlightRects :
  TextLayerInfo -> number -> number -> number -> number -> list MergedRect.
Variable rectOf : MergedRect -> Rect.
Variable io_addLinkAnnotation :
  Links.TFile -> number -> list Rect -> Destination DestArray ->
  option string -> option string -> Host -> Completion string * Host.
Variable getPageAndTextRangeFromSelection :
  Selection -> option (number * option (number * number * number * number)).
Variable getPDFViewerChildFromSelection :
  Selection -> option (@PDFViewerChild TextLayer).

#[local] Abbreviation World := (@World Host Rect).
#[local] Abbreviation Annotator := (@Annotator Host Rect).
#[local] Abbreviation addAnnotationToTextRange :=
  (addAnnotationToTextRange manifestName getTextLayerInfo computeMergedHighlightRects rectOf).

(** C7. If the rectangle computation fails (the page number is outside
    [1, pagesCount], the page's text layer is not loaded, or there is no
    text-layer info), [addAnnotationToTextRange] stops there: it returns
    [undefined] and leaves the world as it was, so the annotator is not
    invoked.  And whenever the annotator is invoked, it is with the
    merged rectangles computed for the range. *)
Theorem no_rects_no_annotator (annotator : Annotator) (child : PDFViewerChild)
    (pageNumber beginIndex beginOffset endIndex endOffset : number) (w : World) :
  (pageOutOfBounds child pageNumber \/ textLayerNotLoaded child pageNumber w \/
   noTextLayerInfo getTextLayerInfo child pageNumber ->
   addAnnotationToTextRange annotator child pageNumber
     beginIndex beginOffset endIndex endOffset w = (Normal None, w)) /\
  (forall invocation,
     annotatorCalls (trace (snd (addAnnotationToTextRange annotator child pageNumber
                                   beginIndex beginOffset endIndex endOffset w)))
     = (annotatorCalls (trace w) ++ [invocation])%list ->
     exists childFile pageView layer textLayerInfo,
       file child = Some childFile /\ getPage child pageNumber = Some pageView /\
       textLayer pageView = Some layer /\ getTextLayerInfo layer = Some textLayerInfo /\
       invocation = (childFile, pageNumber,
               map rectOf (computeMergedHighlightRects textLayerInfo
                             beginIndex beginOffset endIndex endOffset))).
Proof.
  unfold Pipeline.addAnnotationToTextRange.
  split.
  - intros Hfail.
    destruct (file child) as [childFile|]; [|reflexivity].
    destruct ((1 <=? pageNumber)%float && (pageNumber <=? pagesCount child)%float) eqn:Hrange;
      [|reflexivity].
    destruct Hfail as [Hout | [Hlayer | Hinfo]]; [unfold pageOutOfBounds in Hout; congruence | |].
    + destruct (getPage child pageNumber) as [pageView|] eqn:Epv; [|reflexivity].
      unfold mbind, readDataset.
      destruct (Hlayer pageView Epv) as [-> | [-> | ->]]; try reflexivity;
        destruct (textLayer pageView); reflexivity.
    + destruct (getPage child pageNumber) as [pageView|] eqn:Epv; [|reflexivity].
      unfold mbind, readDataset.
      destruct (textLayer pageView) as [layer|] eqn:El; [|reflexivity].
      rewrite (Hinfo pageView layer Epv El).
      destruct (datasets w !! div pageView ≫= _) as [[|]|]; reflexivity.
  - intros invocation Hcall.
    assert (Hnil : forall l : list (Links.TFile * number * list Rect),
               l = (l ++ [invocation])%list -> False).
    { intros l H. apply (f_equal length) in H. rewrite length_app in H. simpl in H. lia. }
    destruct (file child) as [childFile|] eqn:Ef; [|exfalso; exact (Hnil _ Hcall)].
    destruct ((1 <=? pageNumber)%float && (pageNumber <=? pagesCount child)%float);
      [|exfalso; exact (Hnil _ Hcall)].
    destruct (getPage child pageNumber) as [pageView|] eqn:Epv;
      [|exfalso; exact (Hnil _ Hcall)].
    unfold mbind, readDataset in Hcall.
    set (loaded := datasets w !! div pageView ≫= fun d => d !! "loaded") in Hcall.
    destruct (textLayer pageView) as [layer|] eqn:El;
      [|destruct loaded as [[|]|]; exfalso; exact (Hnil _ Hcall)].
    destruct loaded as [[|c s]|]; try (exfalso; exact (Hnil _ Hcall)).
    destruct (getTextLayerInfo layer) as [textLayerInfo|] eqn:Ei;
      [|exfalso; exact (Hnil _ Hcall)].
    exists childFile, pageView, layer, textLayerInfo.
    split; [reflexivity|]. split; [reflexivity|]. split; [exact El|]. split; [exact Ei|].
    unfold try_catch, mbind, emit, call, ret in Hcall. simpl in Hcall.
    destruct (annotator _ _ _ _) as [[id|e] h]; simpl in Hcall;
      unfold annotatorCalls in Hcall; rewrite !omap_app in Hcall; simpl in Hcall;
      rewrite ?app_nil_r in Hcall;
      apply app_inv_head in Hcall; inversion Hcall; reflexivity.
Qed.

(** What [addAnnotationToTextRange] does once the rectangles are there:
    it calls the annotator and, should the call throw, shows a notice and
    goes on without an annotation id. *)
Lemma textRange_with_rects (annotator : Annotator) (child : PDFViewerChild)
    (pageNumber beginIndex beginOffset endIndex endOffset : number) (w : World)
    (childFile : Links.TFile) (pageView : PageView)
    (layer : TextLayer) (textLayerInfo : TextLayerInfo) (c : ascii) (s : string) :
  file child = Some childFile ->
  ((1 <=? pageNumber) && (pageNumber <=? pagesCount child))%float = true ->
  getPage child pageNumber = Some pageView ->
  textLayer pageView = Some layer ->
  (datasets w !! div pageView ≫= fun d => d !! "loaded") = Some (String c s) ->
  getTextLayerInfo layer = Some textLayerInfo ->
  let rects := map rectOf (computeMergedHighlightRects textLayerInfo
                             beginIndex beginOffset endIndex endOffset) in
  addAnnotationToTextRange annotator child pageNumber
    beginIndex beginOffset endIndex endOffset w =
  match annotator childFile pageNumber rects (host w) with
  | (Normal id, h') =>
      (Normal (Some (mkTextRangeResult (Some id) rects)),
       mkWorld h' (datasets w) (trace w ++ [AnnotatorCalled childFile pageNumber rects]))
  | (Throw e, h') =>
      (Normal (Some (mkTextRangeResult None rects)),
       mkWorld h' (datasets w)
         (trace w ++ [AnnotatorCalled childFile pageNumber rects;
                      NoticeShown (manifestName ++
                        ": An error occurred while attemping to add an annotation.")]))
  end.
Proof.
  intros Hfile Hrange Hpage Hlayer Hloaded Hinfo rects.
  unfold Pipeline.addAnnotationToTextRange.
  rewrite Hfile, Hrange, Hpage.
  unfold mbind at 1. unfold readDataset. rewrite Hloaded, Hlayer, Hinfo.
  fold rects.
  unfold try_catch, mbind, emit, call, ret. simpl.
  destruct (annotator childFile pageNumber rects (host w)) as [[id|e] h']; simpl.
  - reflexivity.
  - rewrite <- app_assoc. reflexivity.
Qed.

#[local] Abbreviation addLinkAnnotationToSelection :=
  (addLinkAnnotationToSelection manifestName getTextLayerInfo computeMergedHighlightRects
     rectOf io_addLinkAnnotation getPageAndTextRangeFromSelection
     getPDFViewerChildFromSelection).

(** C8, amended. When the mutation interface's creation call fails, the
    pipeline catches the error: it shows one notice, returns to its
    caller the result with the computed rectangles and no annotation id
    (the error itself does not reach the caller), and performs no
    registration step. *)
Theorem creation_error_is_caught
    (dest : Destination DestArray) (contents : option string) (selection : Selection)
    (w : World) (e : Error) (h' : Host)
    (page beginIndex beginOffset endIndex endOffset : number)
    (child : PDFViewerChild) (childFile : Links.TFile) (pageView : PageView)
    (layer : TextLayer) (textLayerInfo : TextLayerInfo) (c : ascii) (s : string) :
  getPageAndTextRangeFromSelection selection
  = Some (page, Some (beginIndex, beginOffset, endIndex, endOffset)) ->
  getPDFViewerChildFromSelection selection = Some child ->
  file child = Some childFile ->
  ((1 <=? page) && (page <=? pagesCount child))%float = true ->
  getPage child page = Some pageView ->
  textLayer pageView = Some layer ->
  (datasets w !! div pageView ≫= fun d => d !! "loaded") = Some (String c s) ->
  getTextLayerInfo layer = Some textLayerInfo ->
  let rects := map rectOf (computeMergedHighlightRects textLayerInfo
                             beginIndex beginOffset endIndex endOffset) in
  io_addLinkAnnotation childFile page rects dest None contents (host w) = (Throw e, h') ->
  addLinkAnnotationToSelection dest contents (Some selection) w =
  (Normal (Some (mkSelectionResult child (Some childFile) page None (Some rects))),
   mkWorld h' (datasets w)
     (trace w ++ [AnnotatorCalled childFile page rects;
                  NoticeShown (manifestName ++
                    ": An error occurred while attemping to add an annotation.")])).
Proof.
  intros Hsel Hchild Hfile Hrange Hpage Hlayer Hloaded Hinfo rects Hio.
  unfold Pipeline.addLinkAnnotationToSelection, addAnnotationToSelection.
  rewrite Hsel, Hchild.
  unfold mbind at 1 2.
  rewrite (textRange_with_rects _ child page beginIndex beginOffset endIndex endOffset w
             childFile pageView layer textLayerInfo c s
             Hfile Hrange Hpage Hlayer Hloaded Hinfo).
  fold rects. rewrite Hio. simpl. rewrite Hfile. reflexivity.
Qed.

End Host.

(** ** A concrete page

    One PDF, [A.pdf], with three pages; page 1 is rendered and loaded,
    its text layer yields one merged rectangle for any range, and its
    annotation layer holds the link annotation [12R], whose container has
    not been marked as post-processed. *)

Definition linkElement : AnnotationElement :=
  mkAnnotationElement 7
    (mkData "12R" "Link" Undefined (Str "[[Notes.pdf#page=5]]") None).

Definition pageOne : @PageView unit :=
  mkPageView 0 (Some tt) (Some (mkLayer (Some 5) {[ "12R" := linkElement ]})).

Definition viewer : @PDFViewerChild unit :=
  mkChild (Some (Links.mkTFile "A.pdf")) 3%float
    (fun p => if (p =? 1)%float then Some pageOne else None) true.

Definition initialWorld : @World unit Links.Rect :=
  mkWorld tt {[ 0 := {[ "loaded" := "true" ]} ]} [].

Definition oneRect : unit -> number -> number -> number -> number -> list Links.Rect :=
  fun _ _ _ _ _ => [Links.mkRect 10%float 20%float 110%float 32%float].

(** A mutation interface whose creation call fails with an I/O error. *)
Definition failingIo : Links.TFile -> number -> list Links.Rect -> Destination unit ->
                       option string -> option string -> unit -> Completion string * unit :=
  fun _ _ _ _ _ _ h => (Throw (mkError "EIO"), h).

Definition selectedRange : unit -> option (number * option (number * number * number * number)) :=
  fun _ => Some (1%float, Some (0%float, 0%float, 0%float, 5%float)).

Lemma no_rects_no_annotator_witness :
  addAnnotationToTextRange "PDF++" (fun _ : unit => Some tt) oneRect (fun r => r)
    (fun _ _ _ h => (Normal "99R", h)) viewer 4%float 0%float 0%float 0%float 5%float
    initialWorld
  = (Normal None, initialWorld).
Proof.
  apply (proj1 (no_rects_no_annotator "PDF++" (fun _ : unit => Some tt) oneRect (fun r => r)
                  (fun _ _ _ h => (Normal "99R", h)) viewer
                  4%float 0%float 0%float 0%float 5%float initialWorld)).
  left. reflexivity.
Defined.

Example creation_error_run :
  addLinkAnnotationToSelection "PDF++" (fun _ : unit => Some tt) oneRect (fun r => r)
    failingIo selectedRange (fun _ => Some viewer)
    (DestString "[[Notes.pdf#page=5]]") None (Some tt) initialWorld
  = (Normal (Some (mkSelectionResult viewer (Some (Links.mkTFile "A.pdf")) 1%float None
                     (Some [Links.mkRect 10%float 20%float 110%float 32%float]))),
     mkWorld tt {[ 0 := {[ "loaded" := "true" ]} ]}
       [AnnotatorCalled (Links.mkTFile "A.pdf") 1%float
          [Links.mkRect 10%float 20%float 110%float 32%float];
        NoticeShown "PDF++: An error occurred while attemping to add an annotation."]).
Proof. vm_compute. reflexivity. Qed.

Lemma creation_error_is_caught_witness :
  addLinkAnnotationToSelection "PDF++" (fun _ : unit => Some tt) oneRect (fun r => r)
    failingIo selectedRange (fun _ => Some viewer)
    (DestString "[[Notes.pdf#page=5]]") None (Some tt) initialWorld
  = (Normal (Some (mkSelectionResult viewer (Some (Links.mkTFile "A.pdf")) 1%float None
                     (Some [Links.mkRect 10%float 20%float 110%float 32%float]))),
     mkWorld tt {[ 0 := {[ "loaded" := "true" ]} ]}
       [AnnotatorCalled (Links.mkTFile "A.pdf") 1%float
          [Links.mkRect 10%float 20%float 110%float 32%float];
        NoticeShown "PDF++: An error occurred while attemping to add an annotation."]).
Proof.
  apply (creation_error_is_caught "PDF++" (fun _ : unit => Some tt) oneRect (fun r => r)
           failingIo selectedRange (fun _ => Some viewer)
           (DestString "[[Notes.pdf#page=5]]") None tt initialWorld (mkError "EIO") tt
           1%float 0%float 0%float 0%float 5%float viewer (Links.mkTFile "A.pdf")
           pageOne tt tt "t" "rue"); reflexivity.
Defined.

(** C8, as stated, fails: the error thrown by the creation call does not
    reach the pipeline's caller; the call completes normally. *)
Lemma creation_error_surfaces_fails :
  ~ creation_error_surfaces "PDF++" (fun _ : unit => Some tt) oneRect (fun r => r)
      failingIo selectedRange (fun _ => Some viewer).
Proof.
  intros claim.
  specialize (claim (DestString "[[Notes.pdf#page=5]]") None (Some tt) initialWorld
                (mkError "EIO") (fun _ _ _ _ => eq_refl)).
  rewrite creation_error_run in claim. simpl in claim.
  assert (H : Normal (Some (mkSelectionResult viewer (Some (Links.mkTFile "A.pdf")) 1%float
                              None (Some [Links.mkRect 10%float 20%float 110%float 32%float])))
              = @Throw (option (@SelectionResult unit Links.Rect)) (mkError "EIO")).
  { apply claim. discriminate. }
  discriminate H.
Qed.

(** ** Registration of the post-processor *)

Section Registration.
Context {Host TextLayer Rect DestArray : Type}.

(** The immediate attempt only reads datasets: the marker it tests is
    never written by it. *)
Lemma immediate_attempt_leaves_marker (child : @PDFViewerChild TextLayer)
    (pageNumber : number) (annotationID : option string) (dest : Destination DestArray)
    (w : @World Host Rect) :
  datasets (snd (registerPostProcessorForNewAnnotation child pageNumber annotationID dest w))
  = datasets w.
Proof.
  unfold registerPostProcessorForNewAnnotation.
  destruct annotationID as [[|c s]|]; try reflexivity.
  destruct dest as [d|d]; try reflexivity.
  destruct (negb (startsWith d "[[")); try reflexivity.
  destruct (getPage child pageNumber) as [[dv tl [[[ld|] annots]|]]|]; try reflexivity.
  destruct (annots !! String c s) as [annot|]; try reflexivity.
  unfold mbind, readDataset, registerEvents, emit, ret. simpl.
  destruct (negb (bool_decide _)); simpl; try reflexivity.
  destruct (d_A (data annot)) as [uri|]; simpl;
    repeat match goal with
      | |- context [if ?b then _ else _] => destruct b; simpl
      end; reflexivity.
Qed.

(** The immediate attempt registers only when persistence returned an
    annotation id, the destination is a wikilink-style string, the
    annotation's live element exists and its marker is not ["true"]. *)
Lemma immediate_attempt_registers_only_when (child : @PDFViewerChild TextLayer)
    (pageNumber : number) (annotationID : option string) (dest : Destination DestArray)
    (w : @World Host Rect) :
  trace (snd (registerPostProcessorForNewAnnotation child pageNumber annotationID dest w))
  <> trace w ->
  exists id d pageView layer layerDiv annot,
    annotationID = Some id /\ id <> "" /\
    dest = DestString d /\ startsWith d "[[" = true /\
    getPage child pageNumber = Some pageView /\
    annotationLayer pageView = Some layer /\ layer_div layer = Some layerDiv /\
    getAnnotation layer !! id = Some annot /\
    (datasets w !! container annot ≫= fun ds => ds !! "pdfPlusIsAnnotationPostProcessed")
    <> Some "true".
Proof.
  unfold registerPostProcessorForNewAnnotation. intros H.
  destruct annotationID as [[|c s]|]; try (exfalso; apply H; reflexivity).
  destruct dest as [d|d]; try (exfalso; apply H; reflexivity).
  destruct (startsWith d "[[") eqn:Ed; simpl negb in H; cbv iota in H;
    try (exfalso; apply H; reflexivity).
  destruct (getPage child pageNumber) as [[dv tl [[[ld|] annots]|]]|] eqn:Ep;
    try (exfalso; apply H; reflexivity).
  destruct (annots !! String c s) as [annot|] eqn:Ea;
    try (exfalso; apply H; reflexivity).
  unfold mbind, readDataset in H. simpl in H.
  destruct (bool_decide _) eqn:Em in H; simpl in H;
    try (exfalso; apply H; reflexivity).
  apply bool_decide_eq_false in Em.
  exists (String c s), d, (mkPageView dv tl (Some (mkLayer (Some ld) annots))),
    (mkLayer (Some ld) annots), ld, annot.
  repeat split; try reflexivity; try assumption. discriminate.
Qed.

End Registration.

Example immediate_attempt_on_live_element :
  snd (registerPostProcessorForNewAnnotation viewer 1%float (Some "12R")
         (@DestString unit "[[Notes.pdf#page=5]]") initialWorld)
  = mkWorld tt {[ 0 := {[ "loaded" := "true" ]} ]}
      [RegisterEventsCalled "12R"; ProcessorAdded "12R"].
Proof. vm_compute. reflexivity. Qed.

(** C9 at a failing input: the annotation's live element exists and is
    not marked.  The immediate attempt registers and leaves the marker
    unset, so the deferred registration registers again: two registration
    side effects for the one annotation id. *)
Theorem immediate_then_deferred_registers_twice :
  let w1 := snd (registerPostProcessorForNewAnnotation viewer 1%float (Some "12R")
                   (@DestString unit "[[Notes.pdf#page=5]]") initialWorld) in
  let w2 := snd (deferredRegistration viewer 1%float "12R" w1) in
  trace w2 = [RegisterEventsCalled "12R"; ProcessorAdded "12R";
              RegisterEventsCalled "12R"; ProcessorAdded "12R"] /\
  registrations "12R" (trace w2) = 2%nat /\
  (datasets w1 !! 7 ≫= fun ds => ds !! "pdfPlusIsAnnotationPostProcessed") = None /\
  (datasets w2 !! 7 ≫= fun ds => ds !! "pdfPlusIsAnnotationPostProcessed") = Some "true".
Proof. vm_compute. repeat split; reflexivity. Qed.

End PipelineFacts.

(* ===================================================================== *)
(** * At most one highlight *)
(* ===================================================================== *)

Module HoverFacts.
Import JS Hover.

Section Viewer.

Context {Viewport : Type}.
Variable convertToViewportPoint : Viewport -> number -> number -> number * number.
Variable getComputedStyle : ElementRef -> gmap string string.

#[local] Abbreviation State := (@State Viewport).
#[local] Abbreviation Operation := (@Operation Viewport).
#[local] Abbreviation highlightLocation :=
  (highlightLocation convertToViewportPoint getComputedStyle).
#[local] Abbreviation performAll :=
  (performAll convertToViewportPoint getComputedStyle).

(** A state without any highlight, tracked or on display. *)
Definition clean (st : State) : Prop :=
  currentHighlight st = None /\
  forall el e, document st !! el = Some e -> ~ showsHighlight e.

Lemma lookup_update_eq (el : ElementRef) (f : Element -> Element)
    (d : gmap ElementRef Element) :
  update el f d !! el = f <$> d !! el.
Proof.
  unfold update. destruct (d !! el) as [e|] eqn:E.
  - rewrite lookup_insert_eq. reflexivity.
  - exact E.
Qed.

Lemma lookup_update_ne (el x : ElementRef) (f : Element -> Element)
    (d : gmap ElementRef Element) :
  x <> el -> update el f d !! x = d !! x.
Proof.
  intros Hne. unfold update. destruct (d !! el) as [e|]; [|reflexivity].
  apply lookup_insert_ne. congruence.
Qed.

Lemma clean_tracked (st : State) : clean st -> tracked st.
Proof. intros [_ H] el e Hel Hs. destruct (H el e Hel Hs). Qed.

(** Clearing removes the class, detaches the element and forgets it. *)
Lemma clearHighlight_clean (st : State) : tracked st -> clean (clearHighlight st).
Proof.
  intros Htracked. unfold clearHighlight.
  destruct (currentHighlight st) as [[element child]|] eqn:Ecur.
  - split; [reflexivity|]. simpl. intros el e Hel Hshow.
    destruct (decide (el = element)) as [->|Hne].
    + rewrite !lookup_update_eq in Hel.
      destruct (document st !! element) as [e0|]; simpl in Hel; [|discriminate Hel].
      inversion Hel; subst e. destruct Hshow as [Hp _]. apply Hp. reflexivity.
    + rewrite !lookup_update_ne in Hel by exact Hne.
      destruct (Htracked el e Hel Hshow) as [c Hc]. rewrite Ecur in Hc. congruence.
  - split; [exact Ecur|]. intros el e Hel Hshow.
    destruct (Htracked el e Hel Hshow) as [c Hc]. congruence.
Qed.

Lemma clearHighlight_shift (st : State) :
  isShiftPressed (clearHighlight st) = isShiftPressed st.
Proof. unfold clearHighlight. destruct (currentHighlight st) as [[? ?]|]; reflexivity. Qed.

Lemma highlightAnnotation_tracked (child : PDFViewerChild) (page : number)
    (annotationId : string) (st : State) :
  tracked st -> tracked (highlightAnnotation child page annotationId st).
Proof.
  intros Htracked. unfold highlightAnnotation.
  pose proof (clearHighlight_clean st Htracked) as Hclean.
  destruct (getPage child page) as [[dv [layer|] vp]|]; try (apply clean_tracked; exact Hclean).
  destruct (querySelector _ layer annotationId) as [element|];
    [|apply clean_tracked; exact Hclean].
  intros el e Hel Hshow. simpl in *.
  destruct (decide (el = element)) as [->|Hne]; [exists child; reflexivity|].
  rewrite lookup_update_ne in Hel by exact Hne.
  destruct Hclean as [_ Hnone]. destruct (Hnone el e Hel Hshow).
Qed.

Lemma lookup_setStyles (el x : ElementRef) (props : list (string * StyleValue))
    (d : gmap ElementRef Element) :
  x <> el -> setStyles el props d !! x = d !! x.
Proof.
  intros Hne. unfold setStyles. revert d.
  induction props as [|p props IH]; intros d; simpl; [reflexivity|].
  rewrite IH. apply lookup_update_ne. exact Hne.
Qed.

Lemma highlightLocation_tracked (child : PDFViewerChild) (page : number)
    (offset : option Resolver.Offset) (rect : option Links.Rect) (st : State) :
  tracked st -> tracked (highlightLocation child page offset rect st).
Proof.
  intros Htracked. unfold Hover.highlightLocation.
  pose proof (clearHighlight_clean st Htracked) as Hclean.
  destruct (getPage child page) as [pageView|]; [|apply clean_tracked; exact Hclean].
  unfold createDiv.
  set (d0 := document (clearHighlight st)) in *.
  set (highlightEl := fresh (dom d0)).
  cbv zeta.
  assert (Hothers : forall props x, x <> highlightEl ->
            setStyles highlightEl props
              (<[highlightEl := mkElement (Some (div pageView))
                                  {["shift-hover-location-highlight"]} None ∅]> d0) !! x
            = d0 !! x).
  { intros props x Hx. rewrite lookup_setStyles by exact Hx.
    apply lookup_insert_ne. congruence. }
  match goal with
  | |- tracked (mkState ?D _ _) => set (styled := D)
  end.
  assert (HD : forall x, x <> highlightEl -> styled !! x = d0 !! x).
  { subst styled. intros x Hx. destruct rect as [r|]; [apply Hothers; exact Hx|].
    destruct offset as [[[ol|] [ot|]]|];
      try (apply Hothers; exact Hx); apply lookup_insert_ne; congruence. }
  clearbody styled.
  intros el e Hel Hshow. cbn [document currentHighlight] in *.
  destruct (decide (el = highlightEl)) as [->|Hne]; [exists child; reflexivity|].
  rewrite HD in Hel by exact Hne.
  destruct Hclean as [_ Hnone]. destruct (Hnone el e Hel Hshow).
Qed.

Lemma perform_tracked (st : State) (op : Operation) :
  tracked st -> tracked (perform convertToViewportPoint getComputedStyle st op).
Proof.
  intros Htracked. destruct op as [child page id | child page offset rect | | key | key];
    simpl.
  - apply highlightAnnotation_tracked. exact Htracked.
  - apply highlightLocation_tracked. exact Htracked.
  - apply clean_tracked, clearHighlight_clean. exact Htracked.
  - unfold onKeyDown. destruct (_ && _); [|exact Htracked].
    intros el e Hel Hshow. exact (Htracked el e Hel Hshow).
  - unfold onKeyUp. destruct (String.eqb key "Shift"); [|exact Htracked].
    apply clean_tracked, clearHighlight_clean.
    intros el e Hel Hshow. exact (Htracked el e Hel Hshow).
Qed.

Lemma performAll_tracked (ops : list Operation) :
  forall st : State, tracked st -> tracked (performAll st ops).
Proof.
  induction ops as [|op ops IH]; intros st Htracked; simpl; [exact Htracked|].
  apply IH, perform_tracked. exact Htracked.
Qed.

(** When every highlight on display is the tracked one, there is at most
    one on display. *)
Lemma tracked_at_most_one (st : State) :
  tracked st -> (length (activeHighlights st) <= 1)%nat.
Proof.
  intros Htracked. unfold activeHighlights.
  set (shown := filter (fun entry => showsHighlight (snd entry))
                  (map_to_list (document st))).
  assert (Hnodup : NoDup (fst <$> shown)).
  { eapply sublist_NoDup; [apply (NoDup_fst_map_to_list (document st))|].
    apply fmap_sublist, sublist_filter. }
  assert (Hsame : forall x y, x ∈ fst <$> shown -> y ∈ fst <$> shown -> x = y).
  { assert (Hin : forall x, x ∈ fst <$> shown ->
                    exists c, currentHighlight st = Some (x, c)).
    { intros x Hx. apply list_elem_of_fmap in Hx as ([el e] & -> & Hx).
      apply list_elem_of_filter in Hx as [Hshow Hx]. apply elem_of_map_to_list in Hx.
      exact (Htracked el e Hx Hshow). }
    intros x y Hx Hy. destruct (Hin x Hx) as [cx Hcx], (Hin y Hy) as [cy Hcy]. congruence. }
  destruct (fst <$> shown) as [|x [|y rest]]; simpl; try lia.
  exfalso. apply NoDup_cons in Hnodup as [Hx _]. apply Hx.
  rewrite (Hsame x y) by (repeat constructor). constructor.
Qed.

Lemma clean_no_highlights (st : State) : clean st -> activeHighlights st = [].
Proof.
  intros [_ Hnone]. unfold activeHighlights.
  destruct (filter _ _) as [|[el e] rest] eqn:E; [reflexivity|].
  assert (Hin : (el, e) ∈ filter (fun entry : ElementRef * Element => showsHighlight (snd entry))
                            (map_to_list (document st))) by (rewrite E; constructor).
  apply list_elem_of_filter in Hin as [Hshow Hin]. apply elem_of_map_to_list in Hin.
  destruct (Hnone el e Hin Hshow).
Qed.

(** C10. Starting from a state in which every highlight on display is
    the tracked one, any sequence of highlight operations (and of shift
    key events) leads to a state with at most one highlight on display,
    which is the tracked one; and clearing then leaves none: the
    previously tracked element has lost the highlight class and is
    detached, and the tracked state is [null]. *)
Theorem at_most_one_highlight (st : State) (ops : list Operation) :
  tracked st ->
  let st' := performAll st ops in
  tracked st' /\
  (length (activeHighlights st') <= 1)%nat /\
  currentHighlight (clearHighlight st') = None /\
  activeHighlights (clearHighlight st') = [] /\
  (forall el child e, currentHighlight st' = Some (el, child) ->
     document st' !! el = Some e ->
     exists e', document (clearHighlight st') !! el = Some e' /\
                parent e' = None /\
                "shift-hover-target-highlight" ∉ classes e').
Proof.
  intros Htracked st'.
  assert (Ht' : tracked st') by (apply performAll_tracked; exact Htracked).
  pose proof (clearHighlight_clean st' Ht') as Hclean.
  split; [exact Ht'|]. split; [apply tracked_at_most_one; exact Ht'|].
  split; [exact (proj1 Hclean)|]. split; [apply clean_no_highlights; exact Hclean|].
  intros el child e Hcur Hel. unfold clearHighlight. rewrite Hcur. simpl.
  rewrite !lookup_update_eq, Hel. simpl. eexists. split; [reflexivity|]. split; [reflexivity|].
  simpl. intros Hin. apply elem_of_difference in Hin as [_ Hin].
  apply Hin, elem_of_singleton. reflexivity.
Qed.

End Viewer.

(** ** A concrete page

    The page div [1] holds the annotation layer div [2], which holds the
    section [3] of annotation [12R]; nothing is highlighted. *)

Definition pageDom : gmap ElementRef Element :=
  {[ 1 := mkElement None ∅ None ∅;
     2 := mkElement (Some 1) ∅ None ∅;
     3 := mkElement (Some 2) ∅ (Some "12R") ∅ ]}.

Definition viewer : @PDFViewerChild unit :=
  mkChild (fun p => if (p =? 1)%float then Some (mkPageView 1 (Some 2) tt) else None).

Definition idle : @State unit := mkState pageDom false None.

Definition hovering : list (@Operation unit) :=
  [KeyDown "Shift";
   HighlightAnnotation viewer 1%float "12R";
   HighlightLocation viewer 1%float
     (Some (Resolver.mkOffset (Some 100%float) (Some 200%float))) None].

Lemma idle_tracked : tracked idle.
Proof.
  intros el e Hel [_ Hclass]. unfold idle, pageDom in Hel. simpl in Hel.
  repeat (apply lookup_insert_Some in Hel as [[_ <-]|[_ Hel]];
          [destruct Hclass as [H|H]; apply elem_of_empty in H; destruct H|]).
  apply lookup_singleton_Some in Hel as [_ <-].
  destruct Hclass as [H|H]; apply elem_of_empty in H; destruct H.
Qed.

Lemma at_most_one_highlight_witness :
  (length (activeHighlights
             (performAll (fun _ x y => (x, y)) (fun _ => ∅) idle hovering)) <= 1)%nat.
Proof.
  apply (proj1 (proj2 (at_most_one_highlight (fun _ x y => (x, y)) (fun _ => ∅)
                         idle hovering idle_tracked))).
Defined.

Example hovering_outcome :
  let st := performAll (fun _ x y => (x, y)) (fun _ => ∅) idle hovering in
  activeHighlights st = [4] /\
  fst <$> currentHighlight st = Some 4 /\
  (parent <$> document st !! 3) = Some None /\
  isShiftPressed st = true.
Proof. vm_compute. repeat split; reflexivity. Qed.

End HoverFacts.

(* ===================================================================== *)
(** * What the resolver returns: class, distance and page order *)
(* ===================================================================== *)

Module ResolverOrder.
Import JS Resolver.

(** [annot.rect] is an array of at least four entries, the test of the
    loop's first statement. *)
Definition hasRect (annot : AnnotationData) : bool :=
  match rect annot with
  | Some (_ :: _ :: _ :: _ :: _) => true
  | _ => false
  end.

(** The class of a candidate with rect [l, b, r, t], smaller being
    better: annotations other than sticky notes come before sticky notes,
    then those that contain the point come first, then the text-markup
    ones. *)
Definition classRank (offset : Offset) (annot : AnnotationData) (l b r t : number) : nat :=
  (if String.eqb (subtype annot) "Text" then 4 else 0) +
  (if snd (measure l b r t offset) then 0 else 2) +
  (if includes textMarkupSubtypes (subtype annot) then 0 else 1).

(** The array that is sorted: [candidates] unless it is empty, in which
    case [textAnnotationCandidates]. *)
Definition chosen (annotations : list AnnotationData) : list Spec.Scored :=
  match ResolverFacts.markupLike (Spec.withValidRect annotations) with
  | [] => ResolverFacts.noteLike (Spec.withValidRect annotations)
  | _ :: _ => ResolverFacts.markupLike (Spec.withValidRect annotations)
  end.

Definition byKey (offset : Offset) (c1 c2 : Spec.Scored) : comparison :=
  Spec.compareKeys (Spec.key offset c1) (Spec.key offset c2).

(** The rank within the sorted array. *)
Definition keyRank (offset : Offset) (c : Spec.Scored) : nat :=
  (if Spec.containsPoint (snd c) offset then 0 else 2) +
  (if Spec.isTextMarkupSubtype (fst c) then 0 else 1).

(** ** Sorting by a rank *)

Lemma head_in {A} (cmp : A -> A -> comparison) (l : list A) (h : A) :
  hd_error (stable_sort cmp l) = Some h -> In h l.
Proof.
  intros H. apply (SortFacts.In_stable_sort cmp).
  destruct (stable_sort cmp l); inversion H; subst. left; reflexivity.
Qed.

Lemma head_none {A} (cmp : A -> A -> comparison) (l : list A) :
  hd_error (stable_sort cmp l) = None <-> l = [].
Proof.
  pose proof (SortFacts.length_stable_sort cmp l) as Hlen.
  destruct l as [|x l], (stable_sort cmp _) as [|y s] eqn:E in Hlen |- *; simpl in *;
    try discriminate Hlen; split; congruence.
Qed.

(** When the comparator refines a rank, the first element of the sorted
    array has the least rank. *)
Lemma head_least_rank {A} (cmp : A -> A -> comparison) (rank : A -> nat)
    (l : list A) (h : A) :
  (forall x y, cmp x y = Gt -> rank y <= rank x) ->
  (forall x y, rank y < rank x -> cmp x y = Gt) ->
  hd_error (stable_sort cmp l) = Some h ->
  forall y, In y l -> rank h <= rank y.
Proof.
  intros Hgt Hlt. revert h.
  induction l as [|x l IH]; intros h Hh y Hy; [destruct Hy|].
  rewrite SortFacts.head_stable_sort_cons in Hh.
  destruct (hd_error (stable_sort cmp l)) as [h'|] eqn:Eh.
  - specialize (IH h' eq_refl).
    destruct (cmp x h') eqn:Exh; inversion Hh; subst h; clear Hh.
    + assert (rank x <= rank h').
      { destruct (le_lt_dec (rank x) (rank h')) as [Hle|Hn]; [exact Hle|].
        rewrite (Hlt x h' Hn) in Exh. discriminate Exh. }
      destruct Hy as [<-|Hy]; [lia|]. specialize (IH y Hy). lia.
    + assert (rank x <= rank h').
      { destruct (le_lt_dec (rank x) (rank h')) as [Hle|Hn]; [exact Hle|].
        rewrite (Hlt x h' Hn) in Exh. discriminate Exh. }
      destruct Hy as [<-|Hy]; [lia|]. specialize (IH y Hy). lia.
    + pose proof (Hgt x h' Exh).
      destruct Hy as [<-|Hy]; [lia|]. exact (IH y Hy).
  - apply head_none in Eh. subst l. inversion Hh; subst h.
    destruct Hy as [<-|[]]. lia.
Qed.

(** When the comparator only tells a preferred kind from the rest, the
    first element of the sorted array is the first element of that kind,
    or the first element when there is none. *)
Lemma head_two_kinds {A} (cmp : A -> A -> comparison) (preferred : A -> bool)
    (l : list A) :
  (forall x y, cmp x y = Gt <-> preferred x = false /\ preferred y = true) ->
  hd_error (stable_sort cmp l) =
  match find preferred l with
  | Some m => Some m
  | None => hd_error l
  end.
Proof.
  intros Hcmp.
  induction l as [|x l IH]; [reflexivity|].
  rewrite SortFacts.head_stable_sort_cons, IH. simpl find. simpl hd_error.
  destruct (preferred x) eqn:Px.
  - destruct (find preferred l) as [m|]; [|destruct (hd_error l) as [h|]; [|reflexivity]].
    + destruct (cmp x m) eqn:E; try reflexivity.
      apply Hcmp in E as [E _]. congruence.
    + destruct (cmp x h) eqn:E; try reflexivity.
      apply Hcmp in E as [E _]. congruence.
  - destruct (find preferred l) as [m|] eqn:Ef.
    + apply find_some in Ef as [_ Pm].
      rewrite (proj2 (Hcmp x m) (conj Px Pm)). reflexivity.
    + destruct (hd_error l) as [h|] eqn:Eh; [|reflexivity].
      destruct (cmp x h) eqn:E; try reflexivity.
      apply Hcmp in E as [_ Ph].
      assert (Hin : In h l) by (destruct l; inversion Eh; subst; left; reflexivity).
      rewrite (find_none _ _ Ef h Hin) in Ph. discriminate Ph.
Qed.

(** ** The sorted array *)

Lemma validRect_rect (a : AnnotationData) (l b r t : number) :
  Spec.validRect a = Some (l, b, r, t) <->
  exists rest, rect a = Some (l :: b :: r :: t :: rest).
Proof.
  unfold Spec.validRect.
  destruct (rect a) as [[|l0 [|b0 [|r0 [|t0 rest0]]]]|]; split;
    try discriminate; try (intros [rest H]; discriminate H).
  - intros H. inversion H; subst. exists rest0. reflexivity.
  - intros [rest H]. inversion H; subst. reflexivity.
Qed.

Lemma validRect_hasRect (a : AnnotationData) :
  hasRect a = match Spec.validRect a with Some _ => true | None => false end.
Proof.
  unfold hasRect, Spec.validRect.
  destruct (rect a) as [[|l0 [|b0 [|r0 [|t0 rest0]]]]|]; reflexivity.
Qed.

Lemma hasRect_length (a : AnnotationData) :
  hasRect a = false <->
  match rect a with Some components => length components < 4 | None => True end.
Proof.
  unfold hasRect.
  destruct (rect a) as [[|l0 [|b0 [|r0 [|t0 rest0]]]]|]; simpl; split;
    try tauto; try lia; try discriminate; intros; reflexivity.
Qed.

Lemma resolve_chosen (annotations : list AnnotationData) (offset : Offset) :
  Spec.resolve annotations offset =
  option_map (fun first => id (fst first))
    (hd_error (stable_sort (byKey offset) (chosen annotations))).
Proof.
  unfold Spec.resolve, chosen, ResolverFacts.markupLike, ResolverFacts.noteLike, byKey.
  cbv zeta.
  destruct (List.filter (fun c => negb (Spec.isStickyNote (fst c))) _) as [|m ms];
    destruct (stable_sort _ _); reflexivity.
Qed.

Lemma chosen_valid (annotations : list AnnotationData) (c : Spec.Scored) :
  In c (chosen annotations) -> In c (Spec.withValidRect annotations).
Proof.
  unfold chosen, ResolverFacts.markupLike, ResolverFacts.noteLike.
  destruct (List.filter (fun c => negb (Spec.isStickyNote (fst c))) _) as [|m ms] eqn:E.
  - intros H. apply filter_In in H. tauto.
  - rewrite <- E. intros H. apply filter_In in H. tauto.
Qed.

(** A candidate with a rect is in the sorted array, unless it is a sticky
    note and the array holds none. *)
Lemma valid_chosen (annotations : list AnnotationData) (c : Spec.Scored) :
  In c (Spec.withValidRect annotations) ->
  In c (chosen annotations) \/
  (Spec.isStickyNote (fst c) = true /\
   forall d, In d (chosen annotations) -> Spec.isStickyNote (fst d) = false).
Proof.
  intros Hc. unfold chosen, ResolverFacts.markupLike, ResolverFacts.noteLike.
  destruct (List.filter (fun c => negb (Spec.isStickyNote (fst c))) _) as [|m ms] eqn:E.
  - left. apply filter_In. split; [exact Hc|].
    destruct (Spec.isStickyNote (fst c)) eqn:S; [reflexivity|].
    assert (H : In c (List.filter (fun c => negb (Spec.isStickyNote (fst c))) (Spec.withValidRect annotations))).
    { apply filter_In. split; [exact Hc|]. rewrite S. reflexivity. }
    rewrite E in H. destruct H.
  - rewrite <- E.
    destruct (Spec.isStickyNote (fst c)) eqn:S.
    + right. split; [reflexivity|]. intros d Hd. apply filter_In in Hd as [_ Hd].
      destruct (Spec.isStickyNote (fst d)); [discriminate Hd | reflexivity].
    + left. apply filter_In. split; [exact Hc|]. rewrite S. reflexivity.
Qed.

Lemma chosen_nil (annotations : list AnnotationData) :
  chosen annotations = [] <-> forall a, In a annotations -> hasRect a = false.
Proof.
  split.
  - intros E a Ha. rewrite validRect_hasRect.
    destruct (Spec.validRect a) as [q|] eqn:V; [|reflexivity].
    assert (Hin : In (a, q) (Spec.withValidRect annotations))
      by (apply ResolverFacts.In_withValidRect; split; assumption).
    destruct (valid_chosen annotations (a, q) Hin) as [H|[_ H]].
    + rewrite E in H. destruct H.
    + exfalso. revert Hin E. unfold chosen, ResolverFacts.markupLike, ResolverFacts.noteLike.
      destruct (List.filter (fun c => negb (Spec.isStickyNote (fst c))) _) as [|m ms] eqn:Em;
        [|discriminate].
      intros Hin En.
      destruct (Spec.isStickyNote a) eqn:S.
      * assert (Hn : In (a, q) (List.filter (fun c => Spec.isStickyNote (fst c)) (Spec.withValidRect annotations))).
        { apply filter_In. split; [exact Hin | exact S]. }
        rewrite En in Hn. destruct Hn.
      * assert (Hm : In (a, q) (List.filter (fun c => negb (Spec.isStickyNote (fst c))) (Spec.withValidRect annotations))).
        { apply filter_In. split; [exact Hin|]. simpl. rewrite S. reflexivity. }
        rewrite Em in Hm. destruct Hm.
  - intros H. destruct (chosen annotations) as [|[a q] rest] eqn:E; [reflexivity|].
    assert (Hin : In (a, q) (Spec.withValidRect annotations))
      by (apply chosen_valid; rewrite E; left; reflexivity).
    apply ResolverFacts.In_withValidRect in Hin as [Ha V].
    specialize (H a Ha). rewrite validRect_hasRect, V in H. discriminate H.
Qed.

Lemma classRank_keyRank (offset : Offset) (a : AnnotationData) (l b r t : number) :
  classRank offset a l b r t =
  (if Spec.isStickyNote a then 4 else 0) + keyRank offset (a, (l, b, r, t)).
Proof.
  unfold classRank, keyRank, Spec.isStickyNote. cbn [fst snd].
  rewrite ResolverFacts.measure_spec, ResolverFacts.includes_textMarkupSubtypes.
  cbn [snd]. lia.
Qed.

Lemma keyRank_bound (offset : Offset) (c : Spec.Scored) : keyRank offset c <= 3.
Proof.
  unfold keyRank.
  destruct (Spec.containsPoint _ _), (Spec.isTextMarkupSubtype _); simpl; lia.
Qed.

Lemma byKey_keyRank (offset : Offset) :
  (forall x y, byKey offset x y = Gt -> keyRank offset y <= keyRank offset x) /\
  (forall x y, keyRank offset y < keyRank offset x -> byKey offset x y = Gt).
Proof.
  unfold byKey, keyRank, Spec.compareKeys, Spec.key.
  cbn [Spec.k_containsPoint Spec.k_isTextMarkup Spec.k_distance].
  split; intros x y;
    destruct (Spec.containsPoint (snd x) offset), (Spec.containsPoint (snd y) offset),
      (Spec.isTextMarkupSubtype (fst x)), (Spec.isTextMarkupSubtype (fst y));
    simpl; intros H; try lia; try discriminate H; reflexivity.
Qed.

(** What the result is the id of. *)
Lemma closest_first (child : PDFViewerChild) (page : number) (offset : Offset)
    (closestId : string) :
  findClosestAnnotationToOffset child page offset = Some closestId ->
  exists pageView first,
    getPage child page = Some pageView /\
    hd_error (stable_sort (byKey offset) (chosen (getAnnotations pageView))) = Some first /\
    id (fst first) = closestId.
Proof.
  unfold findClosestAnnotationToOffset.
  destruct (getPage child page) as [pageView|]; [|discriminate].
  rewrite ResolverFacts.closestAmong_resolve, resolve_chosen.
  destruct (hd_error _) as [first|] eqn:E; [|discriminate].
  intros H. inversion H. exists pageView, first. auto.
Qed.

Lemma first_of_best_class (offset : Offset) (annotations : list AnnotationData)
    (first : Spec.Scored) :
  hd_error (stable_sort (byKey offset) (chosen annotations)) = Some first ->
  forall other l b r t rest,
    In other annotations -> rect other = Some (l :: b :: r :: t :: rest) ->
    (if Spec.isStickyNote (fst first) then 4 else 0) + keyRank offset first
    <= classRank offset other l b r t.
Proof.
  intros Hhd other l b r t rest Hin Hrect.
  assert (V : Spec.validRect other = Some (l, b, r, t))
    by (apply validRect_rect; exists rest; exact Hrect).
  assert (Hvalid : In (other, (l, b, r, t)) (Spec.withValidRect annotations))
    by (apply ResolverFacts.In_withValidRect; split; assumption).
  rewrite classRank_keyRank.
  destruct (byKey_keyRank offset) as [Hgt Hlt].
  pose proof (head_in _ _ _ Hhd) as Hfirst.
  destruct (valid_chosen annotations _ Hvalid) as [Hc | [Hnote Hnone]].
  - pose proof (head_least_rank _ (keyRank offset) _ _ Hgt Hlt Hhd _ Hc) as Hle.
    cbn [fst] in *.
    destruct (Spec.isStickyNote other) eqn:So; [destruct (Spec.isStickyNote (fst first)); lia|].
    assert (Sf : Spec.isStickyNote (fst first) = false).
    { destruct (valid_chosen annotations first (chosen_valid _ _ Hfirst)) as [_|[Sf Hall]].
      - revert Hfirst Hc. unfold chosen, ResolverFacts.markupLike, ResolverFacts.noteLike.
        destruct (List.filter (fun c => negb (Spec.isStickyNote (fst c))) _) as [|m ms] eqn:Em.
        + intros _ Hc. apply filter_In in Hc as [_ Hc]. cbn [fst] in Hc. congruence.
        + rewrite <- Em. intros Hf _. apply filter_In in Hf as [_ Hf].
          destruct (Spec.isStickyNote (fst first)); [discriminate Hf | reflexivity].
      - rewrite (Hall first Hfirst) in Sf. discriminate Sf. }
    rewrite Sf. lia.
  - cbn [fst] in Hnote. rewrite Hnote, (Hnone first Hfirst).
    pose proof (keyRank_bound offset first). lia.
Qed.

(** [X1] [findClosestAnnotationToOffset] returns [null] in two cases
    only: the page has no view, or no annotation of the page has a rect
    with four components (in particular when the page has no annotation).
    As soon as one annotation has such a rect, an id is returned. *)
Theorem closest_is_null_iff (child : PDFViewerChild) (page : number) (offset : Offset) :
  findClosestAnnotationToOffset child page offset = None <->
  match getPage child page with
  | None => True
  | Some pageView =>
      forall annot, In annot (getAnnotations pageView) ->
        match rect annot with
        | Some components => length components < 4
        | None => True
        end
  end.
Proof.
  unfold findClosestAnnotationToOffset.
  destruct (getPage child page) as [pageView|]; [|tauto].
  rewrite ResolverFacts.closestAmong_resolve, resolve_chosen.
  destruct (hd_error _) as [first|] eqn:E; simpl.
  - split; [discriminate|]. intros H. exfalso.
    assert (Hnil : chosen (getAnnotations pageView) = []).
    { apply chosen_nil. intros a Ha. apply hasRect_length, H, Ha. }
    apply head_in in E. rewrite Hnil in E. destruct E.
  - split; [|reflexivity]. intros _ annot Ha.
    apply hasRect_length. apply head_none in E.
    exact (proj1 (chosen_nil _) E annot Ha).
Qed.


(** [X3] When no candidate's distance is [NaN], the annotation whose id
    [findClosestAnnotationToOffset] returns is of the best class present
    on the page and, within that class, no annotation has a strictly
    smaller distance to the target. *)
Theorem closest_has_least_distance (child : PDFViewerChild) (page : number)
    (offset : Offset) (closestId : string) :
  (forall pageView annot l b r t rest,
     getPage child page = Some pageView -> In annot (getAnnotations pageView) ->
     rect annot = Some (l :: b :: r :: t :: rest) ->
     isNaN (fst (measure l b r t offset)) = false) ->
  findClosestAnnotationToOffset child page offset = Some closestId ->
  exists pageView annot l b r t rest,
    getPage child page = Some pageView /\
    In annot (getAnnotations pageView) /\
    rect annot = Some (l :: b :: r :: t :: rest) /\
    id annot = closestId /\
    forall other l' b' r' t' rest',
      In other (getAnnotations pageView) ->
      rect other = Some (l' :: b' :: r' :: t' :: rest') ->
      classRank offset annot l b r t <= classRank offset other l' b' r' t' /\
      (classRank offset other l' b' r' t' = classRank offset annot l b r t ->
       (fst (measure l' b' r' t' offset) <? fst (measure l b r t offset))%float = false).
Proof.
  intros Hnum H.
  destruct (closest_first _ _ _ _ H) as (pageView & [annot [[[l b] r] t]] & Hp & Hhd & Hid).
  pose proof (head_in _ _ _ Hhd) as Hfirst.
  pose proof (chosen_valid _ _ Hfirst) as Hvalid.
  apply ResolverFacts.In_withValidRect in Hvalid as [Hin V].
  apply validRect_rect in V as [rest Hrect].
  exists pageView, annot, l, b, r, t, rest.
  do 4 (split; [assumption|]).
  intros other l' b' r' t' rest' Hother Hrect'. split.
  - rewrite (classRank_keyRank offset annot).
    exact (first_of_best_class offset _ _ Hhd other l' b' r' t' rest' Hother Hrect').
  - intros Hsame.
    assert (Hord : forall c, In c (chosen (getAnnotations pageView)) ->
                     ResolverFacts.ordinary offset c).
    { intros [a [[[la ba] ra] ta]] Hc. unfold ResolverFacts.ordinary. cbn [snd].
      apply chosen_valid, ResolverFacts.In_withValidRect in Hc as [Ha Va].
      apply validRect_rect in Va as [resta Hra].
      specialize (Hnum pageView a la ba ra ta resta Hp Ha Hra).
      rewrite ResolverFacts.measure_spec in Hnum. exact Hnum. }
    assert (Vo : Spec.validRect other = Some (l', b', r', t'))
      by (apply validRect_rect; exists rest'; exact Hrect').
    assert (Ho : In (other, (l', b', r', t')) (Spec.withValidRect (getAnnotations pageView)))
      by (apply ResolverFacts.In_withValidRect; split; assumption).
    rewrite !classRank_keyRank in Hsame.
    destruct (valid_chosen _ _ Ho) as [Hc | [Hnote Hnone]].
    + pose proof (ResolverFacts.first_has_least_key offset _ _ Hord Hhd _ Hc) as Hleast.
      rewrite !ResolverFacts.measure_spec. cbn [fst].
      revert Hleast Hsame. unfold keyRank, Spec.compareKeys, Spec.key, Spec.ascending.
      cbn [fst snd Spec.k_containsPoint Spec.k_isTextMarkup Spec.k_distance].
      destruct (Spec.isStickyNote other), (Spec.isStickyNote annot),
        (Spec.containsPoint (l', b', r', t') offset), (Spec.containsPoint (l, b, r, t) offset),
        (Spec.isTextMarkupSubtype other), (Spec.isTextMarkupSubtype annot);
        simpl; intros Hleast Hsame; try lia;
        destruct (_ <? _)%float; try reflexivity; exfalso; apply Hleast; reflexivity.
    + cbn [fst] in Hnote. specialize (Hnone _ Hfirst). cbn [fst] in Hnone.
      rewrite Hnote, Hnone in Hsame.
      pose proof (keyRank_bound offset (other, (l', b', r', t'))).
      pose proof (keyRank_bound offset (annot, (l, b, r, t))). lia.
Qed.

(** ** Without a target point *)

Lemma map_fst_withValidRect (annotations : list AnnotationData) :
  map fst (Spec.withValidRect annotations) = List.filter hasRect annotations.
Proof.
  unfold Spec.withValidRect.
  induction annotations as [|a annotations IH]; [reflexivity|].
  simpl. rewrite validRect_hasRect.
  destruct (Spec.validRect a) as [q|]; simpl; [f_equal|]; exact IH.
Qed.

Lemma map_fst_filter {A B} (p : A -> bool) (l : list (A * B)) :
  map fst (List.filter (fun c => p (fst c)) l) = List.filter p (map fst l).
Proof.
  induction l as [|c l IH]; [reflexivity|].
  simpl. destruct (p (fst c)); simpl; rewrite IH; reflexivity.
Qed.

Lemma find_map_fst {A B} (p : A -> bool) (l : list (A * B)) :
  option_map fst (find (fun c => p (fst c)) l) = find p (map fst l).
Proof.
  induction l as [|c l IH]; [reflexivity|].
  simpl. destruct (p (fst c)); [reflexivity | exact IH].
Qed.

Lemma find_pointwise {A} (p q : A -> bool) (l : list A) :
  (forall a, p a = q a) -> find p l = find q l.
Proof.
  intros H. induction l as [|a l IH]; [reflexivity|].
  simpl. rewrite H, IH. reflexivity.
Qed.

Lemma hd_error_map {A B} (f : A -> B) (l : list A) :
  hd_error (map f l) = option_map f (hd_error l).
Proof. destruct l; reflexivity. Qed.

Lemma byKey_no_target (x y : Spec.Scored) :
  byKey (mkOffset None None) x y = Gt <->
  Spec.isTextMarkupSubtype (fst x) = false /\ Spec.isTextMarkupSubtype (fst y) = true.
Proof.
  unfold byKey, Spec.compareKeys, Spec.key, Spec.containsPoint, Spec.distance.
  destruct (snd x) as [[[lx bx] rx] tx], (snd y) as [[[ly by_] ry] ty].
  cbn [o_left o_top Spec.k_containsPoint Spec.k_isTextMarkup Spec.k_distance].
  destruct (Spec.isTextMarkupSubtype (fst x)), (Spec.isTextMarkupSubtype (fst y)); simpl;
    split; try discriminate; try tauto; intros [? ?]; discriminate.
Qed.

(** With a target that has neither [left] nor [top], page order
    decides. *)
Lemma closestAmong_no_target (annotations : list AnnotationData) :
  let withRect := List.filter hasRect annotations in
  let others := List.filter (fun a => negb (String.eqb (subtype a) "Text")) withRect in
  closestAmong annotations (mkOffset None None) =
  option_map id
    match find (fun a => includes textMarkupSubtypes (subtype a)) others with
    | Some markup => Some markup
    | None =>
        match others with
        | other :: _ => Some other
        | [] => hd_error withRect
        end
    end.
Proof.
  intros withRect others.
  rewrite ResolverFacts.closestAmong_resolve, resolve_chosen.
  rewrite (head_two_kinds _ (fun c => Spec.isTextMarkupSubtype (fst c)) _ byKey_no_target).
  assert (Hothers : map fst (ResolverFacts.markupLike (Spec.withValidRect annotations)) = others).
  { unfold ResolverFacts.markupLike, others, withRect.
    rewrite (map_fst_filter (fun a => negb (Spec.isStickyNote a))), map_fst_withValidRect.
    reflexivity. }
  assert (Hfind : forall l : list Spec.Scored,
            option_map (fun first => id (fst first))
              match find (fun c => Spec.isTextMarkupSubtype (fst c)) l with
              | Some m => Some m
              | None => hd_error l
              end
            = option_map id
                match find (fun a => includes textMarkupSubtypes (subtype a)) (map fst l) with
                | Some m => Some m
                | None => hd_error (map fst l)
                end).
  { intros l.
    rewrite (find_pointwise (fun a => includes textMarkupSubtypes (subtype a))
               Spec.isTextMarkupSubtype _ ResolverFacts.includes_textMarkupSubtypes).
    rewrite <- (find_map_fst Spec.isTextMarkupSubtype), hd_error_map.
    unfold Spec.Scored in *.
    match goal with |- context [find ?p l] => destruct (find p l) end; [reflexivity|].
    destruct (hd_error l); reflexivity. }
  rewrite Hfind. unfold chosen.
  destruct (ResolverFacts.markupLike (Spec.withValidRect annotations)) as [|m ms] eqn:Em.
  - simpl in Hothers. rewrite <- Hothers. simpl find. cbv iota.
    assert (Hnotes : ResolverFacts.noteLike (Spec.withValidRect annotations)
                     = Spec.withValidRect annotations).
    { apply ResolverFacts.filter_all. intros c Hc.
      destruct (Spec.isStickyNote (fst c)) eqn:S; [reflexivity|].
      assert (H : In c (ResolverFacts.markupLike (Spec.withValidRect annotations))).
      { apply filter_In. split; [exact Hc|]. rewrite S. reflexivity. }
      rewrite Em in H. destruct H. }
    rewrite Hnotes, map_fst_withValidRect. fold withRect.
    destruct (find _ withRect) as [m|] eqn:Ef; [|reflexivity].
    exfalso. apply find_some in Ef as [Hin Hm].
    unfold withRect in Hin. rewrite <- map_fst_withValidRect in Hin.
    apply in_map_iff in Hin as (c & <- & Hc).
    rewrite <- Hnotes in Hc. apply filter_In in Hc as [_ S].
    change (includes textMarkupSubtypes (subtype (fst c)) = true) in Hm.
    rewrite ResolverFacts.includes_textMarkupSubtypes in Hm.
    rewrite (ResolverFacts.stickyNote_not_textMarkup _ S) in Hm. discriminate Hm.
  - rewrite Hothers. destruct (find _ others); [reflexivity|].
    rewrite <- Hothers. reflexivity.
Qed.

(** [X4] With a target that has neither [left] nor [top], every distance
    is [Infinity] and the comparator's difference is [NaN], a tie: page
    order decides.  Among the annotations with a four-component rect that
    are not sticky notes, the first text-markup one is returned, or the
    first one when none is text markup; when they are all sticky notes,
    the first sticky note is returned. *)
Theorem no_target_takes_page_order (child : PDFViewerChild) (page : number) :
  findClosestAnnotationToOffset child page (mkOffset None None) =
  match getPage child page with
  | None => None
  | Some pageView =>
      let withRect := List.filter hasRect (getAnnotations pageView) in
      let others :=
        List.filter (fun a => negb (String.eqb (subtype a) "Text")) withRect in
      option_map id
        match find (fun a => includes textMarkupSubtypes (subtype a)) others with
        | Some markup => Some markup
        | None =>
            match others with
            | other :: _ => Some other
            | [] => hd_error withRect
            end
        end
  end.
Proof.
  unfold findClosestAnnotationToOffset.
  destruct (getPage child page) as [pageView|]; [|reflexivity].
  apply closestAmong_no_target.
Qed.

(** ** A page with three annotations *)

Definition samplePage : PageView :=
  mkPageView
    [mkAnnot "1R" "Link" (Some [0; 0; 10; 10]%float);
     mkAnnot "2R" "Text" (Some [40; 40; 60; 60]%float);
     mkAnnot "3R" "Highlight" (Some [0; 20; 10; 30]%float);
     mkAnnot "4R" "Highlight" (Some [100; 20; 110; 30]%float)].

Definition sampleChild : PDFViewerChild :=
  mkChild (fun p => if (p =? 1)%float then Some samplePage else None).


Lemma closest_has_least_distance_witness :
  exists pageView annot l b r t rest,
    getPage sampleChild 1%float = Some pageView /\
    In annot (getAnnotations pageView) /\
    rect annot = Some (l :: b :: r :: t :: rest) /\
    id annot = "4R" /\
    forall other l' b' r' t' rest',
      In other (getAnnotations pageView) ->
      rect other = Some (l' :: b' :: r' :: t' :: rest') ->
      classRank (mkOffset (Some 90%float) (Some 50%float)) annot l b r t
      <= classRank (mkOffset (Some 90%float) (Some 50%float)) other l' b' r' t' /\
      (classRank (mkOffset (Some 90%float) (Some 50%float)) other l' b' r' t'
       = classRank (mkOffset (Some 90%float) (Some 50%float)) annot l b r t ->
       (fst (measure l' b' r' t' (mkOffset (Some 90%float) (Some 50%float)))
        <? fst (measure l b r t (mkOffset (Some 90%float) (Some 50%float))))%float = false).
Proof.
  apply (closest_has_least_distance sampleChild 1%float
           (mkOffset (Some 90%float) (Some 50%float)) "4R").
  - intros pageView annot l b r t rest Hp Hin Hrect.
    assert (E : Some samplePage = Some pageView) by exact Hp.
    inversion E; subst pageView; clear E Hp.
    simpl in Hin.
    repeat (destruct Hin as [<-|Hin];
            [inversion Hrect; subst; vm_compute; reflexivity|]).
    destruct Hin.
  - vm_compute. reflexivity.
Defined.

End ResolverOrder.

(* ===================================================================== *)
(** * More facts about strings and matches *)
(* ===================================================================== *)

Module TextFacts.
Import JS StringFacts MatchFacts.

(** Every character of [s] is in the class. *)
Fixpoint every (class : ascii -> bool) (s : string) : bool :=
  match s with
  | "" => true
  | String c s' => class c && every class s'
  end.

Lemma every_takeWhile (class : ascii -> bool) (s : string) :
  every class (takeWhile class s) = true.
Proof.
  induction s as [|c s IH]; [reflexivity|].
  simpl. destruct (class c) eqn:E; [|reflexivity].
  simpl. rewrite E. exact IH.
Qed.

Lemma every_indexOf (x : ascii) (s : string) :
  every (fun c => negb (Ascii.eqb c x)) s = true <-> indexOf s x = (-1)%Z.
Proof.
  induction s as [|c s IH]; simpl; [tauto|].
  pose proof (indexOf_bounds s x).
  destruct (Ascii.eqb c x); simpl.
  - split; [discriminate | lia].
  - rewrite IH. destruct (Z.ltb_spec (indexOf s x) 0); split; lia.
Qed.

(** What a match captures is a non-empty run of class characters. *)
Lemma matchAfter_run (p : string) (class : ascii -> bool) (s run : string) :
  matchAfter p class s = Some run -> run <> "" /\ every class run = true.
Proof.
  induction s as [|a s IH]; rewrite matchAfter_unfold.
  - destruct (String.prefix p "") eqn:E; [|discriminate].
    pose proof (every_takeWhile class (drop (String.length p) "")) as Hall.
    destruct (takeWhile class (drop (String.length p) "")) as [|c r]; [discriminate|].
    intros H. inversion H; subst. split; [discriminate | exact Hall].
  - destruct (String.prefix p (String a s)) eqn:E; [|exact IH].
    pose proof (every_takeWhile class (drop (String.length p) (String a s))) as Hall.
    destruct (takeWhile class (drop (String.length p) (String a s))) as [|c r]; [exact IH|].
    intros H. inversion H; subst. split; [discriminate | exact Hall].
Qed.

Lemma includes_unfold (s p : string) :
  Text.includes s p =
  String.prefix p s
  || match s with
     | String _ s' => Text.includes s' p
     | "" => false
     end.
Proof. destruct s; reflexivity. Qed.

(** A match needs its pattern's literal prefix to occur. *)
Lemma matchAfter_includes (p : string) (class : ascii -> bool) (s run : string) :
  matchAfter p class s = Some run -> Text.includes s p = true.
Proof.
  induction s as [|a s IH]; rewrite matchAfter_unfold, includes_unfold.
  - destruct (String.prefix p ""); [reflexivity | discriminate].
  - destruct (String.prefix p (String a s)); [reflexivity|].
    intros H. rewrite (IH H). reflexivity.
Qed.

Lemma prefix_take (p s : string) (n : nat) :
  String.prefix p (take n s) = true -> String.prefix p s = true.
Proof.
  revert s n. induction p as [|a p IH]; intros s n H; [apply prefix_empty|].
  destruct n as [|n], s as [|b s]; try discriminate H.
  simpl take in H. rewrite prefix_cons in *.
  apply andb_prop in H as [-> H]. simpl. exact (IH _ _ H).
Qed.

Lemma includes_take (p s : string) (n : nat) :
  p <> "" -> Text.includes (take n s) p = true -> Text.includes s p = true.
Proof.
  intros Hp. revert n. induction s as [|a s IH]; intros n H.
  - destruct n; exact H.
  - destruct n as [|n].
    + simpl take in H. rewrite includes_unfold in H.
      destruct p; [congruence | discriminate H].
    + simpl take in H. rewrite includes_unfold in H. rewrite includes_unfold.
      apply orb_prop in H as [H|H].
      * rewrite (prefix_take p (String a s) (S n) H). reflexivity.
      * rewrite (IH _ H). apply orb_true_r.
Qed.

Lemma includes_drop (p s : string) (n : nat) :
  Text.includes (drop n s) p = true -> Text.includes s p = true.
Proof.
  revert n. induction s as [|a s IH]; intros n H.
  - destruct n; exact H.
  - destruct n as [|n]; [exact H|].
    simpl drop in H. rewrite includes_unfold, (IH _ H). apply orb_true_r.
Qed.

Lemma includes_slice (p s : string) (i j : Z) :
  p <> "" -> Text.includes (slice s i j) p = true -> Text.includes s p = true.
Proof.
  intros Hp H. unfold slice in H. cbv zeta in H.
  apply includes_take in H; [|exact Hp]. exact (includes_drop _ _ _ H).
Qed.

Lemma take_drop (n : nat) (s : string) : take n s ++ drop n s = s.
Proof.
  revert s. induction n as [|n IH]; intros s; [destruct s; reflexivity|].
  destruct s as [|c s]; [reflexivity|].
  simpl take. simpl drop. rewrite append_cons, IH. reflexivity.
Qed.

Lemma endsWith_append (s p : string) :
  Text.endsWith s p = true <-> exists t, s = t ++ p.
Proof.
  unfold Text.endsWith. cbv zeta. split.
  - intros H. apply andb_prop in H as [_ H]. apply String.eqb_eq in H.
    set (k := (String.length s - String.length p)%nat) in *.
    exists (take k s). rewrite <- H. symmetry. apply take_drop.
  - intros [t ->]. rewrite length_append.
    replace (String.length t + String.length p - String.length p)%nat
      with (String.length t) by lia.
    rewrite drop_append, String.eqb_refl, andb_true_r.
    apply Nat.leb_le. lia.
Qed.

Lemma startsWith_append (s p : string) :
  startsWith s p = true <-> exists t, s = p ++ t.
Proof.
  unfold startsWith. revert s. induction p as [|a p IH]; intros s.
  - rewrite prefix_empty. split; [intros _; exists s; reflexivity | reflexivity].
  - destruct s as [|b s].
    + split; [discriminate | intros [t H]; discriminate H].
    + rewrite prefix_cons, andb_true_iff, IH, Ascii.eqb_eq. split.
      * intros [-> [t ->]]. exists t. reflexivity.
      * intros [t H]. rewrite append_cons in H. inversion H; subst.
        split; [reflexivity | exists t; reflexivity].
Qed.

(** ** Splitting at a separator *)

Lemma split_nonempty (s : string) (sep : ascii) : split s sep <> [].
Proof.
  destruct s as [|c s]; simpl; [discriminate|].
  destruct (Ascii.eqb c sep); [discriminate|].
  destruct (split s sep); discriminate.
Qed.

(** The first part is what precedes the first separator. *)
Lemma split_first (a b : string) (sep : ascii) :
  indexOf a sep = (-1)%Z ->
  exists parts, split (a ++ String sep b) sep = a :: parts.
Proof.
  induction a as [|c a IH]; intros H.
  - simpl. rewrite Ascii.eqb_refl. eexists. reflexivity.
  - rewrite append_cons. simpl in *.
    destruct (Ascii.eqb c sep); [discriminate H|].
    pose proof (indexOf_bounds a sep).
    destruct (Z.ltb_spec (indexOf a sep) 0) as [Hn|Hp]; [|lia].
    destruct IH as [parts ->]; [lia|]. eexists. reflexivity.
Qed.

Lemma split_absent (a : string) (sep : ascii) :
  indexOf a sep = (-1)%Z -> split a sep = [a].
Proof.
  induction a as [|c a IH]; intros H; [reflexivity|].
  simpl in *. destruct (Ascii.eqb c sep); [discriminate H|].
  pose proof (indexOf_bounds a sep).
  destruct (Z.ltb_spec (indexOf a sep) 0) as [Hn|Hp]; [|lia].
  rewrite IH by lia. reflexivity.
Qed.

(** No part contains the separator, and no part but the last is lost:
    the parts are what lies between the separators. *)
Lemma split_parts (s : string) (sep : ascii) (part : string) :
  In part (split s sep) -> indexOf part sep = (-1)%Z.
Proof.
  revert part. induction s as [|c s IH]; intros part H.
  - destruct H as [<-|[]]. reflexivity.
  - simpl in H. destruct (Ascii.eqb c sep) eqn:E.
    + destruct H as [<-|H]; [reflexivity | exact (IH _ H)].
    + pose proof (split_nonempty s sep).
      destruct (split s sep) as [|h t]; [congruence|].
      destruct H as [<-|H].
      * simpl. rewrite E. rewrite (IH h) by (left; reflexivity). reflexivity.
      * apply IH. right. exact H.
Qed.

Lemma includes_char (s : string) (c : ascii) :
  Text.includes s (String c "") = negb (indexOf s c <? 0)%Z.
Proof.
  induction s as [|a s IH]; [reflexivity|].
  rewrite includes_unfold, prefix_cons, prefix_empty, andb_true_r, IH.
  simpl indexOf. rewrite (Ascii.eqb_sym c a).
  pose proof (indexOf_bounds s c).
  destruct (Ascii.eqb a c); [reflexivity|]. simpl.
  destruct (Z.ltb_spec (indexOf s c) 0); simpl; [reflexivity|].
  destruct (Z.ltb_spec (indexOf s c + 1) 0); [lia | reflexivity].
Qed.

(** ** Trimming *)

Lemma trimEnd_append_visible (s : string) (c : ascii) :
  isWhiteSpace c = false -> trimEnd (s ++ String c "") = s ++ String c "".
Proof.
  intros Hc. induction s as [|a s IH].
  - simpl. rewrite Hc. reflexivity.
  - rewrite append_cons. simpl. rewrite IH.
    destruct (s ++ String c "") eqn:E; [|reflexivity].
    destruct s; discriminate E.
Qed.

(** A string that starts and ends with a visible character is left as it
    is. *)
Lemma trim_visible (a b : ascii) (s : string) :
  isWhiteSpace a = false -> isWhiteSpace b = false ->
  trim (String a (s ++ String b "")) = String a (s ++ String b "").
Proof.
  intros Ha Hb. unfold trim, trimStart. simpl dropWhile. rewrite Ha.
  rewrite <- append_cons. apply trimEnd_append_visible. exact Hb.
Qed.

End TextFacts.

(* ===================================================================== *)
(** * What a resolved target holds *)
(* ===================================================================== *)

Module LinksMore.
Import JS Links StringFacts MatchFacts TextFacts.

(** The fields of a target besides [file] and [page]: the numbers are
    numbers, an offset has a coordinate, an annotation id is a non-empty
    text without [&]. *)
Definition wellFormedTarget (target : Target) : Prop :=
  (forall r, rect target = Some r ->
     isNaN (r_left r) = false /\ isNaN (r_bottom r) = false /\
     isNaN (r_right r) = false /\ isNaN (r_top r) = false) /\
  (forall o, offset target = Some o ->
     (Resolver.o_left o <> None \/ Resolver.o_top o <> None) /\
     (forall x, Resolver.o_left o = Some x -> isNaN x = false) /\
     (forall y, Resolver.o_top o = Some y -> isNaN y = false)) /\
  (forall a, annotationId target = Some a -> a <> "" /\ indexOf a "&" = (-1)%Z).

Lemma parseRect_numbers (m : option string) (r : Rect) :
  parseRect m = Some r ->
  isNaN (r_left r) = false /\ isNaN (r_bottom r) = false /\
  isNaN (r_right r) = false /\ isNaN (r_top r) = false.
Proof.
  unfold parseRect. destruct m as [capture|]; [|discriminate].
  cbv zeta.
  destruct (map _ (split capture ",")) as [|p0 [|p1 [|p2 [|p3 [|p4 rest]]]]];
    try discriminate.
  simpl. intros H.
  destruct (isNaN p0) eqn:E0, (isNaN p1) eqn:E1, (isNaN p2) eqn:E2, (isNaN p3) eqn:E3;
    try discriminate H.
  inversion H; subst. simpl. repeat split; assumption.
Qed.

Lemma parseOffset_numbers (m : option string) (o : Resolver.Offset) :
  parseOffset m = Some o ->
  (Resolver.o_left o <> None \/ Resolver.o_top o <> None) /\
  (forall x, Resolver.o_left o = Some x -> isNaN x = false) /\
  (forall y, Resolver.o_top o = Some y -> isNaN y = false).
Proof.
  unfold parseOffset. destruct m as [capture|]; [|discriminate].
  cbv zeta.
  set (left := parseComponent _). set (top := parseComponent _).
  unfold isNumber.
  destruct left as [x|], top as [y|]; simpl;
    try destruct (isNaN x) eqn:Ex; try destruct (isNaN y) eqn:Ey; simpl;
    intros H; inversion H; subst; simpl;
    (split; [first [left; discriminate | right; discriminate]|]);
    split; intros z Hz; inversion Hz; subst; assumption.
Qed.

Lemma annotation_text (s a : string) :
  matchAfter "annotation=" notAmpersand s = Some a ->
  a <> "" /\ indexOf a "&" = (-1)%Z.
Proof.
  intros H. apply matchAfter_run in H as [Hne Hall].
  split; [exact Hne|]. apply every_indexOf. exact Hall.
Qed.

Lemma decodeSubpath_wellFormed (subpath : string) (sourceFile : TFile) (target : Target) :
  decodeSubpath subpath sourceFile = Some target -> wellFormedTarget target.
Proof.
  unfold decodeSubpath.
  destruct (matchAfter "#page=" isDigit subpath) as [digits|]; [|discriminate].
  intros H. inversion H; subst; clear H. unfold wellFormedTarget. simpl.
  split; [|split].
  - apply parseRect_numbers.
  - apply parseOffset_numbers.
  - apply annotation_text.
Qed.

(** [X5] Whatever the link text and the collaborators, a target returned
    by [resolveInternalLink] or by [resolveWikilink] never carries [NaN]:
    the four components of [rect] are numbers; [offset], when present,
    has at least one of [left] and [top], and those it has are numbers;
    and [annotationId], when present, is a non-empty text without [&]. *)
Theorem resolved_target_is_well_formed {Dest Doc : Type}
    (pdfJsDestArrayToSubpath : Dest -> Doc -> Completion (option string))
    (getFirstLinkpathDest : string -> string -> Completion (option TFile))
    (dest : Dest) (doc : Doc) (url : string) (sourceFile : TFile) (target : Target) :
  resolveInternalLink pdfJsDestArrayToSubpath dest doc sourceFile = Normal (Some target) \/
  resolveWikilink getFirstLinkpathDest url sourceFile = Normal (Some target) ->
  wellFormedTarget target.
Proof.
  intros [H|H].
  - unfold resolveInternalLink, tryCatch, bind in H.
    destruct (pdfJsDestArrayToSubpath dest doc) as [[[|c subpath]|]|e];
      try discriminate H.
    inversion H as [Hd]. exact (decodeSubpath_wellFormed _ _ _ Hd).
  - unfold resolveWikilink, tryCatch, bind in H. cbv zeta in H.
    destruct (getFirstLinkpathDest _ _) as [[file|]|e]; try discriminate H.
    inversion H; subst; clear H. unfold wellFormedTarget. simpl.
    split; [|split].
    + apply parseRect_numbers.
    + apply parseOffset_numbers.
    + apply annotation_text.
Qed.

Lemma resolved_target_is_well_formed_witness :
  wellFormedTarget
    (mkTarget (mkTFile "Notes.pdf") 5%float (Some "12R")
       (Some (Resolver.mkOffset None (Some 200%float))) None).
Proof.
  apply (resolved_target_is_well_formed
           (fun (_ _ : unit) => Normal None) (fun p _ => Normal (Some (mkTFile p)))
           tt tt "[[Notes.pdf#page=5&annotation=12R&offset=x,200&rect=1,2,3]]"
           (mkTFile "A.pdf")).
  right. vm_compute. reflexivity.
Defined.

End LinksMore.

(* ===================================================================== *)
(** * Highlight tracking: what the operations touch and what they show *)
(* ===================================================================== *)

Module HoverMore.
Import JS Hover.

Section Viewer.

Context {Viewport : Type}.
Variable convertToViewportPoint : Viewport -> number -> number -> number * number.
Variable getComputedStyle : ElementRef -> gmap string string.

#[local] Abbreviation State := (@State Viewport).
#[local] Abbreviation Operation := (@Operation Viewport).
#[local] Abbreviation PDFViewerChild := (@PDFViewerChild Viewport).
#[local] Abbreviation highlightLocation :=
  (highlightLocation convertToViewportPoint getComputedStyle).
#[local] Abbreviation perform := (perform convertToViewportPoint getComputedStyle).
#[local] Abbreviation performAll := (performAll convertToViewportPoint getComputedStyle).

(** The shift mode after an operation, given the mode before it. *)
Definition shiftAfter (pressed : bool) (op : Operation) : bool :=
  match op with
  | KeyDown key => if String.eqb key "Shift" then true else pressed
  | KeyUp key => if String.eqb key "Shift" then false else pressed
  | _ => pressed
  end.

(** The operations that set a highlight. *)
Definition setsHighlight (op : Operation) : bool :=
  match op with
  | HighlightAnnotation _ _ _ | HighlightLocation _ _ _ _ => true
  | _ => false
  end.

(** ** The pieces *)

Lemma querySelector_Some (d : gmap ElementRef Element) (layer : ElementRef)
    (annotationId : string) (el : ElementRef) :
  querySelector d layer annotationId = Some el ->
  exists e, d !! el = Some e /\ parent e = Some layer /\
            annotationIdAttr e = Some annotationId.
Proof.
  unfold querySelector. intros H.
  destruct (list_find _ (map_to_list d)) as [[i [el' e]]|] eqn:E; [|discriminate H].
  simpl in H. inversion H; subst el'; clear H.
  apply list_find_Some in E as (Hi & HP & _).
  apply list_elem_of_lookup_2, elem_of_map_to_list in Hi.
  apply bool_decide_unpack in HP as [Hp Ha]. simpl in Hp, Ha.
  exists e. auto.
Qed.

Lemma clearHighlight_frame (st : State) (x : ElementRef) :
  (forall c, currentHighlight st <> Some (x, c)) ->
  document (clearHighlight st) !! x = document st !! x.
Proof.
  intros Hx. unfold clearHighlight.
  destruct (currentHighlight st) as [[el c]|] eqn:E; [|reflexivity].
  simpl. assert (x <> el) by (intros ->; exact (Hx c eq_refl)).
  rewrite !HoverFacts.lookup_update_ne by assumption. reflexivity.
Qed.

Lemma clearHighlight_detached (st : State) (x : ElementRef) (e : Element) :
  document st !! x = Some e -> parent e = None ->
  exists e', document (clearHighlight st) !! x = Some e' /\ parent e' = None.
Proof.
  intros Hx Hp. unfold clearHighlight.
  destruct (currentHighlight st) as [[el c]|]; [|exists e; auto].
  simpl. destruct (decide (x = el)) as [->|Hne].
  - rewrite !HoverFacts.lookup_update_eq, Hx. simpl. eexists. split; reflexivity.
  - rewrite !HoverFacts.lookup_update_ne by assumption. exists e. auto.
Qed.

Lemma lookup_setStyles_eq (el : ElementRef) (props : list (string * StyleValue)) :
  forall (d : gmap ElementRef Element) (e : Element),
    d !! el = Some e ->
    exists e', setStyles el props d !! el = Some e' /\
               parent e' = parent e /\ classes e' = classes e.
Proof.
  induction props as [|p props IH]; intros d e He; simpl.
  - exists e. auto.
  - destruct (IH (update el (setStyle (fst p) (snd p)) d) (setStyle (fst p) (snd p) e))
      as (e' & He' & Hp & Hc).
    + rewrite HoverFacts.lookup_update_eq, He. reflexivity.
    + exists e'. auto.
Qed.

(** What [highlightLocation] leaves on a page that has a view: a new
    element, attached to the page's div and of the location class, is the
    tracked one; the other elements are as [clearHighlight] left them. *)
Lemma highlightLocation_document (child : PDFViewerChild) (page : number)
    (offset : option Resolver.Offset) (rect : option Links.Rect) (st : State)
    (pageView : PageView) :
  getPage child page = Some pageView ->
  let el := fresh (dom (document (clearHighlight st))) in
  let st' := highlightLocation child page offset rect st in
  currentHighlight st' = Some (el, child) /\
  isShiftPressed st' = isShiftPressed (clearHighlight st) /\
  (forall x, x <> el -> document st' !! x = document (clearHighlight st) !! x) /\
  exists e, document st' !! el = Some e /\ parent e = Some (div pageView) /\
            classes e = {[ "shift-hover-location-highlight" ]}.
Proof.
  intros Hpage el st'. subst st'. unfold Hover.highlightLocation.
  rewrite Hpage. unfold createDiv. fold el. cbv zeta.
  set (d0 := document (clearHighlight st)) in *.
  set (created := <[el := mkElement (Some (div pageView))
                            {["shift-hover-location-highlight"]} None ∅]> d0).
  assert (Hnew : created !! el = Some (mkElement (Some (div pageView))
                            {["shift-hover-location-highlight"]} None ∅))
    by apply lookup_insert_eq.
  assert (Hstyled : forall props,
            (forall x, x <> el -> setStyles el props created !! x = d0 !! x) /\
            exists e, setStyles el props created !! el = Some e /\
                      parent e = Some (div pageView) /\
                      classes e = {[ "shift-hover-location-highlight" ]}).
  { intros props. split.
    - intros x Hx. rewrite HoverFacts.lookup_setStyles by exact Hx.
      apply lookup_insert_ne. congruence.
    - destruct (lookup_setStyles_eq el props created _ Hnew) as (e & He & Hp & Hc).
      exists e. auto. }
  assert (Hplain : (forall x, x <> el -> created !! x = d0 !! x) /\
            exists e, created !! el = Some e /\ parent e = Some (div pageView) /\
                      classes e = {[ "shift-hover-location-highlight" ]}).
  { split; [intros x Hx; apply lookup_insert_ne; congruence|].
    eexists. split; [exact Hnew|]. split; reflexivity. }
  match goal with
  | |- currentHighlight (mkState ?D _ _) = _ /\ _ => set (styled := D)
  end.
  assert (HD : (forall x, x <> el -> styled !! x = d0 !! x) /\
            exists e, styled !! el = Some e /\ parent e = Some (div pageView) /\
                      classes e = {[ "shift-hover-location-highlight" ]}).
  { subst styled. destruct rect as [r|]; [apply Hstyled|].
    destruct offset as [[[ol|] [ot|]]|]; try apply Hstyled; exact Hplain. }
  clearbody styled. cbn [currentHighlight isShiftPressed document].
  destruct HD as [Hothers Hel]. auto.
Qed.

Lemma perform_detached (st : State) (op : Operation) (x : ElementRef) (e : Element) :
  document st !! x = Some e -> parent e = None ->
  exists e', document (perform st op) !! x = Some e' /\ parent e' = None.
Proof.
  intros Hx Hp.
  destruct (clearHighlight_detached st x e Hx Hp) as (e1 & Hx1 & Hp1).
  destruct op as [child page id | child page offset rect | | key | key]; simpl.
  - unfold highlightAnnotation.
    destruct (getPage child page) as [[dv [layer|] vp]|]; try (exists e1; split; assumption).
    destruct (querySelector _ layer id) as [element|] eqn:Eq; [|exists e1; split; assumption].
    simpl. apply querySelector_Some in Eq as (e2 & He2 & Hp2 & _).
    assert (x <> element) by (intros ->; congruence).
    rewrite HoverFacts.lookup_update_ne by assumption. exists e1. auto.
  - destruct (getPage child page) as [pageView|] eqn:Epage.
    + destruct (highlightLocation_document child page offset rect st pageView Epage)
        as (_ & _ & Hothers & _).
      rewrite Hothers; [exists e1; split; assumption|].
      intros ->. apply (is_fresh (dom (document (clearHighlight st)))).
      apply elem_of_dom. rewrite Hx1. eauto.
    + unfold Hover.highlightLocation. rewrite Epage. exists e1. auto.
  - exists e1. auto.
  - unfold onKeyDown. destruct (_ && _); exists e; split; assumption.
  - unfold onKeyUp. destruct (String.eqb key "Shift"); [|exists e; split; assumption].
    exact (clearHighlight_detached (mkState (document st) false (currentHighlight st)) x e Hx Hp).
Qed.

Lemma clearHighlight_pressed (st : State) :
  isShiftPressed (clearHighlight st) = isShiftPressed st.
Proof. unfold clearHighlight. destruct (currentHighlight st) as [[? ?]|]; reflexivity. Qed.

Lemma perform_pressed (st : State) (op : Operation) :
  isShiftPressed (perform st op) = shiftAfter (isShiftPressed st) op.
Proof.
  destruct op as [child page id | child page offset rect | | key | key]; simpl.
  - unfold highlightAnnotation.
    destruct (getPage child page) as [[dv [layer|] vp]|];
      try apply clearHighlight_pressed.
    destruct (querySelector _ layer id); simpl; apply clearHighlight_pressed.
  - destruct (getPage child page) as [pageView|] eqn:Epage.
    + destruct (highlightLocation_document child page offset rect st pageView Epage)
        as (_ & -> & _). apply clearHighlight_pressed.
    + unfold Hover.highlightLocation. rewrite Epage. apply clearHighlight_pressed.
  - apply clearHighlight_pressed.
  - unfold onKeyDown. destruct (String.eqb key "Shift"); simpl; [|reflexivity].
    destruct (isShiftPressed st) eqn:E; simpl; [exact E | reflexivity].
  - unfold onKeyUp. destruct (String.eqb key "Shift"); [|reflexivity].
    rewrite clearHighlight_pressed. reflexivity.
Qed.

(** [X6] Whether the manager is active ([isActive], the [isShiftPressed]
    field) depends on the key events alone: a [keydown] of Shift sets it,
    a [keyup] of Shift resets it, and no highlight operation, no clearing
    and no other key changes it. *)
Theorem shift_mode_follows_keys (ops : list Operation) (st : State) :
  isShiftPressed (performAll st ops) = fold_left shiftAfter ops (isShiftPressed st).
Proof.
  revert st. induction ops as [|op ops IH]; intros st; [reflexivity|].
  simpl. rewrite IH, perform_pressed. reflexivity.
Qed.

(** [X7] An operation leaves alone every element that is neither the
    highlight tracked before it nor the one tracked after it: class list,
    style and attachment of all other elements of the document are
    unchanged. *)
Theorem highlight_ops_frame (st : State) (op : Operation) (x : ElementRef) :
  (forall c, currentHighlight st <> Some (x, c)) ->
  (forall c, currentHighlight (perform st op) <> Some (x, c)) ->
  document (perform st op) !! x = document st !! x.
Proof.
  intros Hbefore Hafter.
  pose proof (clearHighlight_frame st x Hbefore) as Hclear.
  destruct op as [child page id | child page offset rect | | key | key]; simpl in *.
  - unfold highlightAnnotation in *.
    destruct (getPage child page) as [[dv [layer|] vp]|]; try exact Hclear.
    destruct (querySelector _ layer id) as [element|]; [|exact Hclear].
    simpl in *. assert (x <> element) by (intros ->; exact (Hafter child eq_refl)).
    rewrite HoverFacts.lookup_update_ne by assumption. exact Hclear.
  - destruct (getPage child page) as [pageView|] eqn:Epage.
    + destruct (highlightLocation_document child page offset rect st pageView Epage)
        as (Hcur & _ & Hothers & _).
      rewrite Hothers; [exact Hclear|].
      intros ->. exact (Hafter child Hcur).
    + unfold Hover.highlightLocation in *. rewrite Epage in *. exact Hclear.
  - exact Hclear.
  - unfold onKeyDown. destruct (_ && _); reflexivity.
  - unfold onKeyUp. destruct (String.eqb key "Shift"); [|reflexivity].
    apply (clearHighlight_frame (mkState (document st) false (currentHighlight st))).
    exact Hbefore.
Qed.

Lemma shown_alone (st : State) (el : ElementRef) (e : Element) :
  tracked st -> document st !! el = Some e -> showsHighlight e ->
  activeHighlights st = [el].
Proof.
  intros Htracked Hel Hshow.
  pose proof (HoverFacts.tracked_at_most_one st Htracked) as Hlen.
  assert (Hin : el ∈ activeHighlights st).
  { unfold activeHighlights. apply list_elem_of_fmap. exists (el, e).
    split; [reflexivity|]. apply list_elem_of_filter.
    split; [exact Hshow | apply elem_of_map_to_list; exact Hel]. }
  destruct (activeHighlights st) as [|y [|z rest]]; simpl in Hlen.
  - apply elem_of_nil in Hin. destruct Hin.
  - apply list_elem_of_singleton in Hin. subst y. reflexivity.
  - lia.
Qed.

(** [X8] After [highlightAnnotation] or [highlightLocation], if a
    highlight is tracked then it is on display, and it is the only one:
    the tracked element is attached and carries a highlight class, and no
    other element of the document does. *)
Theorem highlight_shows_tracked (st : State) (op : Operation)
    (el : ElementRef) (child : PDFViewerChild) :
  tracked st -> setsHighlight op = true ->
  currentHighlight (perform st op) = Some (el, child) ->
  activeHighlights (perform st op) = [el].
Proof.
  intros Htracked Hop Hcur.
  pose proof (HoverFacts.perform_tracked convertToViewportPoint getComputedStyle st op Htracked)
    as Htracked'.
  destruct op as [c page id | c page offset rect | | key | key]; try discriminate Hop;
    simpl in *.
  - unfold highlightAnnotation in *.
    pose proof (HoverFacts.clearHighlight_clean st Htracked) as [Hnone _].
    destruct (getPage c page) as [[dv [layer|] vp]|]; try congruence.
    destruct (querySelector _ layer id) as [element|] eqn:Eq; [|congruence].
    simpl in Hcur. inversion Hcur; subst element c; clear Hcur.
    apply querySelector_Some in Eq as (e & He & Hp & _).
    apply (shown_alone _ el (addClass "shift-hover-target-highlight" e)); [exact Htracked'| |].
    + simpl. rewrite HoverFacts.lookup_update_eq, He. reflexivity.
    + split; [simpl; congruence|]. left. simpl.
      apply elem_of_union_r, elem_of_singleton. reflexivity.
  - destruct (getPage c page) as [pageView|] eqn:Epage.
    + destruct (highlightLocation_document c page offset rect st pageView Epage)
        as (Hcur' & _ & _ & e & He & Hp & Hc).
      rewrite Hcur' in Hcur. inversion Hcur; subst el child; clear Hcur.
      apply (shown_alone _ _ e); [exact Htracked' | exact He |].
      split; [congruence|]. right. rewrite Hc. apply elem_of_singleton. reflexivity.
    + pose proof (HoverFacts.clearHighlight_clean st Htracked) as [Hnone _].
      unfold Hover.highlightLocation in Hcur. rewrite Epage in Hcur. congruence.
Qed.

Lemma performAll_detached (ops : list Operation) :
  forall (st : State) (x : ElementRef) (e : Element),
    document st !! x = Some e -> parent e = None ->
    exists e', document (performAll st ops) !! x = Some e' /\ parent e' = None.
Proof.
  induction ops as [|op ops IH]; intros st x e Hx Hp; simpl; [exists e; auto|].
  destruct (perform_detached st op x e Hx Hp) as (e1 & Hx1 & Hp1).
  exact (IH _ x e1 Hx1 Hp1).
Qed.

(** [X9] Clearing a highlight detaches the tracked element for good
    ([element.remove()], also for an element that [highlightAnnotation]
    had found in the annotation layer): whatever operations follow, the
    element stays detached, so that no later [highlightAnnotation] can
    find it again in any layer. *)
Theorem cleared_element_stays_detached (st : State) (el : ElementRef)
    (child : PDFViewerChild) (e : Element) (ops : list Operation) :
  currentHighlight st = Some (el, child) ->
  document st !! el = Some e ->
  let st' := performAll (clearHighlight st) ops in
  (exists e', document st' !! el = Some e' /\ parent e' = None) /\
  forall layer annotationId, querySelector (document st') layer annotationId <> Some el.
Proof.
  intros Hcur Hel st'.
  assert (Hdetached : exists e', document st' !! el = Some e' /\ parent e' = None).
  { apply (performAll_detached ops _ el (remove (removeClass "shift-hover-target-highlight" e))).
    - unfold clearHighlight. rewrite Hcur. simpl.
      rewrite !HoverFacts.lookup_update_eq, Hel. reflexivity.
    - reflexivity. }
  split; [exact Hdetached|].
  intros layer annotationId Hq.
  apply querySelector_Some in Hq as (e2 & He2 & Hp2 & _).
  destruct Hdetached as (e' & He' & Hp'). congruence.
Qed.

End Viewer.

(** ** On the concrete page *)

Lemma highlight_ops_frame_witness :
  document (perform (fun _ x y => (x, y)) (fun _ => ∅) HoverFacts.idle
              (HighlightAnnotation HoverFacts.viewer 1%float "12R")) !! 2
  = document HoverFacts.idle !! 2.
Proof.
  apply (highlight_ops_frame (fun _ x y => (x, y)) (fun _ => ∅) HoverFacts.idle
           (HighlightAnnotation HoverFacts.viewer 1%float "12R") 2).
  - intros c H. discriminate H.
  - intros c H. vm_compute in H. inversion H.
Defined.

Lemma highlight_shows_tracked_witness :
  activeHighlights (perform (fun _ x y => (x, y)) (fun _ => ∅) HoverFacts.idle
                      (HighlightAnnotation HoverFacts.viewer 1%float "12R"))
  = [3].
Proof.
  apply (highlight_shows_tracked (fun _ x y => (x, y)) (fun _ => ∅) HoverFacts.idle
           (HighlightAnnotation HoverFacts.viewer 1%float "12R") 3 HoverFacts.viewer).
  - exact HoverFacts.idle_tracked.
  - reflexivity.
  - vm_compute. reflexivity.
Defined.

Lemma cleared_element_stays_detached_witness :
  let st := perform (fun _ x y => (x, y)) (fun _ => ∅) HoverFacts.idle
              (HighlightAnnotation HoverFacts.viewer 1%float "12R") in
  let st' := performAll (fun _ x y => (x, y)) (fun _ => ∅) (clearHighlight st)
               [HighlightAnnotation HoverFacts.viewer 1%float "12R"] in
  (exists e', document st' !! 3 = Some e' /\ parent e' = None) /\
  forall layer annotationId, querySelector (document st') layer annotationId <> Some 3.
Proof.
  apply (cleared_element_stays_detached (fun _ x y => (x, y)) (fun _ => ∅)
           (perform (fun _ x y => (x, y)) (fun _ => ∅) HoverFacts.idle
              (HighlightAnnotation HoverFacts.viewer 1%float "12R"))
           3 HoverFacts.viewer
           (mkElement (Some 2) {[ "shift-hover-target-highlight" ]} (Some "12R") ∅)
           [HighlightAnnotation HoverFacts.viewer 1%float "12R"]).
  - vm_compute. reflexivity.
  - vm_compute. reflexivity.
Defined.

End HoverMore.

(* ===================================================================== *)
(** * Shift-hover and clicks on a wikilink annotation *)
(* ===================================================================== *)

Module PostProcessFacts.
Import JS Hover PostProcess StringFacts MatchFacts TextFacts.

Section Workspace.

Context {Viewport : Type}.
Variable getFirstLinkpathDest : string -> string -> Completion (option Links.TFile).
Variable openLinkText : string -> string -> NewLeaf -> Completion unit.
Variable viewerChildren : list (@ViewerChild Viewport).

#[local] Abbreviation State := (@State Viewport).
#[local] Abbreviation ViewerChild := (@ViewerChild Viewport).
#[local] Abbreviation HoverEvent := (@HoverEvent Viewport).
#[local] Abbreviation findViewerForFile := (findViewerForFile viewerChildren).
#[local] Abbreviation handleShiftHoverForWikilink :=
  (handleShiftHoverForWikilink getFirstLinkpathDest viewerChildren).
#[local] Abbreviation dispatch := (dispatch getFirstLinkpathDest viewerChildren).
#[local] Abbreviation dispatchAll := (dispatchAll getFirstLinkpathDest viewerChildren).

(** The viewer child shows the file: [child.file?.path === targetFile.path]. *)
Definition showsFile (targetFile : Links.TFile) (child : ViewerChild) : bool :=
  match file child with
  | Some childFile => String.eqb (Links.path childFile) (Links.path targetFile)
  | None => false
  end.

(** The manager has no highlight and is not active unless Shift is
    down. *)
Definition settled (st : State) : Prop :=
  tracked st /\ (isShiftPressed st = false -> currentHighlight st = None).

Lemma fold_found (targetFile : Links.TFile) (children : list ViewerChild) (found : ViewerChild) :
  fold_left
    (fun (targetChild : option ViewerChild) child =>
       match targetChild, file child with
       | None, Some childFile =>
           if String.eqb (Links.path childFile) (Links.path targetFile)
           then Some child else None
       | _, _ => targetChild
       end)
    children (Some found) = Some found.
Proof. induction children as [|c children IH]; [reflexivity | exact IH]. Qed.

Lemma findViewerForFile_find (targetFile : Links.TFile) :
  findViewerForFile targetFile = find (showsFile targetFile) viewerChildren.
Proof.
  unfold PostProcess.findViewerForFile.
  induction viewerChildren as [|c children IH]; [reflexivity|].
  simpl. unfold showsFile at 1.
  destruct (file c) as [childFile|]; [|exact IH].
  destruct (String.eqb (Links.path childFile) (Links.path targetFile)); [|exact IH].
  apply fold_found.
Qed.

(** [X10] [findViewerForFile] returns the first viewer child, in the
    order of the iteration, whose file has the target file's path; a child
    without a file never matches; the result is [null] exactly when no
    viewer child shows a file of that path. *)
Theorem viewer_for_file_is_first_match (targetFile : Links.TFile) :
  findViewerForFile targetFile = find (showsFile targetFile) viewerChildren /\
  (forall child, findViewerForFile targetFile = Some child ->
     In child viewerChildren /\
     exists childFile, file child = Some childFile /\
                       Links.path childFile = Links.path targetFile) /\
  (findViewerForFile targetFile = None <->
   forall child childFile, In child viewerChildren -> file child = Some childFile ->
     Links.path childFile <> Links.path targetFile).
Proof.
  rewrite findViewerForFile_find. split; [reflexivity|]. split.
  - intros child H. apply find_some in H as [Hin Hshows]. split; [exact Hin|].
    unfold showsFile in Hshows. destruct (file child) as [childFile|]; [|discriminate].
    apply String.eqb_eq in Hshows. exists childFile. auto.
  - split.
    + intros H child childFile Hin Hfile Hpath.
      pose proof (find_none _ _ H child Hin) as Hno. unfold showsFile in Hno.
      rewrite Hfile, Hpath, String.eqb_refl in Hno. discriminate Hno.
    + intros H. destruct (find (showsFile targetFile) viewerChildren) as [child|] eqn:E;
        [|reflexivity].
      exfalso. apply find_some in E as [Hin Hshows]. unfold showsFile in Hshows.
      destruct (file child) as [childFile|] eqn:Ef; [|discriminate].
      apply String.eqb_eq in Hshows. exact (H child childFile Hin Ef Hshows).
Qed.

Lemma annotation_of_url (url : string) (a : string) :
  matchAfter "annotation=" Links.notAmpersand (Links.subpathOf (Links.linktextOf url)) = Some a ->
  Text.includes url "annotation=" = true.
Proof.
  intros H. apply matchAfter_includes in H.
  unfold Links.subpathOf, sliceFrom in H. cbv zeta in H.
  destruct (0 <? indexOf (Links.linktextOf url) "#")%Z; [|discriminate H].
  apply includes_slice in H; [|discriminate].
  unfold Links.linktextOf in H. cbv zeta in H.
  apply includes_slice in H; [exact H | discriminate].
Qed.

(** [handleShiftHoverForWikilink] completes normally, and either changes
    nothing or highlights an annotation in an open viewer of the resolved
    file. *)
Lemma handleShiftHover_cases (child : ViewerChild) (url : string) (st : State) :
  exists st', handleShiftHoverForWikilink child url st = Normal st' /\
    (st' = st \/
     exists target resolved annotationId,
       In target viewerChildren /\ showsFile (Links.file resolved) target = true /\
       Links.annotationId resolved = Some annotationId /\
       Text.includes url "annotation=" = true /\
       st' = highlightAnnotation (view target) (Links.page resolved) annotationId st).
Proof.
  unfold PostProcess.handleShiftHoverForWikilink.
  destruct (file child) as [childFile|]; [|exists st; auto].
  rewrite LinksFacts.resolveWikilink_split. unfold Links.Spec.resolveSplit. cbn [fst snd].
  destruct (getFirstLinkpathDest _ _) as [[resolvedFile|]|e]; simpl;
    try (exists st; split; [reflexivity | left; reflexivity]).
  unfold Links.Spec.decodeWithDefault.
  destruct (matchAfter "annotation=" Links.notAmpersand _) as [annotationId|] eqn:Ea;
    [|exists st; auto].
  pose proof (annotation_of_url url annotationId Ea) as Hincl.
  destruct annotationId as [|c a]; [exists st; auto|].
  destruct (PostProcess.findViewerForFile viewerChildren resolvedFile) as [target|] eqn:Ef;
    [|exists st; auto].
  eexists. split; [reflexivity|]. right.
  rewrite findViewerForFile_find in Ef. apply find_some in Ef as [Hin Hshows].
  match goal with
  | |- context [highlightAnnotation _ ?page (String c a) st] =>
      exists target, (Links.mkTarget resolvedFile page (Some (String c a)) None None),
        (String c a)
  end.
  repeat split; assumption.
Qed.


Lemma handleShiftHover_settled (child : ViewerChild) (url : string) (st : State) :
  tracked st ->
  exists st', handleShiftHoverForWikilink child url st = Normal st' /\
              tracked st' /\ isShiftPressed st' = isShiftPressed st.
Proof.
  intros Htracked.
  destruct (handleShiftHover_cases child url st)
    as (st' & Hrun & [->|(target & resolved & annotationId & _ & _ & _ & _ & ->)]).
  - exists st. auto.
  - eexists. split; [exact Hrun|]. split.
    + apply HoverFacts.highlightAnnotation_tracked. exact Htracked.
    + exact (HoverMore.perform_pressed (fun _ x y => (x, y)) (fun _ => ∅) st
               (HighlightAnnotation (view target) (Links.page resolved) annotationId)).
Qed.

Lemma dispatch_settled (st : State) (ev : HoverEvent) :
  settled st -> exists st', dispatch st ev = Normal st' /\ settled st'.
Proof.
  intros [Htracked Hup].
  destruct ev as [| | child url |]; simpl.
  - eexists. split; [reflexivity|]. split.
    + exact (HoverFacts.perform_tracked (fun _ x y => (x, y)) (fun _ => ∅) st
               (KeyDown "Shift") Htracked).
    + unfold onKeyDown. simpl. destruct (isShiftPressed st) eqn:E; simpl; [congruence|].
      discriminate.
  - eexists. split; [reflexivity|]. split.
    + exact (HoverFacts.perform_tracked (fun _ x y => (x, y)) (fun _ => ∅) st
               (KeyUp "Shift") Htracked).
    + intros _. unfold onKeyUp. simpl.
      apply (HoverFacts.clearHighlight_clean
               (mkState (document st) false (currentHighlight st))).
      intros el e Hel Hshow. exact (Htracked el e Hel Hshow).
  - unfold onMouseOver, isActive. destruct (isShiftPressed st) eqn:E.
    + destruct (handleShiftHover_settled child url st Htracked) as (st' & Hrun & Ht & Hp).
      exists st'. split; [exact Hrun|]. split; [exact Ht|]. congruence.
    + exists st. split; [reflexivity|]. split; [exact Htracked | intros _; exact (Hup eq_refl)].
  - eexists. split; [reflexivity|]. unfold onMouseLeave, isActive.
    destruct (isShiftPressed st) eqn:E.
    + split.
      * apply HoverFacts.clean_tracked, HoverFacts.clearHighlight_clean. exact Htracked.
      * rewrite HoverFacts.clearHighlight_shift. congruence.
    + split; [exact Htracked | intros _; exact (Hup eq_refl)].
Qed.


(** ** Clicks *)

Lemma linktextOf_no_bar (url : string) : indexOf (linktextOf url) "|" = (-1)%Z.
Proof.
  unfold linktextOf. cbv zeta.
  destruct (Text.includes (slice url 2 (-2)) "|") eqn:E.
  - pose proof (split_nonempty (slice url 2 (-2)) "|") as Hne.
    pose proof (split_parts (slice url 2 (-2)) "|") as Hparts.
    destruct (split (slice url 2 (-2)) "|") as [|first rest]; [congruence|].
    apply Hparts. left. reflexivity.
  - rewrite includes_char in E. apply negb_false_iff in E.
    pose proof (indexOf_bounds (slice url 2 (-2)) "|").
    apply Z.ltb_lt in E. lia.
Qed.

Lemma slice_brackets (text : string) : slice ("[[" ++ text ++ "]]") 2 (-2) = text.
Proof. apply (slice_middle "[[" text "]]"). simpl. lia. Qed.

(** [X13] The link text that the click and double-click listeners hand
    to [openLinkText] never contains [|]: for [[[target|alias]]] it is
    [target], for [[[target]]] it is [target].  The click listener
    returns normally even when [openLinkText] throws; the double-click
    listener lets that error through. *)
Theorem click_opens_target_without_alias (child : ViewerChild) (target alias : string)
    (isModEvent : NewLeaf) :
  indexOf target "|" = (-1)%Z ->
  (forall url, indexOf (linktextOf url) "|" = (-1)%Z) /\
  clickHandler openLinkText child ("[[" ++ target ++ "|" ++ alias ++ "]]") isModEvent
  = ([PreventDefault; StopPropagation; StopImmediatePropagation;
      OpenLinkText target (sourcePathOf child) isModEvent], Normal tt) /\
  clickHandler openLinkText child ("[[" ++ target ++ "]]") isModEvent
  = ([PreventDefault; StopPropagation; StopImmediatePropagation;
      OpenLinkText target (sourcePathOf child) isModEvent], Normal tt) /\
  dblclickHandler openLinkText child ("[[" ++ target ++ "|" ++ alias ++ "]]")
  = ([PreventDefault; StopPropagation; StopImmediatePropagation;
      OpenLinkText target (sourcePathOf child) (Flag false)],
     openLinkText target (sourcePathOf child) (Flag false)).
Proof.
  intros Hbar.
  assert (Halias : linktextOf ("[[" ++ target ++ "|" ++ alias ++ "]]") = target).
  { unfold linktextOf. cbv zeta.
    replace ("[[" ++ target ++ "|" ++ alias ++ "]]")
      with ("[[" ++ (target ++ String "|" alias) ++ "]]")
      by (rewrite !append_assoc; reflexivity).
    rewrite slice_brackets.
    rewrite includes_char, (indexOf_first target alias "|" Hbar).
    destruct (Z.ltb_spec (Z.of_nat (String.length target)) 0) as [H|_]; [lia|]. simpl negb.
    destruct (split_first target alias "|" Hbar) as [parts ->]. reflexivity. }
  assert (Hplain : linktextOf ("[[" ++ target ++ "]]") = target).
  { unfold linktextOf. cbv zeta. rewrite slice_brackets, includes_char, Hbar. reflexivity. }
  assert (Hcaught : forall c : Completion unit, tryCatch c (fun _ => Normal tt) = Normal tt).
  { intros [[]|e]; reflexivity. }
  split; [exact linktextOf_no_bar|].
  unfold clickHandler, dblclickHandler. cbv zeta.
  rewrite Halias, Hplain, !Hcaught. repeat split; reflexivity.
Qed.

End Workspace.

(** ** On the concrete page *)

Definition openViewer : @ViewerChild unit :=
  mkViewerChild (Some (Links.mkTFile "Notes.pdf")) HoverFacts.viewer.


Example hover_sets_the_highlight :
  match dispatchAll (fun p _ => Normal (Some (Links.mkTFile p))) [openViewer] HoverFacts.idle
          [ShiftDown; MouseOver openViewer "[[Notes.pdf#page=1&annotation=12R]]"] with
  | Normal st' => activeHighlights st' = [3]
  | Throw _ => False
  end.
Proof. vm_compute. reflexivity. Qed.

Lemma click_opens_target_without_alias_witness :
  clickHandler (fun _ _ _ => Throw (mkError "no such file")) openViewer
    "[[Notes.pdf#page=2|see notes]]" (Pane "tab")
  = ([PreventDefault; StopPropagation; StopImmediatePropagation;
      OpenLinkText "Notes.pdf#page=2" "Notes.pdf" (Pane "tab")], Normal tt).
Proof.
  apply (proj1 (proj2 (click_opens_target_without_alias
                         (fun _ _ _ => Throw (mkError "no such file")) openViewer
                         "Notes.pdf#page=2" "see notes" (Pane "tab") eq_refl))).
Defined.

End PostProcessFacts.

(* ===================================================================== *)
(** * The write library: what throws, what is registered, what is
      returned *)
(* ===================================================================== *)

Module WriteFacts.
Import JS Pipeline Write StringFacts MatchFacts TextFacts.

(** The destination is a string that starts with [[[], the only kind for
    which [registerPostProcessorForNewAnnotation] goes on. *)
Definition isWikilinkDestination {DestArray : Type} (dest : Destination DestArray) : bool :=
  match dest with
  | DestString d => startsWith d "[["
  | DestExplicit _ => false
  end.

(** Whether [annot.data] carries a URL in one of the three places that
    [registerEvents] looks at. *)
Definition carriesUrl (d : AnnotationData) : bool :=
  truthy (d_url d) || truthy (d_unsafeUrl d)
  || match d_A d with
     | Some uri => truthy uri
     | None => false
     end.

Section Host.

Context {Host TextLayer TextLayerInfo MergedRect Rect DestArray Selection : Type}.
Variable manifestName : string.
Variable getTextLayerInfo : TextLayer -> option TextLayerInfo.
Variable computeMergedHighlightRects :
  TextLayerInfo -> number -> number -> number -> number -> list MergedRect.
Variable rectOf : MergedRect -> Rect.
Variable getPageAndTextRangeFromSelection :
  Selection -> option (number * option (number * number * number * number)).
Variable getPDFViewerChildFromSelection : Selection -> option (@PDFViewerChild TextLayer).
Variable io_addLinkAnnotation :
  Links.TFile -> number -> list Rect -> Destination DestArray ->
  option string -> option string -> Host -> Completion string * Host.
Variable io_addTextMarkupAnnotation :
  Links.TFile -> number -> list Rect -> TextMarkupAnnotationSubtype ->
  option string -> Host -> Completion string * Host.
Variable io_addTextAnnotation :
  Links.TFile -> number -> number -> number -> string -> option string ->
  Host -> Completion string * Host.
Variable getBoundingClientRect : ElementRef -> DOMRect.
Variable getComputedStyle : ElementRef -> gmap string string.
Variable getPagePoint : @PageView TextLayer -> number -> number -> number * number.
Variable viewerChildren : list (@PDFViewerChild TextLayer).

#[local] Abbreviation World := (@World Host Rect).
#[local] Abbreviation PDFViewerChild := (@PDFViewerChild TextLayer).
#[local] Abbreviation Annotator := (@Annotator Host Rect).
#[local] Abbreviation addAnnotationToTextRange :=
  (addAnnotationToTextRange manifestName getTextLayerInfo computeMergedHighlightRects rectOf).
#[local] Abbreviation addAnnotationToSelection :=
  (addAnnotationToSelection manifestName getTextLayerInfo computeMergedHighlightRects rectOf
     getPageAndTextRangeFromSelection getPDFViewerChildFromSelection).
#[local] Abbreviation addLinkAnnotationToSelection :=
  (addLinkAnnotationToSelection manifestName getTextLayerInfo computeMergedHighlightRects
     rectOf io_addLinkAnnotation getPageAndTextRangeFromSelection
     getPDFViewerChildFromSelection).
#[local] Abbreviation addTextMarkupAnnotationToSelection :=
  (addTextMarkupAnnotationToSelection manifestName getTextLayerInfo
     computeMergedHighlightRects rectOf getPageAndTextRangeFromSelection
     getPDFViewerChildFromSelection io_addTextMarkupAnnotation).
#[local] Abbreviation addLinkAnnotationToTextRange :=
  (addLinkAnnotationToTextRange manifestName getTextLayerInfo computeMergedHighlightRects
     rectOf io_addLinkAnnotation).
#[local] Abbreviation addLinkAnnotation :=
  (addLinkAnnotation io_addLinkAnnotation viewerChildren).
#[local] Abbreviation addStickyNoteAtPosition :=
  (addStickyNoteAtPosition manifestName io_addTextAnnotation getBoundingClientRect
     getComputedStyle getPagePoint).

(** A run that completes normally and writes no dataset. *)
Definition quiet {A} (run : Completion A * World) (w : World) : Prop :=
  exists r w', run = (Normal r, w') /\ datasets w' = datasets w.

Ltac quiet_here := eexists _, _; split; reflexivity.

Lemma quiet_bind {A B} (m : M A) (k : A -> M B) (w : World) :
  quiet (m w) w -> (forall a w', datasets w' = datasets w -> quiet (k a w') w') ->
  quiet (mbind m k w) w.
Proof.
  intros (a & w1 & Hm & Hd) Hk. unfold mbind. rewrite Hm.
  destruct (Hk a w1 Hd) as (b & w2 & Hrun & Hd2).
  exists b, w2. split; [exact Hrun | congruence].
Qed.

(** ** The steps never throw *)

Lemma registerEvents_run (child : PDFViewerChild) (annot : AnnotationElement) (w : World) :
  let created :=
    String.eqb (d_subtype (data annot)) "Link" && carriesUrl (data annot)
    && component child in
  registerEvents child annot w =
  (Normal created,
   mkWorld (host w) (datasets w)
     (trace w ++ RegisterEventsCalled (d_id (data annot))
        :: (if created then [ProcessorAdded (d_id (data annot))] else []))).
Proof.
  unfold registerEvents, carriesUrl, or_else, mbind, emit, ret.
  destruct (String.eqb (d_subtype (data annot)) "Link"), (component child);
    destruct (d_url (data annot)) as [|[|c1 u]|u], (d_unsafeUrl (data annot)) as [|[|c2 v]|v];
    destruct (d_A (data annot)) as [[|[|c3 a]|[[|c4 a]|]]|]; simpl;
    rewrite <- ?app_assoc; reflexivity.
Qed.

Lemma register_quiet (child : PDFViewerChild) (pageNumber : number)
    (annotationID : option string) (dest : Destination DestArray) (w : World) :
  quiet (registerPostProcessorForNewAnnotation child pageNumber annotationID dest w) w.
Proof.
  unfold registerPostProcessorForNewAnnotation.
  destruct annotationID as [[|c s]|]; try quiet_here.
  destruct dest as [d|d]; try quiet_here.
  destruct (negb (startsWith d "[[")); try quiet_here.
  destruct (getPage child pageNumber) as [[dv tl [[[ld|] annots]|]]|]; try quiet_here.
  destruct (annots !! String c s) as [annot|]; try quiet_here.
  unfold mbind at 1, readDataset.
  destruct (negb (bool_decide _)); try quiet_here.
  unfold mbind. rewrite registerEvents_run. quiet_here.
Qed.

Lemma textRange_quiet (annotator : Annotator) (child : PDFViewerChild)
    (pageNumber beginIndex beginOffset endIndex endOffset : number) (w : World) :
  quiet (addAnnotationToTextRange annotator child pageNumber
           beginIndex beginOffset endIndex endOffset w) w.
Proof.
  unfold Pipeline.addAnnotationToTextRange.
  destruct (file child) as [childFile|]; try quiet_here.
  destruct ((1 <=? pageNumber)%float && (pageNumber <=? pagesCount child)%float);
    try quiet_here.
  destruct (getPage child pageNumber) as [pageView|]; try quiet_here.
  unfold mbind at 1, readDataset.
  destruct (textLayer pageView) as [layer|]; try quiet_here.
  destruct (datasets w !! div pageView ≫= _) as [[|c s]|]; try quiet_here.
  destruct (getTextLayerInfo layer) as [textLayerInfo|]; try quiet_here.
  unfold try_catch, mbind, emit, call, ret. simpl.
  destruct (annotator childFile pageNumber _ (host w)) as [[id|e] h']; simpl; quiet_here.
Qed.

Lemma selection_quiet (annotator : Annotator) (windowSelection : option Selection)
    (w : World) :
  quiet (addAnnotationToSelection annotator windowSelection w) w.
Proof.
  unfold Pipeline.addAnnotationToSelection.
  destruct windowSelection as [selection|]; try quiet_here.
  destruct (getPageAndTextRangeFromSelection selection)
    as [[page [[[[bi bo] ei] eo]|]]|]; try quiet_here.
  destruct (getPDFViewerChildFromSelection selection) as [child|]; try quiet_here.
  apply quiet_bind; [apply textRange_quiet|].
  intros r w' _. quiet_here.
Qed.

Lemma linkSelection_quiet (dest : Destination DestArray) (contents : option string)
    (windowSelection : option Selection) (w : World) :
  quiet (addLinkAnnotationToSelection dest contents windowSelection w) w.
Proof.
  unfold Pipeline.addLinkAnnotationToSelection.
  apply quiet_bind; [apply selection_quiet|].
  intros [r|] w' _; try quiet_here.
  destruct (res_annotationID r) as [[|c s]|]; try quiet_here.
  apply quiet_bind; [apply register_quiet|].
  intros _ w'' _. quiet_here.
Qed.

Lemma linkTextRange_quiet (child : PDFViewerChild) (pageNumber : number)
    (selectionInfo : SelectionInfo) (dest : TextRangeDestination DestArray)
    (contents : option string) (w : World) :
  quiet (addLinkAnnotationToTextRange child pageNumber selectionInfo dest contents w) w.
Proof.
  unfold Write.addLinkAnnotationToTextRange.
  destruct (file child) as [childFile|]; try quiet_here.
  cbv zeta. apply quiet_bind; [apply textRange_quiet|].
  intros [r|] w' _; try quiet_here.
  destruct (annotationID r) as [[|c s]|]; try quiet_here.
  apply quiet_bind; [apply register_quiet|].
  intros _ w'' _. quiet_here.
Qed.


(** [X15] [addAnnotationToSelection] returns [null] in three cases only:
    there is no window selection, the selection yields no page and text
    range, or it belongs to no PDF viewer child; the world is then left
    as it was.  In every other case it returns a result whose [child],
    [file] and [page] are those of the selection, even when no annotation
    was created. *)
Theorem selection_result_is_null_iff (annotator : Annotator)
    (windowSelection : option Selection) (w : World) :
  let outside :=
    match windowSelection with
    | None => True
    | Some selection =>
        match getPageAndTextRangeFromSelection selection with
        | Some (_, Some _) => getPDFViewerChildFromSelection selection = None
        | _ => True
        end
    end in
  (outside -> addAnnotationToSelection annotator windowSelection w = (Normal None, w)) /\
  (~ outside ->
   exists selection page range child result w',
     windowSelection = Some selection /\
     getPageAndTextRangeFromSelection selection = Some (page, Some range) /\
     getPDFViewerChildFromSelection selection = Some child /\
     addAnnotationToSelection annotator windowSelection w = (Normal (Some result), w') /\
     res_child result = child /\ res_file result = file child /\ res_page result = page).
Proof.
  cbv zeta. unfold Pipeline.addAnnotationToSelection.
  destruct windowSelection as [selection|]; [|split; [reflexivity | tauto]].
  destruct (getPageAndTextRangeFromSelection selection)
    as [[page [[[[bi bo] ei] eo]|]]|] eqn:Esel; try (split; [reflexivity | tauto]).
  destruct (getPDFViewerChildFromSelection selection) as [child|] eqn:Echild;
    [|split; [reflexivity | tauto]].
  split; [discriminate|]. intros _.
  destruct (textRange_quiet annotator child page bi bo ei eo w) as (r & w' & Hrun & _).
  exists selection, page, (bi, bo, ei, eo), child.
  unfold mbind. rewrite Hrun. eexists _, _.
  repeat split; try reflexivity; assumption.
Qed.


(** [X17] [addLinkAnnotation] has no handler around the mutation
    interface: when [io.addLinkAnnotation] throws, the error reaches the
    caller, no notice is shown and nothing is registered. *)
Theorem addLinkAnnotation_propagates_error (file : Links.TFile) (pageNumber : number)
    (rects : list Rect) (dest : Destination DestArray) (colorName contents : option string)
    (w : World) (e : Error) (h' : Host) :
  io_addLinkAnnotation file pageNumber rects dest colorName contents (host w) = (Throw e, h') ->
  addLinkAnnotation file pageNumber rects dest colorName contents w
  = (Throw e, mkWorld h' (datasets w) (trace w)).
Proof.
  intros Hio. unfold Write.addLinkAnnotation, mbind, call. rewrite Hio. reflexivity.
Qed.

(** [X18] A destination that is not a string starting with [[[] is never
    registered: for it [addLinkAnnotationToSelection] is
    [addAnnotationToSelection] with the link annotator and nothing more,
    and [addLinkAnnotation] is the call of the mutation interface and
    nothing more. *)
Theorem only_wikilink_destinations_register (dest : Destination DestArray)
    (contents colorName : option string) (windowSelection : option Selection)
    (file : Links.TFile) (pageNumber : number) (rects : list Rect) (w : World) :
  isWikilinkDestination dest = false ->
  addLinkAnnotationToSelection dest contents windowSelection w
  = addAnnotationToSelection
      (fun file page rects => io_addLinkAnnotation file page rects dest None contents)
      windowSelection w /\
  addLinkAnnotation file pageNumber rects dest colorName contents w
  = call (io_addLinkAnnotation file pageNumber rects dest colorName contents) w.
Proof.
  intros Hdest.
  assert (Hskip : forall (child : PDFViewerChild) page annotationID (w' : World),
            registerPostProcessorForNewAnnotation child page annotationID dest w'
            = (Normal tt, w')).
  { intros child page annotationID w'. unfold registerPostProcessorForNewAnnotation.
    destruct annotationID as [[|c s]|]; try reflexivity.
    destruct dest as [d|d]; [reflexivity|]. simpl in Hdest. rewrite Hdest. reflexivity. }
  split.
  - unfold Pipeline.addLinkAnnotationToSelection, mbind.
    destruct (addAnnotationToSelection _ windowSelection w) as [[[r|]|e] w']; try reflexivity.
    destruct (res_annotationID r) as [[|c s]|]; try reflexivity.
    rewrite Hskip. reflexivity.
  - unfold Write.addLinkAnnotation, mbind, call.
    destruct (io_addLinkAnnotation _ _ _ _ _ _ (host w)) as [[annotationID|e] h'];
      [|reflexivity].
    destruct (fold_left _ viewerChildren None) as [child|]; [|reflexivity].
    destruct annotationID as [|c s]; [reflexivity|].
    rewrite Hskip. reflexivity.
Qed.

(** [X19] [addStickyNoteAtPosition] never throws.  Without a file or a
    page view it returns [undefined] and leaves the world as it was;
    otherwise it calls the mutation interface once, at a point of the
    page, and either returns the new annotation's id, or, when that call
    throws, shows the notice "Failed to add sticky note." and returns
    [undefined]. *)
Theorem sticky_note_outcome (child : PDFViewerChild) (pageNumber screenX screenY : number)
    (contents : string) (colorName : option string) (w : World) :
  let run := addStickyNoteAtPosition child pageNumber screenX screenY contents colorName w in
  match file child, getPage child pageNumber with
  | Some childFile, Some pageView =>
      exists pdfX pdfY h',
        let added :=
          io_addTextAnnotation childFile pageNumber pdfX pdfY contents colorName (host w) in
        (exists annotationID,
           added = (Normal annotationID, h') /\
           run = (Normal (Some annotationID), mkWorld h' (datasets w) (trace w))) \/
        (exists e,
           added = (Throw e, h') /\
           run = (Normal None,
                  mkWorld h' (datasets w)
                    (trace w ++ [NoticeShown (manifestName ++ ": Failed to add sticky note.")])))
  | _, _ => run = (Normal None, w)
  end.
Proof.
  cbv zeta. unfold Write.addStickyNoteAtPosition.
  destruct (file child) as [childFile|]; [|reflexivity].
  destruct (getPage child pageNumber) as [pageView|]; [|reflexivity].
  cbv zeta. destruct (getPagePoint pageView _ _) as [pdfX pdfY].
  unfold try_catch, mbind, call, emit, ret.
  exists pdfX, pdfY.
  destruct (io_addTextAnnotation childFile pageNumber pdfX pdfY contents colorName (host w))
    as [[annotationID|e] h']; exists h'; simpl.
  - left. exists annotationID. split; reflexivity.
  - right. exists e. split; reflexivity.
Qed.

(** [X20] The wikilink that [addLinkAnnotationToTextRange] writes for a
    destination given as a path and a subpath is read back by the other
    functions as that path and that subpath: it starts with [[[], so the
    post-processor registration goes on, and [resolveWikilink] splits it
    into the same path and subpath, provided the path is not empty and
    has no [#] and the subpath is empty or starts with [#]. *)
Theorem path_subpath_round_trip (path subpath : string) :
  path <> "" -> indexOf path "#" = (-1)%Z ->
  subpath = "" \/ (exists rest, subpath = String "#" rest) ->
  exists url,
    destStringOf (ToPathSubpath path subpath) = @DestString DestArray url /\
    isWikilinkDestination (@DestString DestArray url) = true /\
    Links.filePathOf (Links.linktextOf url) = path /\
    Links.subpathOf (Links.linktextOf url) = subpath.
Proof.
  intros Hne Hhash Hsub.
  exists ("[[" ++ path ++ subpath ++ "]]"). split; [reflexivity|].
  split; [apply (startsWith_append _ "[["); eexists; reflexivity|].
  assert (Htext : Links.linktextOf ("[[" ++ path ++ subpath ++ "]]") = path ++ subpath).
  { replace ("[[" ++ path ++ subpath ++ "]]") with ("[[" ++ (path ++ subpath) ++ "]]")
      by (rewrite append_assoc; reflexivity).
    exact (LinksFacts.linktextOf_wikilink false (path ++ subpath)). }
  rewrite Htext. unfold Links.filePathOf, Links.subpathOf. cbv zeta.
  destruct Hsub as [->|[rest ->]].
  - rewrite append_empty_r, Hhash. split; reflexivity.
  - rewrite (indexOf_first path rest "#" Hhash).
    assert (0 < String.length path)%nat by (destruct path; [congruence | simpl; lia]).
    destruct (Z.ltb_spec 0 (Z.of_nat (String.length path))) as [_|Hle]; [|lia].
    rewrite slice_prefix, sliceFrom_suffix. split; reflexivity.
Qed.

End Host.

(** ** On the concrete page *)

Lemma addLinkAnnotation_propagates_error_witness :
  addLinkAnnotation PipelineFacts.failingIo [PipelineFacts.viewer]
    (Links.mkTFile "A.pdf") 1%float [] (DestString "[[Notes.pdf#page=5]]") None None
    PipelineFacts.initialWorld
  = (Throw (mkError "EIO"),
     mkWorld tt (datasets PipelineFacts.initialWorld) (trace PipelineFacts.initialWorld)).
Proof.
  apply (addLinkAnnotation_propagates_error PipelineFacts.failingIo [PipelineFacts.viewer]
           (Links.mkTFile "A.pdf") 1%float [] (DestString "[[Notes.pdf#page=5]]") None None
           PipelineFacts.initialWorld (mkError "EIO") tt).
  reflexivity.
Defined.

Lemma only_wikilink_destinations_register_witness :
  addLinkAnnotation (fun _ _ _ _ _ _ h => (Normal "99R", h)) [PipelineFacts.viewer]
    (Links.mkTFile "A.pdf") 1%float [] (@DestString unit "https://example.com") None None
    PipelineFacts.initialWorld
  = (Normal "99R", PipelineFacts.initialWorld).
Proof.
  apply (proj2 (only_wikilink_destinations_register "PDF++" (fun _ : unit => Some tt)
                  PipelineFacts.oneRect (fun r => r) PipelineFacts.selectedRange
                  (fun _ => Some PipelineFacts.viewer)
                  (fun _ _ _ _ _ _ h => (Normal "99R", h)) [PipelineFacts.viewer]
                  (@DestString unit "https://example.com") None None (Some tt)
                  (Links.mkTFile "A.pdf") 1%float [] PipelineFacts.initialWorld eq_refl)).
Defined.

Lemma path_subpath_round_trip_witness :
  exists url,
    destStringOf (ToPathSubpath "Notes.pdf" "#page=5") = @DestString unit url /\
    isWikilinkDestination (@DestString unit url) = true /\
    Links.filePathOf (Links.linktextOf url) = "Notes.pdf" /\
    Links.subpathOf (Links.linktextOf url) = "#page=5".
Proof.
  apply (@path_subpath_round_trip unit "Notes.pdf" "#page=5").
  - discriminate.
  - reflexivity.
  - right. exists "page=5". reflexivity.
Defined.

End WriteFacts.

(* ===================================================================== *)
(** * The link annotation modal: what it detects and what it submits *)
(* ===================================================================== *)

Module ModalFacts.
Import JS Modal StringFacts MatchFacts TextFacts.

Example arrayIndex_of_numbers :
  Text.arrayIndex 2%float = Some 2%nat /\ Text.arrayIndex (-0)%float = Some 0%nat /\
  Text.arrayIndex 1.5%float = None /\ Text.arrayIndex (-1)%float = None /\
  Text.arrayIndex PrimFloat.nan = None /\ Text.arrayIndex PrimFloat.infinity = None.
Proof. vm_compute. repeat split; reflexivity. Qed.

Example endsWith_and_includes :
  Text.endsWith "[[a]]" "]]" = true /\ Text.endsWith "]" "]]" = false /\
  Text.includes "[a](b)" "](" = true /\ Text.includes "[a]" "](" = false.
Proof. vm_compute. repeat split; reflexivity. Qed.

Example matchBetween_link_url :
  Text.matchBetween "](" notClosingParen ")" "[see](Notes.pdf#page=2) and [x](y)"
  = Some "Notes.pdf#page=2" /\
  Text.matchBetween "](" notClosingParen ")" "[a]()" = None /\
  Text.matchBetween "](" notClosingParen ")" "[a](b" = None.
Proof. vm_compute. repeat split; reflexivity. Qed.

Example markdown_link_becomes_wikilink :
  markdownLinkToWikilink (fun s => Normal s) (fun _ => ("Notes.pdf", "#page=2"))
    (fun p _ => Normal (Some (Links.mkTFile p))) (fun f _ => Links.path f)
    (Links.mkTFile "A.pdf") "[see](Notes.pdf#page=2)"
  = Normal (Some "[[Notes.pdf#page=2]]").
Proof. vm_compute. reflexivity. Qed.

(** ** The three kinds of link text *)

Lemma first_char (text p : string) (c : ascii) :
  startsWith text (String c p) = true -> exists rest, text = String c rest.
Proof.
  intros H. apply startsWith_append in H as [t ->]. exists (p ++ t). reflexivity.
Qed.

Lemma last_char (text p : string) (c : ascii) :
  Text.endsWith text (p ++ String c "") = true -> exists rest, text = rest ++ String c "".
Proof.
  intros H. apply endsWith_append in H as [t ->]. exists (t ++ p).
  rewrite append_assoc. reflexivity.
Qed.

Lemma append_last_inj (s t : string) (a b : ascii) :
  s ++ String a "" = t ++ String b "" -> a = b.
Proof.
  revert t. induction s as [|c s IH]; intros [|d t] H; simpl in H.
  - inversion H. reflexivity.
  - inversion H as [[Hc Ht]]. destruct t; discriminate Ht.
  - inversion H as [[Hc Hs]]. destruct s; discriminate Hs.
  - inversion H as [[Hc Hs]]. exact (IH t Hs).
Qed.

Lemma isUrl_first (text : string) :
  isUrl text = true ->
  exists c rest, text = String c rest /\ (c = "h" \/ c = "f" \/ c = "m")%char.
Proof.
  unfold isUrl. rewrite !orb_true_iff. intros [[[H|H]|H]|H];
    apply first_char in H as [rest ->]; eauto 6.
Qed.

(** [X21] The three kinds of link text that [checkClipboard] tells apart
    exclude each other: no text is both a wikilink and a Markdown link, a
    wikilink and a URL, or a Markdown link and a URL; the order of the
    three tests does not matter. *)
Theorem link_kinds_are_disjoint (text : string) :
  isWikilink text && isMarkdownLink text = false /\
  isWikilink text && isUrl text = false /\
  isMarkdownLink text && isUrl text = false.
Proof.
  split; [|split].
  - destruct (isWikilink text) eqn:Ew, (isMarkdownLink text) eqn:Em; try reflexivity.
    exfalso. unfold isWikilink in Ew. unfold isMarkdownLink in Em.
    apply andb_prop in Ew as [_ Ew]. apply andb_prop in Em as [_ Em].
    apply (last_char text "]") in Ew as [s Hs]. apply (last_char text "") in Em as [t Ht].
    rewrite Hs in Ht. apply append_last_inj in Ht. discriminate Ht.
  - destruct (isWikilink text) eqn:Ew, (isUrl text) eqn:Eu; try reflexivity.
    exfalso. unfold isWikilink in Ew. apply andb_prop in Ew as [Ew _].
    apply first_char in Ew as [rest ->].
    apply isUrl_first in Eu as (c & rest' & H & [-> | [-> | ->]]); discriminate H.
  - destruct (isMarkdownLink text) eqn:Em, (isUrl text) eqn:Eu; try reflexivity.
    exfalso. unfold isMarkdownLink in Em. apply andb_prop in Em as [Em _].
    apply andb_prop in Em as [Em _].
    apply first_char in Em as [rest ->].
    apply isUrl_first in Eu as (c & rest' & H & [-> | [-> | ->]]); discriminate H.
Qed.

Lemma isWikilink_brackets (text : string) : isWikilink ("[[" ++ text ++ "]]") = true.
Proof.
  unfold isWikilink. apply andb_true_intro. split.
  - apply startsWith_append. eexists. reflexivity.
  - apply endsWith_append. exists ("[[" ++ text). rewrite append_assoc. reflexivity.
Qed.

(** A wikilink has no white space around it. *)
Lemma isWikilink_trim (text : string) : isWikilink text = true -> trim text = text.
Proof.
  unfold isWikilink. intros H. apply andb_prop in H as [Hs He].
  apply first_char in Hs as [rest ->].
  apply (last_char _ "]") in He as [s Hs].
  destruct s as [|c s]; [discriminate Hs|].
  rewrite append_cons in Hs. inversion Hs; subst.
  apply trim_visible; reflexivity.
Qed.

Section Vault.

Context {SelectionInfo : Type}.
Variable decodeURI : string -> Completion string.
Variable parseLinktext : string -> string * string.
Variable getFirstLinkpathDest : string -> string -> Completion (option Links.TFile).
Variable fileToLinktext : Links.TFile -> string -> string.
Variable file : Links.TFile.
Variable manifestName : string.
Variable selectionInfo : option SelectionInfo.

#[local] Abbreviation markdownLinkToWikilink :=
  (markdownLinkToWikilink decodeURI parseLinktext getFirstLinkpathDest fileToLinktext file).
#[local] Abbreviation checkClipboard :=
  (@checkClipboard SelectionInfo decodeURI parseLinktext getFirstLinkpathDest
     fileToLinktext file manifestName).
#[local] Abbreviation submit := (submit manifestName selectionInfo).

Lemma markdownLinkToWikilink_kind (text linkText : string) :
  markdownLinkToWikilink text = Normal (Some linkText) ->
  isWikilink linkText = true \/ isUrl linkText = true.
Proof.
  unfold Modal.markdownLinkToWikilink.
  destruct (Text.matchBetween "](" notClosingParen ")" text) as [url|]; [|discriminate].
  destruct (isUrl url) eqn:Eu.
  - intros H. inversion H; subst. right. exact Eu.
  - unfold bind. destruct (decodeURI url) as [decoded|e]; [|discriminate].
    destruct (parseLinktext decoded) as [path subpath].
    destruct (getFirstLinkpathDest path (Links.path file)) as [[target|]|e']; try discriminate.
    intros H. inversion H; subst. left.
    rewrite <- (append_assoc (fileToLinktext target (Links.path file))).
    apply isWikilink_brackets.
Qed.

Ltac one_notice :=
  match goal with
  | |- exists notices, [?notice; _] = _ => exists [notice]; reflexivity
  end.

(** What [checkClipboard] does: it completes normally, and either leaves
    the fields alone or switches to an external link whose text is a
    wikilink or a URL. *)
Lemma checkClipboard_cases (readText : Completion string) (fields : Fields) :
  exists fields' events,
    checkClipboard readText fields = Normal (fields', events) /\
    (fields' = fields \/
     (fields' = mkFields External (targetPage fields) (destArray fields)
                  (description fields) (externalUrl fields') /\
      (isWikilink (externalUrl fields') = true \/ isUrl (externalUrl fields') = true) /\
      exists notices, events = (notices ++ [UpdateUI])%list)).
Proof.
  unfold Modal.checkClipboard, tryCatch, bind.
  destruct readText as [text|e]; [|eexists _, _; split; [reflexivity | left; reflexivity]].
  destruct (String.eqb text ""); [eexists _, _; split; [reflexivity | left; reflexivity]|].
  destruct (isWikilink (trim text)) eqn:Ew.
  - destruct (trim text) as [|c t] eqn:Et; [discriminate Ew|].
    eexists _, _. split; [reflexivity|]. right. simpl.
    split; [reflexivity|]. split; [left; exact Ew|]. one_notice.
  - destruct (isMarkdownLink (trim text)) eqn:Em.
    + destruct (markdownLinkToWikilink (trim text)) as [[[|c t]|]|e] eqn:El;
        try (eexists _, _; split; [reflexivity | left; reflexivity]).
      eexists _, _. split; [reflexivity|]. right. simpl.
      split; [reflexivity|]. split; [exact (markdownLinkToWikilink_kind _ _ El)|].
      one_notice.
    + destruct (isUrl (trim text)) eqn:Eu;
        [|eexists _, _; split; [reflexivity | left; reflexivity]].
      destruct (trim text) as [|c t] eqn:Et; [discriminate Eu|].
      eexists _, _. split; [reflexivity|]. right. simpl.
      split; [reflexivity|]. split; [right; exact Eu|]. one_notice.
Qed.

(** [X22] [checkClipboard] never throws (a failing clipboard read or
    [decodeURI] is swallowed), and it either leaves the modal's fields as
    they were or switches the link type to external and stores a text
    that is a wikilink or a URL, leaving the other fields alone and
    calling [updateUI] last.  [markdownLinkToWikilink] only ever returns
    a wikilink or a URL. *)
Theorem clipboard_stores_wikilink_or_url (readText : Completion string) (fields : Fields) :
  (exists fields' events,
     checkClipboard readText fields = Normal (fields', events) /\
     (fields' = fields \/
      (destType fields' = External /\
       (isWikilink (externalUrl fields') = true \/ isUrl (externalUrl fields') = true) /\
       targetPage fields' = targetPage fields /\ destArray fields' = destArray fields /\
       description fields' = description fields /\
       exists notices, events = (notices ++ [UpdateUI])%list))) /\
  (forall text linkText,
     markdownLinkToWikilink text = Normal (Some linkText) ->
     isWikilink linkText = true \/ isUrl linkText = true).
Proof.
  split; [|exact markdownLinkToWikilink_kind].
  destruct (checkClipboard_cases readText fields)
    as (fields' & events & Hrun & [->|(Hfields & Hkind & Hevents)]).
  - exists fields, events. split; [exact Hrun | left; reflexivity].
  - exists fields', events. split; [exact Hrun|]. right.
    rewrite Hfields. simpl. repeat split; try reflexivity; assumption.
Qed.

(** [X23] A wikilink is preserved as it is: when the clipboard holds a
    wikilink, possibly with white space around it, [checkClipboard]
    stores the wikilink without that white space, and [submit] then hands
    exactly that text to [onSubmit] and closes the modal. *)
Theorem clipboard_wikilink_is_submitted_as_is (text : string) (fields : Fields) :
  isWikilink (trim text) = true ->
  exists fields' events,
    checkClipboard (Normal text) fields = Normal (fields', events) /\
    destType fields' = External /\ externalUrl fields' = trim text /\
    submit fields' =
    (fields',
     [Submitted (Pipeline.DestString (trim text)) (descriptionOrUndefined fields)
        selectionInfo;
      Closed]).
Proof.
  intros Hw. unfold Modal.checkClipboard, tryCatch, bind.
  pose proof (isWikilink_trim _ Hw) as Htrim.
  destruct (String.eqb text "") eqn:Eempty.
  - apply String.eqb_eq in Eempty. subst text. discriminate Hw.
  - rewrite Hw. destruct (trim text) as [|c t] eqn:Et; [discriminate Hw|].
    eexists _, _. split; [reflexivity|]. split; [reflexivity|]. split; [reflexivity|].
    unfold Modal.submit. simpl. rewrite Htrim. reflexivity.
Qed.

End Vault.

(** ** A line of a note *)

(** [X24] [getLineText] never throws: it returns [null] when the file
    cannot be read, when [line] is not the index of a line (negative,
    fractional or past the end) and when that line is empty; otherwise it
    returns the line, which is not empty and contains no line feed. *)
Theorem line_text_is_a_nonempty_line (read : Completion string) (line : number) :
  exists result,
    getLineText read line = Normal result /\
    (forall e, read = Throw e -> result = None) /\
    (Text.arrayIndex line = None -> result = None) /\
    (forall lineText, result = Some lineText ->
       lineText <> "" /\ indexOf lineText "010" = (-1)%Z /\
       exists content i,
         read = Normal content /\ Text.arrayIndex line = Some i /\
         nth_error (split content "010") i = Some lineText).
Proof.
  unfold getLineText, tryCatch, bind, Text.at_.
  destruct read as [content|e].
  - destruct (Text.arrayIndex line) as [i|] eqn:Ei.
    + destruct (nth_error (split content "010") i) as [[|c s]|] eqn:En;
        eexists; (split; [reflexivity|]);
        (split; [discriminate|]); (split; [discriminate|]);
        intros lineText H; try discriminate H.
      inversion H; subst. split; [discriminate|]. split.
      * apply (split_parts content "010"). exact (nth_error_In _ _ En).
      * exists content, i. auto.
    + eexists. split; [reflexivity|]. split; [discriminate|]. split; [reflexivity|].
      intros lineText H. discriminate H.
  - eexists. split; [reflexivity|]. split; [reflexivity|]. split; [reflexivity|].
    intros lineText H. discriminate H.
Qed.

Lemma clipboard_wikilink_is_submitted_as_is_witness :
  exists fields' events,
    @checkClipboard unit (fun s => Normal s) (fun s => (s, "")) (fun _ _ => Normal None)
      (fun f _ => Links.path f) (Links.mkTFile "A.pdf") "PDF++"
      (Normal "  [[Notes.pdf#page=5]] ")
      (mkFields Internal 1%float None "" "")
    = Normal (fields', events) /\
    destType fields' = External /\ externalUrl fields' = trim "  [[Notes.pdf#page=5]] " /\
    @submit unit "PDF++" None fields' =
    (fields',
     [Submitted (Pipeline.DestString (trim "  [[Notes.pdf#page=5]] "))
        (descriptionOrUndefined (mkFields Internal 1%float None "" "")) None;
      Closed]).
Proof.
  apply (@clipboard_wikilink_is_submitted_as_is unit (fun s => Normal s) (fun s => (s, ""))
           (fun _ _ => Normal None) (fun f _ => Links.path f) (Links.mkTFile "A.pdf") "PDF++" None
           "  [[Notes.pdf#page=5]] " (mkFields Internal 1%float None "" "")).
  reflexivity.
Defined.

End ModalFacts.
